(** * qupulse HDAWG driver: waveform cache and seqc program translator

    A shallow embedding of [HDAWGWaveManager] and [HDAWGProgramManager] from
    [qupulse/hardware/awgs/zihdawg.py], with the properties the design
    document states about them.

    Conventions of the embedding.
    - A numpy [float64] is a binary64 value of the kernel ([float]), with the
      IEEE 754 operations of the hardware: [volt - offset] and the quotient by
      the range round to nearest, comparisons with NaN are false, a division
      by zero gives an infinity or NaN (numpy warns and goes on). All NaNs
      are one value. The sample rate is a [TimeType] fraction ([Q]).
    - Text and names are [string]s whose characters are read as code points
      0..255.
    - A two-dimensional numpy array is its [shape] together with its rows.
    - Python exceptions are values of [HDAWGError]; code that mutates the
      wave manager or the disk runs in the state-and-error monad [M], whose
      state survives an exception exactly as the Python object does.
    - The sampler of a waveform, the voltage transformations and
      [get_sample_times] belong to other modules: a call of one of them
      returns a value or raises ([Call]), and what it raises passes through
      the driver as [Raised]. The byte image of a float and Python's [hash]
      are parameters, as are the matching of a [glob] pattern, the order in
      which a [dict] is iterated, and what [upload] reads from the device
      and from [make_compatible].
    - The directory [_wave_dir] is a finite map from artifact names to file
      contents ([full_file_path] is injective in the name), and every call of
      [np.savetxt] is also appended to [savetxt_log]. Storage is taken to
      accept every write: [np.savetxt] and [is_file] return. *)

From Stdlib Require Import ZArith QArith Qabs Qminmax Qround String Ascii Lia Floats.
From stdpp Require Import base option list gmap strings pretty sorting.

Local Open Scope Z_scope.

(** ** Numbers and arrays *)

Definition ChannelID := string.

(** A call into another module: the value it returns, or the exception it
    raises. *)
Abbreviation Call := (sum string).

(** What the driver observes of a [Waveform]: its duration and its sampler
    [get_sampled(channel, sample_times)]. *)
Record Waveform := {
  duration : Q;
  get_sampled : ChannelID → list float → Call (list float)
}.

(** A voltage transformation: a callable from sampled voltages to voltages. *)
Abbreviation Transformation := (list float → Call (list float)).

Inductive HDAWGError :=
| HDAWGValueError (max_volt rng : float)  (* 'Voltage {max_volt} out of range {rng}' *)
| HDAWGIOError (name : string)        (* '{file_path} already exists' *)
| IndexError                          (* tuple or array index out of range *)
| BroadcastError                      (* numpy: could not broadcast input array *)
| KeyError (name : string)
| Raised (exception : string).        (* raised inside a call into another module *)

Abbreviation Result := (sum HDAWGError).

#[global] Instance Result_ret : MRet Result := λ A x, inr x.
#[global] Instance Result_bind : MBind Result := λ A B f m,
  match m with inl e => inl e | inr x => f x end.

(** The outcome of a call into another module, inside the driver. *)
Definition call {A} (c : Call A) : Result A :=
  match c with inl exception => inl (Raised exception) | inr x => inr x end.

(** [t[idx]] on a tuple, for an index that is never negative. *)
Definition getitem {A} (t : list A) (idx : nat) : Result A :=
  match t !! idx with Some x => inr x | None => inl IndexError end.

Definition is_not_None {A} (o : option A) : bool :=
  match o with Some _ => true | None => false end.

(** One step of the reduction of [np.max]: the larger value, a NaN wins. *)
Definition np_maximum (a b : float) : float :=
  if is_nan a then a else if is_nan b then b else if (a <? b)%float then b else a.

(** [np.max] of a one-dimensional array (only called on non-empty ones). *)
Definition np_max (l : list float) : float :=
  match l with [] => 0%float | x :: xs => fold_left np_maximum xs x end.

Record ndarray (A : Type) := NDArray { shape : nat * nat; rows : list (list A) }.
Arguments NDArray {A} _ _.
Arguments shape {A} _.
Arguments rows {A} _.

Definition np_zeros {A} (zero : A) (n k : nat) : ndarray A :=
  NDArray (n, k) (replicate n (replicate k zero)).

(** [a[:, idx] = col]: the column must exist, and [col] must have one entry per
    row or a single entry that is broadcast. *)
Definition set_column {A} (a : ndarray A) (idx : nat) (col : list A) : Result (ndarray A) :=
  if negb (idx <? snd (shape a))%nat then inl IndexError
  else if (length col =? fst (shape a))%nat then
    inr (NDArray (shape a) (zip_with (λ row v, <[idx:=v]> row) (rows a) col))
  else match col with
       | [v] => inr (NDArray (shape a) (map (λ row, <[idx:=v]> row) (rows a)))
       | _ => inl BroadcastError
       end.

(** [bytes(data)]: the buffer in row-major order. *)
Definition to_bytes {A} (enc : A → list Byte.byte) (data : ndarray A) : list Byte.byte :=
  concat (rows data) ≫= enc.

Definition uint8_bytes (z : Z) : list Byte.byte :=
  match Byte.of_N (Z.to_N (z mod 256)) with Some b => [b] | None => [] end.

(** ** The wave manager and the disk it writes to *)

Inductive FileContent :=
| FloatText (data : ndarray float)   (* np.savetxt(..., fmt='%f') *)
| IntText (data : ndarray Z).    (* np.savetxt(..., fmt='%d') *)

Record HDAWGWaveManager := MkWaveManager {
  _wave_by_data : gmap Z string;
  _marker_by_data : gmap Z string;
  _awg_prefix : string;
  wave_dir : gmap string FileContent;
  savetxt_log : list (string * FileContent)
}.

Definition M (A : Type) : Type := HDAWGWaveManager → Result A * HDAWGWaveManager.

#[global] Instance M_ret : MRet M := λ A x s, (inr x, s).
#[global] Instance M_bind : MBind M := λ A B f m s,
  match m s with
  | (inl e, s') => (inl e, s')
  | (inr x, s') => f x s'
  end.

Definition lift {A} (r : Result A) : M A := λ s, (r, s).
Definition gets {A} (f : HDAWGWaveManager → A) : M A := λ s, (inr (f s), s).
Definition modify (f : HDAWGWaveManager → HDAWGWaveManager) : M unit := λ s, (inr tt, f s).
Definition when (b : bool) (m : M unit) : M unit := if b then m else mret tt.

Definition set_wave_by_data (h : Z) (name : string) (s : HDAWGWaveManager) :=
  MkWaveManager (<[h:=name]> (_wave_by_data s)) (_marker_by_data s) (_awg_prefix s)
              (wave_dir s) (savetxt_log s).

Definition set_marker_by_data (h : Z) (name : string) (s : HDAWGWaveManager) :=
  MkWaveManager (_wave_by_data s) (<[h:=name]> (_marker_by_data s)) (_awg_prefix s)
              (wave_dir s) (savetxt_log s).

Definition savetxt (name : string) (c : FileContent) (s : HDAWGWaveManager) :=
  MkWaveManager (_wave_by_data s) (_marker_by_data s) (_awg_prefix s)
              (<[name:=c]> (wave_dir s)) (savetxt_log s ++ [(name, c)]).

(** Methods of [HDAWGWaveManager]. *)
Module WaveManager.

Definition path_exists (name : string) (s : HDAWGWaveManager) : bool :=
  is_not_None (wave_dir s !! name).

Definition to_file (name : string) (wave_data : FileContent) (overwrite : bool) : M unit :=
  λ s, if path_exists name s && negb overwrite
       then (inl (HDAWGIOError name), s)
       else (inr tt, savetxt name wave_data s).

Definition generate_wave_name (awg_prefix : string) (data_hash : Z) : string :=
  awg_prefix +:+ "_" +:+ pretty (Z.abs data_hash).

Definition generate_marker_name (awg_prefix : string) (data_hash : Z) : string :=
  awg_prefix +:+ "_M_" +:+ pretty (Z.abs data_hash).

(** [np.abs(volt-offset) > rng] on one sample. *)
Definition exceeds (rng offset v : float) : bool := (rng <? abs (v - offset))%float.

Definition volt_to_amp (volt : list float) (rng offset : float) : Result (list float) :=
  if existsb (exceeds rng offset) volt
  then inl (HDAWGValueError (np_max (map (λ v, abs (v - offset)) volt)) rng)
  else inr (map (λ v, ((v - offset) / rng)%float) volt).

Section Methods.

(** Collaborators that live outside the driver: [get_sample_times], which
    gives the sample-time axis of a waveform at a sample rate together with
    the number of samples, the byte image of a float, and Python's [hash] of
    a byte string. *)
Variable get_sample_times : Waveform → Q → Call (list float * nat).
Variable float_bytes : float → list Byte.byte.
Variable py_hash : list Byte.byte → Z.

Definition calc_hash {A} (enc : A → list Byte.byte) (data : ndarray A) : Z :=
  py_hash (to_bytes enc data).

(** The loop [for idx, chan in enumerate(channels)] that fills [amplitude]. *)
Fixpoint fill_amplitude (waveform : Waveform) (sample_times : list float)
    (voltage_transformation : list Transformation)
    (output_range output_offset : list float)
    (idx : nat) (channels : list (option ChannelID)) (amplitude : ndarray float)
    : Result (ndarray float) :=
  match channels with
  | [] => inr amplitude
  | None :: rest =>
      fill_amplitude waveform sample_times voltage_transformation
        output_range output_offset (S idx) rest amplitude
  | Some chan :: rest =>
      f ← getitem voltage_transformation idx;
      sampled ← call (get_sampled waveform chan sample_times);
      voltage ← call (f sampled);
      rng ← getitem output_range idx;
      offset ← getitem output_offset idx;
      amp ← volt_to_amp voltage rng offset;
      amplitude' ← set_column amplitude idx amp;
      fill_amplitude waveform sample_times voltage_transformation
        output_range output_offset (S idx) rest amplitude'
  end.

(** The loop [for idx, marker in enumerate(markers)] that fills
    [marker_output]; [!= 0] yields 0 or 1. *)
Fixpoint fill_markers (waveform : Waveform) (sample_times : list float)
    (idx : nat) (markers : list (option ChannelID)) (marker_output : ndarray Z)
    : Result (ndarray Z) :=
  match markers with
  | [] => inr marker_output
  | None :: rest => fill_markers waveform sample_times (S idx) rest marker_output
  | Some marker :: rest =>
      sampled ← call (get_sampled waveform marker sample_times);
      let col := map (λ v, if (v =? 0)%float then 0 else 1) sampled in
      marker_output' ← set_column marker_output idx col;
      fill_markers waveform sample_times (S idx) rest marker_output'
  end.

Definition register (waveform : Waveform)
    (channels markers : list (option ChannelID))
    (voltage_transformation : list Transformation)
    (sample_rate : Q) (output_range output_offset : list float)
    (overwrite : bool) : M (option string * option string) :=
  '(sample_times, n_samples) ← lift (call (get_sample_times waveform sample_rate));
  let number_of_channels := length channels in
  wave_name ←
    (if existsb is_not_None channels then
       amplitude ← lift (fill_amplitude waveform sample_times voltage_transformation
                           output_range output_offset 0 channels
                           (np_zeros 0%float n_samples number_of_channels));
       let amplitude_hash := calc_hash float_bytes amplitude in
       cached ← gets (λ s, _wave_by_data s !! amplitude_hash);
       wave_name ←
         match cached with
         | Some wave_name => mret wave_name
         | None =>
             awg_prefix ← gets _awg_prefix;
             let wave_name := generate_wave_name awg_prefix amplitude_hash in
             modify (set_wave_by_data amplitude_hash wave_name);;
             mret wave_name
         end;
       present ← gets (path_exists wave_name);
       when (overwrite || negb present)
            (to_file wave_name (FloatText amplitude) overwrite);;
       mret (Some wave_name)
     else mret None);
  marker_name ←
    (if existsb is_not_None markers then
       marker_output ← lift (fill_markers waveform sample_times 0 markers
                               (np_zeros 0 n_samples number_of_channels));
       let marker_hash := calc_hash uint8_bytes marker_output in
       cached ← gets (λ s, _marker_by_data s !! marker_hash);
       marker_name ←
         match cached with
         | Some marker_name => mret marker_name
         | None =>
             awg_prefix ← gets _awg_prefix;
             let marker_name := generate_marker_name awg_prefix marker_hash in
             modify (set_marker_by_data marker_hash marker_name);;
             mret marker_name
         end;
       present ← gets (path_exists marker_name);
       when (overwrite || negb present)
            (to_file marker_name (IntText marker_output) overwrite);;
       mret (Some marker_name)
     else mret None);
  mret (wave_name, marker_name).

(** One entry of the list [register_single_channels] returns:
    [(wave_name, marker_name, hardware_channel_index, channel_name)]. *)
Definition RegisteredName : Type :=
  option string * option string * Z * option ChannelID.

(** The loop [for idx, channel in enumerate(channels)]. *)
Fixpoint register_single_channels_from (idx : nat) (rest : list (option ChannelID))
    (waveform : Waveform) (markers : list (option ChannelID))
    (voltage_transformations : list Transformation)
    (sample_rate : Q) (output_range output_offset : list float)
    (overwrite : bool) : M (list RegisteredName) :=
  match rest with
  | [] => mret []
  | channel :: rest' =>
      let qupulse_channel_name := channel in
      qupulse_marker_name ← lift (getitem markers idx);
      let zi_channel_idx := Z.of_nat idx + 1 in
      if negb (is_not_None qupulse_channel_name) && negb (is_not_None qupulse_marker_name)
      then register_single_channels_from (S idx) rest' waveform markers
             voltage_transformations sample_rate output_range output_offset overwrite
      else
        marker ← lift (getitem markers idx);
        vt ← lift (getitem voltage_transformations idx);
        '(wave_name, marker_name) ←
           register waveform [channel] [marker] [vt] sample_rate
                    output_range output_offset overwrite;
        names ← register_single_channels_from (S idx) rest' waveform markers
                  voltage_transformations sample_rate output_range output_offset overwrite;
        mret ((wave_name, marker_name, zi_channel_idx, qupulse_channel_name) :: names)
  end.

Definition register_single_channels (waveform : Waveform)
    (channels markers : list (option ChannelID))
    (voltage_transformations : list Transformation)
    (sample_rate : Q) (output_range output_offset : list float)
    (overwrite : bool) : M (list RegisteredName) :=
  register_single_channels_from 0 channels waveform markers voltage_transformations
    sample_rate output_range output_offset overwrite.

End Methods.

End WaveManager.

(** ** Python text primitives used by the translator *)

Definition nl : string := String "010"%char EmptyString.
Definition dq : string := String "034"%char EmptyString.

(** [sep.join(lines)] *)
Definition str_join (sep : string) (lines : list string) : string :=
  String.concat sep lines.

(** [c * n] for a one-character string [c]. *)
Fixpoint str_repeat (c : ascii) (n : nat) : string :=
  match n with O => EmptyString | S k => String c (str_repeat c k) end.

(** Line boundaries of [str.splitlines] and the white space of [str.strip],
    among the code points below 256. *)
Definition is_linebreak (c : ascii) : bool :=
  existsb (Ascii.eqb c) ["010"; "011"; "012"; "013"; "028"; "029"; "030"; "133"]%char.

Definition is_space (c : ascii) : bool :=
  existsb (Ascii.eqb c)
    ["009"; "010"; "011"; "012"; "013"; "028"; "029"; "030"; "031"; "032"; "133"; "160"]%char.

(** [s.splitlines(True)]: the lines of [s], each with its line ending. *)
Fixpoint splitlines (s : string) : list string :=
  match s with
  | EmptyString => []
  | String c s' =>
      if is_linebreak c then
        match s' with
        | String "010"%char s'' =>
            if Ascii.eqb c "013"%char
            then String c (String "010"%char EmptyString) :: splitlines s''
            else String c EmptyString :: splitlines s'
        | _ => String c EmptyString :: splitlines s'
        end
      else
        match splitlines s' with
        | [] => [String c EmptyString]
        | line :: lines => String c line :: lines
        end
  end.

(** [bool(line.strip())] *)
Fixpoint has_text (line : string) : bool :=
  match line with
  | EmptyString => false
  | String c rest => negb (is_space c) || has_text rest
  end.

(** [textwrap.indent(text, prefix)] *)
Definition textwrap_indent (text prefix : string) : string :=
  str_join EmptyString
    (map (λ line, if has_text line then prefix +:+ line else line) (splitlines text)).

(** [s.replace(old, new)]: every non-overlapping occurrence, leftmost first.
    [skip] counts the characters of a match that are still to be dropped. *)
Fixpoint replace_from (old new : string) (skip : nat) (s : string) : string :=
  match s with
  | EmptyString => EmptyString
  | String c s' =>
      match skip with
      | S k => replace_from old new k s'
      | O =>
          if String.prefix old s
          then new +:+ replace_from old new (String.length old - 1) s'
          else String c (replace_from old new 0 s')
      end
  end.

Definition str_replace (s old new : string) : string :=
  match old with
  | EmptyString =>
      new +:+ (fix between (t : string) : string :=
                 match t with
                 | EmptyString => EmptyString
                 | String c t' => String c (new +:+ between t')
                 end) s
  | _ => replace_from old new 0 s
  end.

(** ** Programs and the program manager *)

(** A program node as the translator reads it: a leaf holds a waveform and no
    children, an internal node holds at least one child and no waveform. *)
#[warnings="-register-all"]
Inductive Loop :=
| Leaf (repetition_count : Z) (waveform : Waveform)
| Node (repetition_count : Z) (child : Loop) (children : list Loop).

Definition repetition_count (prog : Loop) : Z :=
  match prog with Leaf n _ => n | Node n _ _ => n end.

Record ProgramEntry := MkProgramEntry {
  program : Loop;
  index : Z;        (* Program to seqc switch case mapping. *)
  seqc_rep : string (* Seqc representation of program inside case statement. *)
}.

Record HDAWGProgramManager := MkProgramManager {
  _known_programs : list (string * ProgramEntry);  (* OrderedDict, oldest first *)
  _number_of_channels : nat;
  _channels : list (option ChannelID);
  _markers : list (option ChannelID);
  _voltage_transformation : list Transformation;
  _sample_rate : Q;
  _overwrite : bool;
  _output_range : list float;
  _output_offset : list float
}.

(** [d[name] = entry] on an [OrderedDict]: a known key keeps its position. *)
Fixpoint od_setitem {V} (name : string) (v : V) (d : list (string * V)) : list (string * V) :=
  match d with
  | [] => [(name, v)]
  | (k, w) :: rest =>
      if String.eqb k name then (k, v) :: rest else (k, w) :: od_setitem name v rest
  end.

Fixpoint od_get {V} (name : string) (d : list (string * V)) : option V :=
  match d with
  | [] => None
  | (k, w) :: rest => if String.eqb k name then Some w else od_get name rest
  end.

Definition od_delete {V} (name : string) (d : list (string * V)) : list (string * V) :=
  filter (λ kv, negb (String.eqb (fst kv) name)) d.

(** Methods of [HDAWGProgramManager]. *)
Module ProgramManager.

(** [__init__]. The initial [_voltage_transformation] is a tuple of [None]
    placeholders that no call reads before [register] replaces it; it is the
    empty tuple here. *)
Definition init (number_of_channels : nat) : HDAWGProgramManager :=
  MkProgramManager [] number_of_channels
    (replicate number_of_channels None) (replicate number_of_channels None)
    [] 0%Q false
    (replicate number_of_channels 1%float) (replicate number_of_channels 0%float).

Definition set_known_programs (d : list (string * ProgramEntry)) (self : HDAWGProgramManager) :=
  MkProgramManager d (_number_of_channels self) (_channels self) (_markers self)
    (_voltage_transformation self) (_sample_rate self) (_overwrite self)
    (_output_range self) (_output_offset self).

Definition remove (name : string) (self : HDAWGProgramManager)
    : Result unit * HDAWGProgramManager :=
  match od_get name (_known_programs self) with
  | Some _ => (inr tt, set_known_programs (od_delete name (_known_programs self)) self)
  | None => (inl (KeyError name), self)
  end.

Definition clear (self : HDAWGProgramManager) : HDAWGProgramManager :=
  set_known_programs [] self.

Definition programs (self : HDAWGProgramManager) : list string :=
  map fst (_known_programs self).

Definition name_to_index (name : string) (self : HDAWGProgramManager) : Result Z :=
  match od_get name (_known_programs self) with
  | Some entry => inr (index entry)
  | None => inl (KeyError name)
  end.

Definition generate_program_index (self : HDAWGProgramManager) : Z :=
  match last (_known_programs self) with
  | Some (last_program, entry) => index entry + 1
  | None => 1  (* First index of programs. 0 reserved for idle pulse. *)
  end.

(** The operand of one channel in a [playWave] command. *)
Definition combined_name (wf_name mk_name : option string) : option string :=
  match mk_name, wf_name with
  | Some mk, Some wf => Some ("add(" +:+ dq +:+ wf +:+ dq +:+ ", " +:+ dq +:+ mk +:+ dq +:+ ")")
  | Some mk, None => Some (dq +:+ mk +:+ dq)
  | None, Some wf => Some (dq +:+ wf +:+ dq)
  | None, None => None
  end.

(** The loop [for wave_data in registered_names] that collects [www]. *)
Fixpoint playwave_operands (registered_names : list WaveManager.RegisteredName) : list string :=
  match registered_names with
  | [] => []
  | (wf_name, mk_name, channel_idx, qupulse_channel_name) :: rest =>
      match combined_name wf_name mk_name with
      | Some name => (pretty channel_idx +:+ "," +:+ name) :: playwave_operands rest
      | None => playwave_operands rest
      end
  end.

Definition playwave_command (www : list string) : string :=
  match www with
  | [] => EmptyString
  | _ => "playWave(" +:+ str_join ", " www +:+ ");"
  end.

Section Methods.

Variable get_sample_times : Waveform → Q → Call (list float * nat).
Variable float_bytes : float → list Byte.byte.
Variable py_hash : list Byte.byte → Z.

Definition waveform_to_seqc (self : HDAWGProgramManager) (waveform : Waveform) : M string :=
  registered_names ←
    WaveManager.register_single_channels get_sample_times float_bytes py_hash
      waveform (_channels self) (_markers self) (_voltage_transformation self)
      (_sample_rate self) (_output_range self) (_output_offset self) (_overwrite self);
  mret (playwave_command (playwave_operands registered_names)).

(** The generator [program_to_seqc], run to completion: the lines it yields. *)
Fixpoint program_to_seqc (self : HDAWGProgramManager) (prog : Loop) : M (list string) :=
  let template : string → string :=
    if 1 <? repetition_count prog then λ line, "  " +:+ line else λ line, line in
  let opening : list string :=
    if 1 <? repetition_count prog
    then ["repeat(" +:+ pretty (repetition_count prog) +:+ ") {"] else [] in
  let closing : list string :=
    if 1 <? repetition_count prog then ["}"%string] else [] in
  body ←
    match prog with
    | Leaf _ waveform =>
        command ← waveform_to_seqc self waveform;
        mret [template command]
    | Node _ child children =>
        first ← program_to_seqc self child;
        others ←
          (fix each (cs : list Loop) : M (list string) :=
             match cs with
             | [] => mret []
             | c :: cs' =>
                 lines ← program_to_seqc self c;
                 more ← each cs';
                 mret (map template lines ++ more)
             end) children;
        mret (map template first ++ others)
    end;
  mret (opening ++ body ++ closing).

Definition register (name : string) (program : Loop)
    (channels markers : list (option ChannelID))
    (voltage_transformation : list Transformation)
    (sample_rate : Q) (output_range output_offset : list float) (overwrite : bool)
    (self : HDAWGProgramManager) (wm : HDAWGWaveManager)
    : Result unit * HDAWGProgramManager * HDAWGWaveManager :=
  let self := MkProgramManager (_known_programs self) (_number_of_channels self)
                channels markers voltage_transformation sample_rate overwrite
                output_range output_offset in
  let program_index := generate_program_index self in
  match program_to_seqc self program wm with
  | (inl e, wm') => (inl e, self, wm')
  | (inr seqc_gen, wm') =>
      let entry := MkProgramEntry program program_index (str_join nl seqc_gen) in
      (inr tt, set_known_programs (od_setitem name entry (_known_programs self)) self, wm')
  end.

End Methods.

(** [sequencer_template], after [textwrap.dedent]. *)
Definition sequencer_template : string :=
  str_join nl [
    "//////////  qupulse sequence (_upload_time_) //////////";
    EmptyString;
    "const PROG_SEL = 0; // User register for switching current program.";
    EmptyString;
    "// Start of analog waveform definitions.";
    "wave idle = zeros(16); // Default idle waveform.";
    "_analog_waveform_block_";
    EmptyString;
    "// Start of marker waveform definitions.";
    "_marker_waveform_block_";
    EmptyString;
    "// Arm program switch.";
    "var prog_sel = getUserReg(PROG_SEL);";
    EmptyString;
    "// Main loop.";
    "while(true){";
    "    switch(prog_sel){";
    "_case_block_";
    "        default:";
    "            playWave(1, idle);";
    "    }";
    "}";
    EmptyString ]%string.

Definition case_wrap_program (prog : ProgramEntry) (prog_name : string) (indent : nat) : string :=
  let indented_seqc :=
    textwrap_indent (seqc_rep prog +:+ nl +:+ "// end of " +:+ prog_name)
                    (str_repeat " " 4) in
  let case_str :=
    "case " +:+ pretty (index prog) +:+ ": // Program name: " +:+ prog_name
            +:+ nl +:+ indented_seqc in
  textwrap_indent case_str (str_repeat " " indent).

Definition assemble_case_block (self : HDAWGProgramManager) : string :=
  str_join nl (map (λ '(name, entry), case_wrap_program entry name 8) (_known_programs self)).

(** [upload_time] is the value of [time.strftime('%c')] at the call. *)
Definition assemble_sequencer_program (upload_time : string) (self : HDAWGProgramManager)
    : string :=
  let awg_sequence := str_replace sequencer_template "_upload_time_" upload_time in
  let awg_sequence := str_replace awg_sequence "_analog_waveform_block_" EmptyString in
  let awg_sequence := str_replace awg_sequence "_marker_waveform_block_" EmptyString in
  str_replace awg_sequence "_case_block_" (assemble_case_block self).

End ProgramManager.

(** ** Closed forms used in the proofs *)

(** The cache lookup of [register]: the name under [h], minted on a miss. *)
Definition cache_wave (h : Z) (s : HDAWGWaveManager) : string * HDAWGWaveManager :=
  match _wave_by_data s !! h with
  | Some name => (name, s)
  | None =>
      let name := WaveManager.generate_wave_name (_awg_prefix s) h in
      (name, set_wave_by_data h name s)
  end.

Definition cache_marker (h : Z) (s : HDAWGWaveManager) : string * HDAWGWaveManager :=
  match _marker_by_data s !! h with
  | Some name => (name, s)
  | None =>
      let name := WaveManager.generate_marker_name (_awg_prefix s) h in
      (name, set_marker_by_data h name s)
  end.

(** The guarded [to_file] of [register]: write unless the file is kept. *)
Definition persist (name : string) (c : FileContent) (overwrite : bool)
    (s : HDAWGWaveManager) : HDAWGWaveManager :=
  if overwrite || negb (WaveManager.path_exists name s) then savetxt name c s else s.

Section RegisterOutcome.

Variable get_sample_times : Waveform → Q → Call (list float * nat).
Variable float_bytes : float → list Byte.byte.
Variable py_hash : list Byte.byte → Z.

(** The amplitude matrix of a call that has a wave side; a call whose time
    axis [get_sample_times] does not produce ends before either side. *)
Definition sampled_amplitude (waveform : Waveform) (channels : list (option ChannelID))
    (voltage_transformation : list Transformation) (sample_rate : Q)
    (output_range output_offset : list float) : option (Result (ndarray float)) :=
  match get_sample_times waveform sample_rate with
  | inl exception => Some (inl (Raised exception))
  | inr (sample_times, n_samples) =>
      if existsb is_not_None channels then
        Some (WaveManager.fill_amplitude waveform sample_times
                voltage_transformation output_range output_offset 0 channels
                (np_zeros 0%float n_samples (length channels)))
      else None
  end.

Definition sampled_markers (waveform : Waveform) (channels markers : list (option ChannelID))
    (sample_rate : Q) : option (Result (ndarray Z)) :=
  match get_sample_times waveform sample_rate with
  | inl exception => Some (inl (Raised exception))
  | inr (sample_times, n_samples) =>
      if existsb is_not_None markers then
        Some (WaveManager.fill_markers waveform sample_times 0 markers
                (np_zeros 0 n_samples (length channels)))
      else None
  end.

Definition wave_side (amplitude : option (Result (ndarray float))) (overwrite : bool)
    (s : HDAWGWaveManager) : Result (option string) * HDAWGWaveManager :=
  match amplitude with
  | None => (inr None, s)
  | Some (inl e) => (inl e, s)
  | Some (inr amp) =>
      let h := WaveManager.calc_hash py_hash float_bytes amp in
      (inr (Some (cache_wave h s).1),
       persist (cache_wave h s).1 (FloatText amp) overwrite (cache_wave h s).2)
  end.

Definition marker_side (marker_output : option (Result (ndarray Z))) (overwrite : bool)
    (s : HDAWGWaveManager) : Result (option string) * HDAWGWaveManager :=
  match marker_output with
  | None => (inr None, s)
  | Some (inl e) => (inl e, s)
  | Some (inr mk) =>
      let h := WaveManager.calc_hash py_hash uint8_bytes mk in
      (inr (Some (cache_marker h s).1),
       persist (cache_marker h s).1 (IntText mk) overwrite (cache_marker h s).2)
  end.

Definition register_outcome (amplitude : option (Result (ndarray float)))
    (marker_output : option (Result (ndarray Z))) (overwrite : bool)
    (s : HDAWGWaveManager) : Result (option string * option string) * HDAWGWaveManager :=
  match wave_side amplitude overwrite s with
  | (inl e, s1) => (inl e, s1)
  | (inr wave_name, s1) =>
      match marker_side marker_output overwrite s1 with
      | (inl e, s2) => (inl e, s2)
      | (inr marker_name, s2) => (inr (wave_name, marker_name), s2)
      end
  end.

End RegisterOutcome.

(** ** Vocabulary of the statements *)

Definition out_of_range (rng offset : float) (volt : list float) : bool :=
  existsb (WaveManager.exceeds rng offset) volt.

(** The transformed samples of a channel in slot [idx], when the slot has a
    transformation and neither the sampler nor the transformation raises. *)
Definition slot_voltage (waveform : Waveform) (sample_times : list float)
    (vt : list Transformation) (idx : nat) (chan : ChannelID) : option (list float) :=
  match vt !! idx with
  | Some f =>
      match get_sampled waveform chan sample_times with
      | inr sampled => match f sampled with inr voltage => Some voltage | inl _ => None end
      | inl _ => None
      end
  | None => None
  end.





(** [-1 <= v <= 1]; a NaN is not in the interval. *)
Definition unit_interval (v : float) : Prop :=
  (-1 <=? v)%float = true ∧ (v <=? 1)%float = true.



(** Number of [np.savetxt] calls so far that wrote the artifact [name]. *)
Definition writes_to (name : string) (s : HDAWGWaveManager) : nat :=
  length (filter (λ e, e.1 = name) (savetxt_log s)).

Definition repeat_wrapper (count : Z) (body : list string) : list string :=
  ("repeat(" +:+ pretty count +:+ ") {") :: map (λ line, "  " +:+ line) body ++ ["}"%string].

(** The hardware slots that have a channel or a marker assigned, in order,
    each with its zero-based position. *)
Fixpoint active_slots (idx : nat) (channels markers : list (option ChannelID))
    : list (nat * option ChannelID * option ChannelID) :=
  match channels with
  | [] => []
  | channel :: rest =>
      let marker := default None (markers !! idx) in
      if is_not_None channel || is_not_None marker
      then (idx, channel, marker) :: active_slots (S idx) rest markers
      else active_slots (S idx) rest markers
  end.

(** An entry of [register_single_channels] that belongs to a given slot. *)
Definition entry_of_slot (slot : nat * option ChannelID * option ChannelID)
    (entry : WaveManager.RegisteredName) : Prop :=
  let '(idx, channel, marker) := slot in
  let '(wave_name, marker_name, channel_idx, channel_name) := entry in
  channel_idx = Z.of_nat idx + 1 ∧ channel_name = channel ∧
  is_not_None wave_name = is_not_None channel ∧
  is_not_None marker_name = is_not_None marker.

(** The operand an entry contributes to the play command. *)
Definition operand (entry : WaveManager.RegisteredName) : string :=
  let '(wave_name, marker_name, channel_idx, _) := entry in
  pretty channel_idx +:+ "," +:+
  match wave_name, marker_name with
  | Some wf, Some mk => "add(" +:+ dq +:+ wf +:+ dq +:+ ", " +:+ dq +:+ mk +:+ dq +:+ ")"
  | Some wf, None => dq +:+ wf +:+ dq
  | None, Some mk => dq +:+ mk +:+ dq
  | None, None => EmptyString
  end.

(** The entries that registering the slots one after the other gives: each
    holds what [register] returned for its slot alone, on the state that the
    slots before it left. *)
Inductive registers_slots
    (get_sample_times : Waveform → Q → Call (list float * nat))
    (float_bytes : float → list Byte.byte) (py_hash : list Byte.byte → Z)
    (waveform : Waveform) (vt : list Transformation) (rate : Q) (rng off : list float)
    (overwrite : bool)
    : list (nat * option ChannelID * option ChannelID) → HDAWGWaveManager →
      list WaveManager.RegisteredName → HDAWGWaveManager → Prop :=
| registers_none s :
    registers_slots get_sample_times float_bytes py_hash waveform vt rate rng off overwrite
      [] s [] s
| registers_next idx channel marker slots f s wave_name marker_name s1 names s' :
    vt !! idx = Some f →
    WaveManager.register get_sample_times float_bytes py_hash
      waveform [channel] [marker] [f] rate rng off overwrite s
      = (inr (wave_name, marker_name), s1) →
    registers_slots get_sample_times float_bytes py_hash waveform vt rate rng off overwrite
      slots s1 names s' →
    registers_slots get_sample_times float_bytes py_hash waveform vt rate rng off overwrite
      ((idx, channel, marker) :: slots) s
      ((wave_name, marker_name, Z.of_nat idx + 1, channel) :: names) s'.

Fixpoint str_all (P : ascii → bool) (s : string) : bool :=
  match s with
  | EmptyString => true
  | String c s' => P c && str_all P s'
  end.






Definition no_linebreak (s : string) : bool := str_all (λ c, negb (is_linebreak c)) s.

(** The lines of [a +:+ b] when [a] has no line boundary: [a] joins the first
    line of [b]. *)
Definition glue (a : string) (lines : list string) : list string :=
  match lines with
  | [] => match a with EmptyString => [] | _ => [a] end
  | line :: lines' => (a +:+ line) :: lines'
  end.

(** The dispatch arms of the registered programs, oldest first. *)
Definition dispatch_arms (self : HDAWGProgramManager) : list string :=
  map (λ '(name, entry), ProgramManager.case_wrap_program entry name 8)
      (_known_programs self).


(** The arguments of one call of [register]. *)
Record Registration := MkRegistration {
  reg_name : string;
  reg_program : Loop;
  reg_channels : list (option ChannelID);
  reg_markers : list (option ChannelID);
  reg_voltage_transformation : list Transformation;
  reg_sample_rate : Q;
  reg_output_range : list float;
  reg_output_offset : list float;
  reg_overwrite : bool
}.

Inductive Operation :=
| OpRegister (r : Registration)
| OpRemove (name : string)
| OpClear.

Definition indices (d : list (string * ProgramEntry)) : list Z := (λ kv, index kv.2) <$> d.

(** Indices grow strictly along the insertion order. *)
Definition increasing (d : list (string * ProgramEntry)) : Prop :=
  StronglySorted (λ a b, index a.2 < index b.2) d.

Definition State : Type := HDAWGProgramManager * HDAWGWaveManager.

Definition known (st : State) : list (string * ProgramEntry) := _known_programs st.1.

(** Notions that run the translator or the registry. *)
Module Spec.

Section Runs.

Variable get_sample_times : Waveform → Q → Call (list float * nat).
Variable float_bytes : float → list Byte.byte.
Variable py_hash : list Byte.byte → Z.

Abbreviation waveform_to_seqc :=
  (ProgramManager.waveform_to_seqc get_sample_times float_bytes py_hash).
Abbreviation program_to_seqc :=
  (ProgramManager.program_to_seqc get_sample_times float_bytes py_hash).

(** The lines of the children of a node, one child after the other. *)
Fixpoint children_lines (self : HDAWGProgramManager) (cs : list Loop) : M (list string) :=
  match cs with
  | [] => mret []
  | c :: cs' =>
      lines ← program_to_seqc self c;
      more ← children_lines self cs';
      mret (lines ++ more)
  end.

(** The body of a node, before any repeat wrapper is put around it. *)
Definition seqc_body (self : HDAWGProgramManager) (prog : Loop) : M (list string) :=
  match prog with
  | Leaf _ waveform => command ← waveform_to_seqc self waveform; mret [command]
  | Node _ child children => children_lines self (child :: children)
  end.

(** One call on the registry; a raised exception leaves the objects as the
    call left them. *)
Definition apply_op (op : Operation) (st : State) : Result unit * State :=
  match op with
  | OpRegister r =>
      let '(res, self, wm) :=
        ProgramManager.register get_sample_times float_bytes py_hash
          (reg_name r) (reg_program r) (reg_channels r) (reg_markers r)
          (reg_voltage_transformation r) (reg_sample_rate r)
          (reg_output_range r) (reg_output_offset r) (reg_overwrite r) st.1 st.2 in
      (res, (self, wm))
  | OpRemove name =>
      let '(res, self) := ProgramManager.remove name st.1 in (res, (self, st.2))
  | OpClear => (inr tt, (ProgramManager.clear st.1, st.2))
  end.

Definition run (ops : list Operation) (st : State) : State :=
  fold_left (λ st op, (apply_op op st).2) ops st.

(** Every call of the sequence returns normally. *)
Fixpoint succeeds (ops : list Operation) (st : State) : Prop :=
  match ops with
  | [] => True
  | op :: ops' => (apply_op op st).1 = inr tt ∧ succeeds ops' (apply_op op st).2
  end.

(** Every registration of the sequence uses a name that is not registered
    at that moment. *)
Fixpoint fresh_names (ops : list Operation) (st : State) : Prop :=
  match ops with
  | [] => True
  | op :: ops' =>
      match op with
      | OpRegister r => od_get (reg_name r) (_known_programs st.1) = None
      | _ => True
      end ∧ fresh_names ops' (apply_op op st).2
  end.

End Runs.

End Spec.

(** ** A concrete environment for running the code on examples *)

Module Example.

(** The rational that a finite float stands for. *)
Definition float_value (x : float) : option Q :=
  match Prim2SF x with
  | S754_zero _ => Some 0%Q
  | S754_finite s m e =>
      let magnitude :=
        match e with
        | Z.neg k => (Z.pos m # 2 ^ k)%Q
        | _ => inject_Z (Z.pos m * 2 ^ e)
        end in
      Some (if s then Qopp magnitude else magnitude)
  | _ => None
  end.

Fixpoint float_of_nat (k : nat) : float :=
  match k with O => 0%float | S k' => (float_of_nat k' + 1)%float end.

(** [n = duration * rate] samples at the times [0, 1, ..., n - 1]. *)
Definition sample_times (w : Waveform) (rate : Q) : Call (list float * nat) :=
  let n := Z.to_nat (Qfloor (duration w * rate)) in
  inr (map float_of_nat (seq 0 n), n).

(** A byte image that tells apart the values the examples use. *)
Definition float_bytes (x : float) : list Byte.byte :=
  match float_value x with
  | Some q => uint8_bytes (Qnum (Qred q)) ++ uint8_bytes (Z.pos (Qden (Qred q)))
  | None => uint8_bytes 255 ++ uint8_bytes 255
  end.

Definition hash (b : list Byte.byte) : Z :=
  fold_left (λ h x, (31 * h + Z.of_N (Byte.to_N x)) mod 1000003) b 7.

(** A one-sample waveform that is 2 V on channel A and 1 V elsewhere. *)
Definition wf : Waveform :=
  {| duration := 1;
     get_sampled := λ chan times,
       inr (map (λ _, if String.eqb chan "A" then 2%float else 1%float) times) |}.

Definition identity : Transformation := λ volt, inr volt.

Definition fresh (prefix : string) : HDAWGWaveManager :=
  MkWaveManager ∅ ∅ prefix ∅ [].

End Example.

(** ** The code on concrete inputs *)

Module Run.

Abbreviation register :=
  (WaveManager.register Example.sample_times Example.float_bytes Example.hash).
Abbreviation register_single_channels :=
  (WaveManager.register_single_channels Example.sample_times Example.float_bytes Example.hash).

(** Two channels with ranges 2 V and 1 V; the waveform is 2 V on A, 1 V on B. *)
Definition two_ranges : Result (list WaveManager.RegisteredName) * HDAWGWaveManager :=
  register_single_channels Example.wf [Some "A"; Some "B"]%string [None; None]
    [Example.identity; Example.identity] 1 [2%float; 1%float] [0%float; 0%float] false
    (Example.fresh "awg").


(** A wave on A and a marker on B, registered once. *)
Definition wave_and_marker : Result (option string * option string) * HDAWGWaveManager :=
  register Example.wf [Some "A"]%string [Some "B"]%string
    [Example.identity] 1 [2%float] [0%float] false (Example.fresh "awg").

Definition leaf_on_A (name : string) : Registration :=
  MkRegistration name (Node 2 (Leaf 1 Example.wf) [])
    [Some "A"; None]%string [None; None] [Example.identity; Example.identity]
    1 [2%float; 1%float] [0%float; 0%float] false.

Definition start : State := (ProgramManager.init 2, Example.fresh "awg").

Abbreviation run := (Spec.run Example.sample_times Example.float_bytes Example.hash).
Abbreviation apply_op := (Spec.apply_op Example.sample_times Example.float_bytes Example.hash).

End Run.

(** ** Further notions about the wave manager *)

(** The state [s'] continues [s]: the prefix is the same, every cache entry
    and every file name is still there, and the write log has only grown. *)
Definition grows (s s' : HDAWGWaveManager) : Prop :=
  _awg_prefix s' = _awg_prefix s ∧
  _wave_by_data s ⊆ _wave_by_data s' ∧
  _marker_by_data s ⊆ _marker_by_data s' ∧
  dom (wave_dir s) ⊆ dom (wave_dir s') ∧
  savetxt_log s `prefix_of` savetxt_log s'.

(** Every file of [s] is in [s'] with the content it had. *)
Definition keeps_files (s s' : HDAWGWaveManager) : Prop :=
  wave_dir s ⊆ wave_dir s'.

(** Every cache entry carries the name minted from its own key. *)
Definition cache_consistent (s : HDAWGWaveManager) : Prop :=
  (∀ h name, _wave_by_data s !! h = Some name →
             name = WaveManager.generate_wave_name (_awg_prefix s) h) ∧
  (∀ h name, _marker_by_data s !! h = Some name →
             name = WaveManager.generate_marker_name (_awg_prefix s) h).

(** The error of the guard of [to_file]. *)
Definition is_io_error (e : HDAWGError) : Prop :=
  ∃ name, e = HDAWGIOError name.

(** A computation on the wave manager that only adds and that, run again on
    any state that continues the one it left, returns what it returned and
    changes nothing. *)
Definition replays {A} (m : M A) : Prop :=
  ∀ s r s', m s = (r, s') →
    grows s s' ∧ ∀ s'', grows s' s'' → m s'' = (r, s'').

(** A computation that keeps a consistent cache consistent and whose result,
    on consistent caches, depends on the prefix only. *)
Definition steady {A} (m : M A) : Prop :=
  ∀ s, cache_consistent s →
    cache_consistent (m s).2 ∧ _awg_prefix (m s).2 = _awg_prefix s ∧
    ∀ s', cache_consistent s' → _awg_prefix s' = _awg_prefix s → (m s').1 = (m s).1.

(** ** More of the wave manager: construction, [clear] and [remove] *)

(** [Path.unlink] on a path that is not there. *)
Inductive RemoveError :=
| FileNotFoundError (name : string).

Module WaveManagerFiles.

Definition _file_type : string := "csv".

(** The file of an artifact inside [_wave_dir]: the last component of
    [full_file_path(name)]. *)
Definition file_name (name : string) : string := name +:+ "." +:+ _file_type.

Section Methods.

(** [Path.glob]: whether a file name of the directory matches a pattern. *)
Variable glob_match : string → string → bool.

Definition clear (s : HDAWGWaveManager) : HDAWGWaveManager :=
  MkWaveManager ∅ ∅ (_awg_prefix s)
    (filter (λ kv, glob_match (_awg_prefix s +:+ "_*." +:+ _file_type) (file_name kv.1) = false)
            (wave_dir s))
    (savetxt_log s).

(** [__init__]. [is_dir] tells whether [_wave_dir] exists as a directory and
    [files] holds the artifacts found in it. *)
Definition init (wave_dir_path : string) (is_dir : bool) (awg_identifier : string)
    (files : gmap string FileContent) : Result HDAWGWaveManager :=
  if negb is_dir then inl (HDAWGIOError wave_dir_path)
  else inr (clear (MkWaveManager ∅ ∅ awg_identifier files [])).

(** [dict.items()]: the entries of a cache in the order in which the
    dictionary iterates over them. *)
Variable dict_items : gmap Z string → list (Z * string).

(** [full_file_path(name).unlink()]. *)
Definition unlink (name : string) (s : HDAWGWaveManager) : RemoveError + HDAWGWaveManager :=
  if WaveManager.path_exists name s
  then inr (MkWaveManager (_wave_by_data s) (_marker_by_data s) (_awg_prefix s)
              (delete name (wave_dir s)) (savetxt_log s))
  else inl (FileNotFoundError name).

(** [remove]: each loop stops at the first entry that carries the name,
    deletes the file and then the entry. An exception leaves the state that
    was reached. *)
Definition remove (name : string) (s : HDAWGWaveManager)
    : (RemoveError + unit) * HDAWGWaveManager :=
  let after_waves :=
    match find (λ kv, String.eqb kv.2 name) (dict_items (_wave_by_data s)) with
    | Some (wf_entry, wf_name) =>
        match unlink name s with
        | inl e => inl e
        | inr s1 =>
            inr (MkWaveManager (delete wf_entry (_wave_by_data s1)) (_marker_by_data s1)
                   (_awg_prefix s1) (wave_dir s1) (savetxt_log s1))
        end
    | None => inr s
    end in
  match after_waves with
  | inl e => (inl e, s)
  | inr s1 =>
      match find (λ kv, String.eqb kv.2 name) (dict_items (_marker_by_data s1)) with
      | Some (wf_entry, wf_name) =>
          match unlink name s1 with
          | inl e => (inl e, s1)
          | inr s2 =>
              (inr tt,
               MkWaveManager (_wave_by_data s2) (delete wf_entry (_marker_by_data s2))
                 (_awg_prefix s2) (wave_dir s2) (savetxt_log s2))
          end
      | None => (inr tt, s1)
      end
  end.

End Methods.

End WaveManagerFiles.

(** The pattern of [clear] matches every file name that starts with the
    prefix and an underscore. *)
Definition glob_covers (glob_match : string → string → bool) (awg_prefix : string) : Prop :=
  ∀ rest, glob_match (awg_prefix +:+ "_*." +:+ WaveManagerFiles._file_type)
                     (WaveManagerFiles.file_name (awg_prefix +:+ "_" +:+ rest)) = true.

(** The iteration of a dictionary visits exactly its entries. *)
Definition lists_entries (dict_items : gmap Z string → list (Z * string)) : Prop :=
  ∀ m h name, (h, name) ∈ dict_items m ↔ m !! h = Some name.

(** A file system for running [clear] and [remove] on examples. *)
Module ExampleFiles.

(** Shell-style matching with [*] as the only wildcard. *)
Fixpoint glob (pattern file : string) : bool :=
  match pattern with
  | EmptyString => match file with EmptyString => true | _ => false end
  | String p pattern' =>
      if Ascii.eqb p "*" then
        (fix star (file : string) : bool :=
           glob pattern' file ||
           match file with
           | EmptyString => false
           | String _ file' => star file'
           end) file
      else
        match file with
        | EmptyString => false
        | String c file' => Ascii.eqb p c && glob pattern' file'
        end
  end.

Definition dict_items (m : gmap Z string) : list (Z * string) := map_to_list m.

End ExampleFiles.

(** ** Channel groups *)

Inductive HDAWGChannelGrouping :=
| CHAN_GROUP_4x2
| CHAN_GROUP_2x4
| CHAN_GROUP_1x8.

(** The sequences of channel numbers a caller passes: a tuple, a list, or a
    [range] of step one. *)
Inductive ChannelSequence :=
| ChannelTuple (items : list Z)
| ChannelList (items : list Z)
| ChannelRange (start stop : Z).

Inductive ChannelGroupError :=
| Invalid4x2Pair      (* 'Invalid 4x2 channel pair: {}' *)
| Invalid1x8List      (* 'Invalid 1x8 channel list: {}' *)
| Unsupported2x4      (* 'Channel grouping 2x4 not yet supported' *)
| EmptyChannels.      (* channels[0] on an empty sequence *)

(** [HDAWGRegisterFunc]: the user register that selects the program, and the
    value that selects the idle waveform. *)
Definition PROG_SEL : Z := 1.
Definition PROG_IDLE : Z := 0.

(** What [arm] raises. *)
Inductive ArmError :=
| InvalidRegister (reg : Z)             (* '{} not a valid (1-16) register.' *)
| UnknownProgram (name : string)        (* '{} is unknown on {}' *)
| Lookup (e : HDAWGError).              (* raised by [name_to_index] *)

(** What [upload] raises before it hands the source to the device. *)
Inductive UploadError :=
| ChannelIDNotSpecified                 (* 'Channel ID not specified' *)
| MarkersNotSpecified                   (* 'Markers not specified' *)
| WrongNumberOfTransformations          (* 'Wrong number of voltage transformations' *)
| AlreadyKnown (name : string)          (* '{} is already known on {}' *)
| NotCompatible                         (* raised by [make_compatible] *)
| ChannelNotFoundException (channel : Z)
| Registering (e : HDAWGError).         (* raised by [_program_manager.register] *)

(** Methods of [HDAWGChannelGroup] that depend on the channel sequence only. *)
Module ChannelGroup.

Definition items (channels : ChannelSequence) : list Z :=
  match channels with
  | ChannelTuple l => l
  | ChannelList l => l
  | ChannelRange start stop =>
      map (λ k, start + Z.of_nat k) (seq 0 (Z.to_nat (stop - start)))
  end.

(** [channels in ((1, 2), (3, 4), (5, 6), (7, 8))]: a tuple equals only a
    tuple with the same items. *)
Definition is_4x2_pair (channels : ChannelSequence) : bool :=
  match channels with
  | ChannelTuple l => existsb (λ pair, bool_decide (l = pair)) [[1; 2]; [3; 4]; [5; 6]; [7; 8]]
  | _ => false
  end.

(** [channels == range(1, 9)]: a range equals only a range with the same items. *)
Definition is_range_1_9 (channels : ChannelSequence) : bool :=
  match channels with
  | ChannelRange start stop =>
      bool_decide (items (ChannelRange start stop) = items (ChannelRange 1 9))
  | _ => false
  end.

(** The check that opens [__init__]. *)
Definition check_channels (channel_grouping : HDAWGChannelGrouping)
    (channels : ChannelSequence) : ChannelGroupError + unit :=
  match channel_grouping with
  | CHAN_GROUP_4x2 => if negb (is_4x2_pair channels) then inl Invalid4x2Pair else inr tt
  | CHAN_GROUP_1x8 => if negb (is_range_1_9 channels) then inl Invalid1x8List else inr tt
  | CHAN_GROUP_2x4 => inl Unsupported2x4
  end.

Definition num_channels (channels : ChannelSequence) : nat := length (items channels).

Definition awg_group_index (channels : ChannelSequence) : ChannelGroupError + Z :=
  match items channels with
  | first :: _ => inr ((first - 1) / Z.of_nat (num_channels channels))
  | [] => inl EmptyChannels
  end.

(** The check of the decorator [valid_channel]: [channel in range(1, 9)]. *)
Definition valid_channel (channel : Z) : bool := (1 <=? channel) && (channel <? 9).

Section Upload.

Variable get_sample_times : Waveform → Q → Call (list float * nat).
Variable float_bytes : float → list Byte.byte.
Variable py_hash : list Byte.byte → Z.

(** What [upload] reads from outside the driver: the sample rate of the
    group in the time base of qupulse, the range the device reports for a
    channel, the program that [make_compatible] leaves ([None] when it
    raises), and the time stamp of the assembled source. *)
Variable q_sample_rate : Q.
Variable device_range : Z → float.
Variable make_compatible : Loop → Q → option Loop.
Variable upload_time : string.

(** [[self._device.range(self._channels[ii]) for ii in range(self.num_channels)]]. *)
Fixpoint channel_ranges (chans : list Z) : UploadError + list float :=
  match chans with
  | [] => inr []
  | channel :: rest =>
      if negb (valid_channel channel) then inl (ChannelNotFoundException channel)
      else match channel_ranges rest with
           | inl e => inl e
           | inr ranges => inr (device_range channel :: ranges)
           end
  end.

(** [upload], up to the source string that it hands to
    [_upload_sourcestring]; [st] holds the program manager and the wave
    manager of the group. *)
Definition upload (group_channels : ChannelSequence) (name : string) (program : Loop)
    (channels markers : list (option ChannelID))
    (voltage_transformation : list Transformation) (force : bool)
    (st : HDAWGProgramManager * HDAWGWaveManager)
    : (UploadError + string) * (HDAWGProgramManager * HDAWGWaveManager) :=
  let num_channels := num_channels group_channels in
  if negb (length channels =? num_channels)%nat then (inl ChannelIDNotSpecified, st)
  else if negb (length markers =? num_channels)%nat then (inl MarkersNotSpecified, st)
  else if negb (length voltage_transformation =? num_channels)%nat
  then (inl WrongNumberOfTransformations, st)
  else if bool_decide (name ∈ ProgramManager.programs st.1) && negb force
  then (inl (AlreadyKnown name), st)
  else
    match make_compatible program q_sample_rate with
    | None => (inl NotCompatible, st)
    | Some program =>
        match channel_ranges (items group_channels) with
        | inl e => (inl e, st)
        | inr ranges =>
            match ProgramManager.register get_sample_times float_bytes py_hash
                    name program channels markers voltage_transformation q_sample_rate
                    ranges (replicate num_channels 0%float) force st.1 st.2 with
            | (inl e, self, wm) => (inl (Registering e), (self, wm))
            | (inr _, self, wm) =>
                (inr (ProgramManager.assemble_sequencer_program upload_time self), (self, wm))
            end
        end
    end.

End Upload.

(** [user_register(reg, value)] with a value: the user register of the node
    tree that is set, counted from zero, and the value it is set to. *)
Definition user_register (reg value : Z) : ArmError + (Z * Z) :=
  if negb ((1 <=? reg) && (reg <? 17)) then inl (InvalidRegister reg)
  else inr (reg - 1, value).

(** [arm]: the register write it makes, and [_current_program] afterwards. *)
Definition arm (name : option string) (self : HDAWGProgramManager) (current : option string)
    : (ArmError + (Z * Z)) * option string :=
  let idle :=
    match user_register PROG_SEL PROG_IDLE with
    | inl e => (inl e, current)
    | inr written => (inr written, None)
    end in
  match name with
  | None => idle
  | Some EmptyString => idle
  | Some name =>
      if negb (bool_decide (name ∈ ProgramManager.programs self))
      then (inl (UnknownProgram name), current)
      else
        match ProgramManager.name_to_index name self with
        | inl e => (inl (Lookup e), Some name)
        | inr program_index =>
            match user_register PROG_SEL program_index with
            | inl e => (inl e, Some name)
            | inr written => (inr written, Some name)
            end
        end
  end.

End ChannelGroup.

(** The channel sequences for which [HDAWGRepresentation.__init__] creates
    its channel groups, in order. *)
Definition channel_groups_of (channel_grouping : HDAWGChannelGrouping) : list ChannelSequence :=
  match channel_grouping with
  | CHAN_GROUP_4x2 =>
      [ChannelTuple [1; 2]; ChannelTuple [3; 4]; ChannelTuple [5; 6]; ChannelTuple [7; 8]]
  | CHAN_GROUP_2x4 => [ChannelTuple [1; 2; 3; 4]; ChannelTuple [5; 6; 7; 8]]
  | CHAN_GROUP_1x8 => [ChannelRange 1 9]
  end.

(** ** More runs of the code on concrete inputs *)

Module Scenario.

Definition stamp : string := "Tue Nov  3 11:14:00 2026".

(** The wave and marker of [Run.wave_and_marker], registered with [overwrite]. *)
Definition overwritten : Result (option string * option string) * HDAWGWaveManager :=
  Run.register Example.wf [Some "A"]%string [Some "B"]%string
    [Example.identity] 1 [2%float] [0%float] true Run.wave_and_marker.2.

(** A marker in a slot that the one-column matrix does not have. *)
Definition marker_fails : Result (option string * option string) * HDAWGWaveManager :=
  Run.register Example.wf [Some "A"]%string [None; Some "B"]%string
    [Example.identity] 1 [2%float] [0%float] false (Example.fresh "awg").

(** A sample of 2 V against a range of 1 V. *)
Definition out_of_range : Result (option string * option string) * HDAWGWaveManager :=
  Run.register Example.wf [Some "A"]%string [None]
    [Example.identity] 1 [1%float] [0%float] false (Example.fresh "awg").

Definition two_leaves : Loop := Node 2 (Leaf 1 Example.wf) [Leaf 3 Example.wf].

Abbreviation pm_register :=
  (ProgramManager.register Example.sample_times Example.float_bytes Example.hash).

(** A program registered as a, and the state it leaves. *)
Definition registered : Result unit * HDAWGProgramManager * HDAWGWaveManager :=
  pm_register "a" two_leaves [Some "A"; None]%string [None; Some "B"]%string
    [Example.identity; Example.identity] 1 [2%float; 1%float] [0%float; 0%float] false
    Run.start.1 Run.start.2.

(** The programs a and b, registered in this order. *)
Definition a_then_b : State :=
  Run.run [OpRegister (Run.leaf_on_A "a"); OpRegister (Run.leaf_on_A "b")] Run.start.

(** A directory that holds two artifacts of the prefix and a file of another. *)
Definition used_directory : HDAWGWaveManager :=
  MkWaveManager ∅ ∅ "awg"
    (<["awg_6759" := FloatText (NDArray (1, 1)%nat [[1%float]])]>
       (<["other_1" := IntText (NDArray (1, 1)%nat [[1]])]> ∅))
    [].

Definition wm_remove := WaveManagerFiles.remove ExampleFiles.dict_items.

(** The entry under a name, and the newest entry, of a registry that has them. *)
Definition entry_of (name : string) (st : State) : ProgramEntry :=
  default (MkProgramEntry (Leaf 0 Example.wf) 0 EmptyString) (od_get name (known st)).

Definition newest (st : State) : string * ProgramEntry :=
  default (EmptyString, MkProgramEntry (Leaf 0 Example.wf) 0 EmptyString) (last (known st)).

Definition upload :=
  ChannelGroup.upload Example.sample_times Example.float_bytes Example.hash
    1%Q (λ _, 2%float) (λ program _, Some program) stamp.


End Scenario.

(** * Properties *)

(** ** Order of binary64 values *)

(** [SFcompare] is a total order away from NaN. *)

Lemma SFcompare_refl a : a ≠ S754_nan → SFcompare a a = Some Eq.
Proof.
  destruct a as [s|s| |s m e]; try done; simpl; intros _.
  - by destruct s.
  - rewrite Z.compare_refl.
    change (PosDef.Pos.compare_cont Eq m m) with (Pos.compare m m).
    rewrite Pos.compare_refl. by destruct s.
Qed.






(** The same on floats, through the specification of the primitives. *)

Lemma is_nan_spec x : is_nan x = true ↔ Prim2SF x = S754_nan.
Proof.
  unfold is_nan. rewrite FloatAxioms.eqb_spec. unfold SFeqb. split.
  - intros H. destruct (Prim2SF x) eqn:E; try done;
      rewrite SFcompare_refl in H; done.
  - by intros ->.
Qed.








Lemma ltb_nan_l a b : is_nan a = true → (a <? b)%float = false.
Proof.
  rewrite is_nan_spec, ltb_spec. unfold SFltb. by intros ->.
Qed.


Lemma sub_nan_l x y : is_nan x = true → is_nan (x - y) = true.
Proof. rewrite !is_nan_spec, sub_spec. by intros ->. Qed.

Lemma div_nan_l x y : is_nan x = true → is_nan (x / y) = true.
Proof. rewrite !is_nan_spec, div_spec. by intros ->. Qed.

Lemma div_nan_r x y : is_nan y = true → is_nan (x / y) = true.
Proof. rewrite !is_nan_spec, div_spec. intros ->. by destruct (Prim2SF x). Qed.

(** ** The reported maximum *)






(** ** Range check *)



Lemma volt_to_amp_cases volt rng offset :
  WaveManager.volt_to_amp volt rng offset =
  if out_of_range rng offset volt
  then inl (HDAWGValueError (np_max (map (λ v, abs (v - offset)) volt)) rng)
  else inr (map (λ v, ((v - offset) / rng)%float) volt).
Proof. reflexivity. Qed.


Lemma getitem_Some {A} (t : list A) idx x : t !! idx = Some x → getitem t idx = inr x.
Proof. unfold getitem. by intros ->. Qed.


Lemma slot_voltage_Some waveform times vt idx chan voltage :
  slot_voltage waveform times vt idx chan = Some voltage ↔
  ∃ f sampled, vt !! idx = Some f ∧ get_sampled waveform chan times = inr sampled ∧
               f sampled = inr voltage.
Proof.
  unfold slot_voltage. split.
  - destruct (vt !! idx) as [f|]; [|done].
    destruct (get_sampled waveform chan times) as [e|sampled]; [done|].
    destruct (f sampled) as [e|voltage'] eqn:Hf; [done|].
    intros [= <-]. by exists f, sampled.
  - intros (f & sampled & -> & -> & ->). done.
Qed.

(** One round of the loop of [fill_amplitude] on a slot whose samples arrive. *)
Lemma fill_amplitude_step waveform times vt rng off idx chan rest amp voltage r o :
  slot_voltage waveform times vt idx chan = Some voltage →
  rng !! idx = Some r → off !! idx = Some o →
  WaveManager.fill_amplitude waveform times vt rng off idx (Some chan :: rest) amp =
  (col ← WaveManager.volt_to_amp voltage r o;
   amp' ← set_column amp idx col;
   WaveManager.fill_amplitude waveform times vt rng off (S idx) rest amp').
Proof.
  intros Hv Hr Ho. apply slot_voltage_Some in Hv as (f & sampled & Hf & Hs & Hfs).
  simpl. rewrite (getitem_Some _ _ _ Hf). simpl. rewrite Hs. simpl. rewrite Hfs. simpl.
  rewrite (getitem_Some _ _ _ Hr), (getitem_Some _ _ _ Ho). reflexivity.
Qed.


(** ** Shape and contents of the sampled matrices *)











Section WaveManagerFacts.

Variable get_sample_times : Waveform → Q → Call (list float * nat).
Variable float_bytes : float → list Byte.byte.
Variable py_hash : list Byte.byte → Z.

Abbreviation register := (WaveManager.register get_sample_times float_bytes py_hash).
Abbreviation amplitude_of := (sampled_amplitude get_sample_times).
Abbreviation markers_of := (sampled_markers get_sample_times).
Abbreviation outcome := (register_outcome float_bytes py_hash).

Lemma persist_no_error name c overwrite s :
  when (overwrite || negb (WaveManager.path_exists name s))
    (WaveManager.to_file name c overwrite) s = (inr tt, persist name c overwrite s).
Proof.
  unfold when, persist, WaveManager.to_file.
  destruct overwrite, (WaveManager.path_exists name s) eqn:E; simpl;
    rewrite ?E; reflexivity.
Qed.

(** [register] in closed form: sample, then the wave side, then the marker side. *)
Lemma register_eq waveform channels markers vt rate rng off overwrite s :
  register waveform channels markers vt rate rng off overwrite s =
  outcome (amplitude_of waveform channels vt rate rng off)
          (markers_of waveform channels markers rate) overwrite s.
Proof.
  unfold WaveManager.register, register_outcome, sampled_amplitude, sampled_markers.
  unfold mbind at 1. unfold M_bind at 1. unfold lift at 1.
  destruct (get_sample_times waveform rate) as [exception|[times n]]; [reflexivity|].
  unfold call.
  unfold mbind, M_bind, mret, M_ret, lift, gets, modify, wave_side, marker_side.
  destruct (existsb is_not_None channels).
  - destruct (WaveManager.fill_amplitude _ _ _ _ _ _ _ _) as [e|amp]; [reflexivity|].
    unfold cache_wave.
    destruct (_wave_by_data s !! _) as [name|] eqn:Hc; simpl.
    + rewrite persist_no_error.
      destruct (existsb is_not_None markers); [|reflexivity].
      destruct (WaveManager.fill_markers _ _ _ _ _) as [e|mk]; [reflexivity|].
      unfold cache_marker.
      destruct (_marker_by_data _ !! _) as [mname|] eqn:Hm; simpl;
        rewrite persist_no_error; reflexivity.
    + rewrite persist_no_error.
      destruct (existsb is_not_None markers); [|reflexivity].
      destruct (WaveManager.fill_markers _ _ _ _ _) as [e|mk]; [reflexivity|].
      unfold cache_marker.
      destruct (_marker_by_data _ !! _) as [mname|] eqn:Hm; simpl;
        rewrite persist_no_error; reflexivity.
  - destruct (existsb is_not_None markers); [|reflexivity].
    destruct (WaveManager.fill_markers _ _ _ _ _) as [e|mk]; [reflexivity|].
    unfold cache_marker.
    destruct (_marker_by_data _ !! _) as [mname|] eqn:Hm; simpl;
      rewrite persist_no_error; reflexivity.
Qed.

Lemma set_column_error {A} (a : ndarray A) idx col e :
  set_column a idx col = inl e → e = IndexError ∨ e = BroadcastError.
Proof.
  unfold set_column. destruct (negb _); [intros [= <-]; auto|].
  destruct (_ =? _)%nat; [done|].
  destruct col as [|v [|w col]]; intros [= <-]; auto.
Qed.

(** The marker loop raises what assigning a column raises, or what the
    sampler raised. *)
Lemma fill_markers_error waveform times markers :
  ∀ idx mk e,
  WaveManager.fill_markers waveform times idx markers mk = inl e →
  e = IndexError ∨ e = BroadcastError ∨ ∃ exception, e = Raised exception.
Proof.
  induction markers as [|m markers IH]; intros idx mk e; simpl; [done|].
  destruct m as [marker|]; [|apply IH].
  destruct (get_sampled waveform marker times) as [exception|sampled]; simpl.
  - intros [= <-]. eauto.
  - destruct (set_column mk idx _) as [e'|mk'] eqn:Hset; simpl.
    + intros [= <-]. destruct (set_column_error _ _ _ _ Hset); auto.
    + apply IH.
Qed.



Lemma markers_of_error waveform channels markers rate e :
  markers_of waveform channels markers rate = Some (inl e) →
  e = IndexError ∨ e = BroadcastError ∨ ∃ exception, e = Raised exception.
Proof.
  unfold sampled_markers.
  destruct (get_sample_times waveform rate) as [exception|[times n]].
  - intros [= <-]. eauto.
  - destruct (existsb is_not_None markers); [|done].
    intros [= H]. by eapply fill_markers_error.
Qed.



(** ** Deduplication *)

Lemma cache_wave_hit h s name :
  _wave_by_data s !! h = Some name → cache_wave h s = (name, s).
Proof. unfold cache_wave. by intros ->. Qed.

Lemma cache_marker_hit h s name :
  _marker_by_data s !! h = Some name → cache_marker h s = (name, s).
Proof. unfold cache_marker. by intros ->. Qed.

Lemma cache_wave_lookup h s :
  _wave_by_data (cache_wave h s).2 !! h = Some (cache_wave h s).1.
Proof.
  unfold cache_wave. destruct (_wave_by_data s !! h) eqn:E; simpl; [done|].
  apply lookup_insert_eq.
Qed.

Lemma cache_marker_lookup h s :
  _marker_by_data (cache_marker h s).2 !! h = Some (cache_marker h s).1.
Proof.
  unfold cache_marker. destruct (_marker_by_data s !! h) eqn:E; simpl; [done|].
  apply lookup_insert_eq.
Qed.

Lemma cache_wave_disk h s :
  wave_dir (cache_wave h s).2 = wave_dir s ∧
  savetxt_log (cache_wave h s).2 = savetxt_log s ∧
  _marker_by_data (cache_wave h s).2 = _marker_by_data s.
Proof. unfold cache_wave. by destruct (_wave_by_data s !! h). Qed.

Lemma cache_marker_disk h s :
  wave_dir (cache_marker h s).2 = wave_dir s ∧
  savetxt_log (cache_marker h s).2 = savetxt_log s ∧
  _wave_by_data (cache_marker h s).2 = _wave_by_data s.
Proof. unfold cache_marker. by destruct (_marker_by_data s !! h). Qed.

Lemma persist_caches name c overwrite s :
  _wave_by_data (persist name c overwrite s) = _wave_by_data s ∧
  _marker_by_data (persist name c overwrite s) = _marker_by_data s.
Proof. unfold persist. by destruct (_ || _). Qed.

Lemma persist_exists name c overwrite s :
  WaveManager.path_exists name (persist name c overwrite s) = true.
Proof.
  unfold persist.
  destruct overwrite, (WaveManager.path_exists name s) eqn:E; simpl; try done;
    unfold WaveManager.path_exists; simpl; by rewrite lookup_insert_eq.
Qed.

Lemma persist_kept name c s :
  WaveManager.path_exists name s = true → persist name c false s = s.
Proof. unfold persist. by intros ->. Qed.

Lemma persist_keeps_files name c overwrite s x :
  WaveManager.path_exists x s = true →
  WaveManager.path_exists x (persist name c overwrite s) = true.
Proof.
  unfold persist. destruct (_ || _); [|done].
  unfold WaveManager.path_exists. simpl.
  destruct (decide (name = x)) as [->|Hne].
  - by rewrite lookup_insert_eq.
  - by rewrite lookup_insert_ne.
Qed.

(** Without [overwrite], the guarded write happens exactly when the artifact
    is missing, and then it is the only change on disk. *)
Lemma persist_missing name c s :
  wave_dir s !! name = None →
  persist name c false s = savetxt name c s.
Proof.
  intros H. unfold persist, WaveManager.path_exists. by rewrite H.
Qed.

Lemma persist_present name c s :
  wave_dir s !! name ≠ None → persist name c false s = s.
Proof.
  intros H. apply persist_kept. unfold WaveManager.path_exists.
  by destruct (wave_dir s !! name).
Qed.

Lemma writes_to_savetxt x name c s :
  writes_to x (savetxt name c s) =
  (writes_to x s + if decide (name = x) then 1 else 0)%nat.
Proof.
  unfold writes_to, savetxt. simpl. rewrite filter_app, length_app. f_equal.
  rewrite filter_cons, filter_nil. simpl. by destruct (decide (name = x)).
Qed.

Lemma writes_to_persist x name c s :
  writes_to x (persist name c false s) =
  (writes_to x s +
   if decide (name = x)
   then (if WaveManager.path_exists name s then 0 else 1) else 0)%nat.
Proof.
  unfold WaveManager.path_exists.
  destruct (wave_dir s !! name) as [old|] eqn:E; simpl.
  - rewrite persist_present by congruence. destruct (decide _); lia.
  - rewrite persist_missing by done. apply writes_to_savetxt.
Qed.

Lemma lookup_persist_ne x name c s :
  name ≠ x → wave_dir (persist name c false s) !! x = wave_dir s !! x.
Proof.
  intros Hne. unfold persist. destruct (_ || _); [|done].
  simpl. by rewrite lookup_insert_ne.
Qed.

(** The state after the wave side: the cache knows the name and the
    artifact is on disk. *)
Lemma wave_side_done amp overwrite s :
  let h := WaveManager.calc_hash py_hash float_bytes amp in
  let name := (cache_wave h s).1 in
  let s1 := persist name (FloatText amp) overwrite (cache_wave h s).2 in
  _wave_by_data s1 !! h = Some name ∧ WaveManager.path_exists name s1 = true ∧
  _marker_by_data s1 = _marker_by_data s.
Proof.
  intros h name s1. subst s1.
  destruct (persist_caches name (FloatText amp) overwrite (cache_wave h s).2) as [-> ->].
  split; [apply cache_wave_lookup|]. split; [apply persist_exists|].
  apply cache_wave_disk.
Qed.

Lemma marker_side_done mk overwrite s :
  let h := WaveManager.calc_hash py_hash uint8_bytes mk in
  let name := (cache_marker h s).1 in
  let s1 := persist name (IntText mk) overwrite (cache_marker h s).2 in
  _marker_by_data s1 !! h = Some name ∧ WaveManager.path_exists name s1 = true ∧
  _wave_by_data s1 = _wave_by_data s ∧
  ∀ x, WaveManager.path_exists x s = true → WaveManager.path_exists x s1 = true.
Proof.
  intros h name s1. subst s1.
  destruct (persist_caches name (IntText mk) overwrite (cache_marker h s).2) as [-> ->].
  split; [apply cache_marker_lookup|]. split; [apply persist_exists|].
  split; [apply cache_marker_disk|].
  intros x Hx. apply persist_keeps_files. unfold WaveManager.path_exists.
  by destruct (cache_marker_disk h s) as [-> _].
Qed.

(** A side that finds its entry cached and its artifact on disk changes nothing. *)
Lemma wave_side_again amp s name :
  _wave_by_data s !! WaveManager.calc_hash py_hash float_bytes amp = Some name →
  WaveManager.path_exists name s = true →
  wave_side float_bytes py_hash (Some (inr amp)) false s = (inr (Some name), s).
Proof.
  intros Hc Hf. unfold wave_side. rewrite (cache_wave_hit _ _ _ Hc). simpl.
  by rewrite persist_kept.
Qed.

Lemma marker_side_again mk s name :
  _marker_by_data s !! WaveManager.calc_hash py_hash uint8_bytes mk = Some name →
  WaveManager.path_exists name s = true →
  marker_side py_hash (Some (inr mk)) false s = (inr (Some name), s).
Proof.
  intros Hc Hf. unfold marker_side. rewrite (cache_marker_hit _ _ _ Hc). simpl.
  by rewrite persist_kept.
Qed.

Lemma outcome_again amplitude marker_output s r s1 :
  outcome amplitude marker_output false s = (inr r, s1) →
  outcome amplitude marker_output false s1 = (inr r, s1).
Proof.
  unfold register_outcome.
  destruct amplitude as [[e|amp]|]; [done| |].
  - unfold wave_side at 1. cbv zeta.
    destruct (wave_side_done amp false s) as (Hc & Hf & Hm).
    set (h := WaveManager.calc_hash py_hash float_bytes amp) in *.
    set (wn := (cache_wave h s).1) in *.
    set (sA := persist wn (FloatText amp) false (cache_wave h s).2) in *.
    destruct marker_output as [[e|mk]|]; [done| |].
    + unfold marker_side at 1. cbv zeta.
      destruct (marker_side_done mk false sA) as (Hc' & Hf' & Hw & Hkeep).
      set (h' := WaveManager.calc_hash py_hash uint8_bytes mk) in *.
      set (mn := (cache_marker h' sA).1) in *.
      set (sB := persist mn (IntText mk) false (cache_marker h' sA).2) in *.
      intros [= <- <-].
      rewrite wave_side_again with (name := wn); [|by rewrite Hw|by apply Hkeep].
      by rewrite marker_side_again with (name := mn).
    + unfold marker_side. intros [= <- <-].
      by rewrite wave_side_again with (name := wn).
  - simpl. destruct marker_output as [[e|mk]|]; [done| |].
    + unfold marker_side at 1. cbv zeta.
      destruct (marker_side_done mk false s) as (Hc' & Hf' & Hw & Hkeep).
      set (h' := WaveManager.calc_hash py_hash uint8_bytes mk) in *.
      set (mn := (cache_marker h' s).1) in *.
      set (sB := persist mn (IntText mk) false (cache_marker h' s).2) in *.
      intros [= <- <-].
      by rewrite marker_side_again with (name := mn).
    + simpl. by intros [= <- <-].
Qed.

Lemma writes_to_persist_missing name x c s :
  wave_dir s !! name = None →
  (x = name → writes_to name (persist x c false s) = S (writes_to name s)) ∧
  (x ≠ name → writes_to name (persist x c false s) = writes_to name s ∧
              wave_dir (persist x c false s) !! name = None).
Proof.
  intros Hmiss. split.
  - intros ->. rewrite writes_to_persist. unfold WaveManager.path_exists.
    rewrite Hmiss. simpl. destruct (decide (name = name)); [lia|done].
  - intros Hne. rewrite writes_to_persist, lookup_persist_ne by done.
    destruct (decide (x = name)); [done|]. split; [lia|done].
Qed.

Lemma writes_to_persist_present name x c s :
  WaveManager.path_exists name s = true →
  writes_to name (persist x c false s) = writes_to name s.
Proof.
  intros Hex. rewrite writes_to_persist.
  destruct (decide (x = name)) as [->|]; [|lia]. rewrite Hex. lia.
Qed.

Lemma writes_to_cache_wave name h s :
  writes_to name (cache_wave h s).2 = writes_to name s.
Proof. unfold writes_to. by destruct (cache_wave_disk h s) as (_ & -> & _). Qed.

Lemma writes_to_cache_marker name h s :
  writes_to name (cache_marker h s).2 = writes_to name s.
Proof. unfold writes_to. by destruct (cache_marker_disk h s) as (_ & -> & _). Qed.

Lemma outcome_writes amplitude marker_output s r s1 name :
  outcome amplitude marker_output false s = (inr r, s1) →
  r.1 = Some name ∨ r.2 = Some name →
  wave_dir s !! name = None →
  writes_to name s1 = S (writes_to name s).
Proof.
  unfold register_outcome. intros H Hname Hmiss.
  assert (∀ mk sA wn,
            (wn = Some name ∧ WaveManager.path_exists name sA = true ∧
             writes_to name sA = S (writes_to name s)) ∨
            (wn ≠ Some name ∧ wave_dir sA !! name = None ∧
             writes_to name sA = writes_to name s) →
            marker_side py_hash marker_output false sA = (inr mk, s1) →
            r = (wn, mk) →
            writes_to name s1 = S (writes_to name s)) as Hmarker.
  { intros mk sA wn HA Hside ->. simpl in Hname. unfold marker_side in Hside.
    destruct marker_output as [[e|m]|]; [done| |].
    - cbv zeta in Hside. injection Hside as <- <-.
      set (h := WaveManager.calc_hash py_hash uint8_bytes m) in *.
      destruct HA as [(Hwn & Hex & Hcount)|(Hwn & Hmiss' & Hcount)].
      + rewrite writes_to_persist_present, writes_to_cache_marker; [done|].
        unfold WaveManager.path_exists in *.
        by destruct (cache_marker_disk h sA) as (-> & _).
      + destruct Hname as [?|[= Hmn]]; [done|].
        destruct (writes_to_persist_missing name (cache_marker h sA).1 (IntText m)
                    (cache_marker h sA).2) as [Hyes _].
        { by destruct (cache_marker_disk h sA) as (-> & _). }
        rewrite Hyes, writes_to_cache_marker by done. by rewrite Hcount.
    - injection Hside as <- <-.
      destruct HA as [(Hwn & Hex & Hcount)|(Hwn & Hmiss' & Hcount)]; [done|].
      by destruct Hname. }
  destruct amplitude as [[e|amp]|]; [done| |].
  - unfold wave_side in H. cbv zeta in H.
    set (h := WaveManager.calc_hash py_hash float_bytes amp) in *.
    set (sA := persist (cache_wave h s).1 (FloatText amp) false (cache_wave h s).2) in *.
    destruct (marker_side py_hash marker_output false sA) as [[e|mk] s2] eqn:Hside; [done|].
    injection H as <- <-.
    eapply (Hmarker mk sA (Some (cache_wave h s).1)); [|done|done].
    assert (wave_dir (cache_wave h s).2 !! name = None) as Hmiss0.
    { by destruct (cache_wave_disk h s) as (-> & _). }
    destruct (writes_to_persist_missing name (cache_wave h s).1 (FloatText amp)
                (cache_wave h s).2 Hmiss0) as [Hyes Hno].
    destruct (decide ((cache_wave h s).1 = name)) as [Heq|Hne].
    + left. split; [by rewrite Heq|]. split.
      * unfold sA. rewrite Heq. apply persist_exists.
      * unfold sA. by rewrite (Hyes Heq), writes_to_cache_wave.
    + right. split; [congruence|]. destruct (Hno Hne) as [Hc Hd].
      split; [done|]. unfold sA. by rewrite Hc, writes_to_cache_wave.
  - unfold wave_side in H.
    destruct (marker_side py_hash marker_output false s) as [[e|mk] s2] eqn:Hside; [done|].
    injection H as <- <-.
    eapply (Hmarker mk s None); [|done|done].
    right. done.
Qed.

(** C4. Registering the same waveform twice without [overwrite]: the second
    call returns the references of the first and leaves the wave manager and
    the disk untouched, and an artifact that was not on disk before the first
    call has been written exactly once. *)
Theorem register_twice waveform channels markers vt rate rng off s r s1 :
  register waveform channels markers vt rate rng off false s = (inr r, s1) →
  register waveform channels markers vt rate rng off false s1 = (inr r, s1) ∧
  ∀ name, r.1 = Some name ∨ r.2 = Some name →
          wave_dir s !! name = None →
          writes_to name s1 = S (writes_to name s).
Proof.
  rewrite !register_eq. intros H. split.
  - exact (outcome_again _ _ _ _ _ H).
  - intros name Hname Hmiss. exact (outcome_writes _ _ _ _ _ _ H Hname Hmiss).
Qed.

(** ** What reaches the disk *)




End WaveManagerFacts.

(** ** The translator *)

Section TranslatorFacts.

Variable get_sample_times : Waveform → Q → Call (list float * nat).
Variable float_bytes : float → list Byte.byte.
Variable py_hash : list Byte.byte → Z.

Abbreviation waveform_to_seqc :=
  (ProgramManager.waveform_to_seqc get_sample_times float_bytes py_hash).
Abbreviation program_to_seqc :=
  (ProgramManager.program_to_seqc get_sample_times float_bytes py_hash).
Abbreviation children_lines := (Spec.children_lines get_sample_times float_bytes py_hash).
Abbreviation seqc_body := (Spec.seqc_body get_sample_times float_bytes py_hash).

Lemma bind_run {A B} (m : M A) (f : A → M B) s :
  (m ≫= f) s =
  match m s with
  | (inl e, s') => (inl e, s')
  | (inr x, s') => f x s'
  end.
Proof. reflexivity. Qed.

Lemma each_child_templated self (template : string → string) cs s :
  (fix each (cs : list Loop) : M (list string) :=
     match cs with
     | [] => mret []
     | c :: cs' =>
         lines ← program_to_seqc self c;
         more ← each cs';
         mret (map template lines ++ more)
     end) cs s =
  match children_lines self cs s with
  | (inl e, s') => (inl e, s')
  | (inr body, s') => (inr (map template body), s')
  end.
Proof.
  revert s. induction cs as [|c cs IH]; intros s; [done|].
  cbn [children_lines]. rewrite !bind_run.
  destruct (program_to_seqc self c s) as [[e|lines] s1]; [done|].
  rewrite !bind_run, IH.
  destruct (children_lines self cs s1) as [[e|more] s2]; [done|].
  unfold mret, M_ret. by rewrite map_app.
Qed.

(** C7. A node is translated to its body wrapped in a repeat block (opening
    line with the count, body indented by one level, closing line) when its
    repetition count exceeds one, and to the bare body otherwise. *)
Theorem program_to_seqc_wrapper self prog s :
  program_to_seqc self prog s =
  match seqc_body self prog s with
  | (inl e, s') => (inl e, s')
  | (inr body, s') =>
      (inr (if 1 <? repetition_count prog
            then repeat_wrapper (repetition_count prog) body
            else body), s')
  end.
Proof.
  destruct prog as [count waveform|count child children];
    cbn [ProgramManager.program_to_seqc seqc_body children_lines repetition_count].
  - rewrite !bind_run.
    destruct (waveform_to_seqc self waveform s) as [[e|command] s1]; [done|].
    unfold mret, M_ret, repeat_wrapper. by destruct (1 <? count).
  - rewrite !bind_run.
    destruct (program_to_seqc self child s) as [[e|first] s1]; [done|].
    rewrite !bind_run, each_child_templated.
    destruct (children_lines self children s1) as [[e|others] s2]; [done|].
    unfold mret, M_ret, repeat_wrapper.
    destruct (1 <? count); simpl.
    + by rewrite map_app, <- app_assoc.
    + by rewrite !map_id, app_nil_r.
Qed.

(** *** Play commands *)

Lemma register_sides waveform channels markers vt rate rng off overwrite s wn mn s' :
  WaveManager.register get_sample_times float_bytes py_hash
    waveform channels markers vt rate rng off overwrite s = (inr (wn, mn), s') →
  is_not_None wn = existsb is_not_None channels ∧
  is_not_None mn = existsb is_not_None markers.
Proof.
  rewrite register_eq.
  unfold register_outcome, wave_side, marker_side, sampled_amplitude, sampled_markers.
  destruct (get_sample_times waveform rate) as [exception|[times n]]; [done|].
  destruct (existsb is_not_None channels).
  - destruct (WaveManager.fill_amplitude _ _ _ _ _ _ _ _) as [e|amp]; [done|].
    cbv zeta. destruct (existsb is_not_None markers).
    + destruct (WaveManager.fill_markers _ _ _ _ _) as [e|mk]; [done|].
      cbv zeta. by intros [= <- <- _].
    + by intros [= <- <- _].
  - destruct (existsb is_not_None markers).
    + destruct (WaveManager.fill_markers _ _ _ _ _) as [e|mk]; [done|].
      cbv zeta. by intros [= <- <- _].
    + by intros [= <- <- _].
Qed.

Lemma register_single_channels_from_slots waveform markers vt rate rng off overwrite rest :
  ∀ idx s names s',
  WaveManager.register_single_channels_from get_sample_times float_bytes py_hash
    idx rest waveform markers vt rate rng off overwrite s = (inr names, s') →
  Forall2 entry_of_slot (active_slots idx rest markers) names ∧
  registers_slots get_sample_times float_bytes py_hash waveform vt rate rng off overwrite
    (active_slots idx rest markers) s names s'.
Proof.
  induction rest as [|channel rest IH]; intros idx s names s'; simpl.
  - intros [= <- <-]. split; constructor.
  - rewrite bind_run. unfold lift at 1, getitem at 1.
    destruct (markers !! idx) as [marker|] eqn:Hm; [|done]. simpl.
    destruct channel as [chan|], marker as [mname|]; simpl.
    all: try (rewrite !bind_run; unfold lift at 1, getitem at 1; rewrite Hm;
      rewrite bind_run; unfold lift at 1; unfold getitem at 1;
      destruct (vt !! idx) as [f|] eqn:Hf; [|done];
      rewrite bind_run;
      match goal with |- context [WaveManager.register _ _ _ ?w ?c ?m ?v ?r ?g ?o ?ow ?st] =>
        destruct (WaveManager.register get_sample_times float_bytes py_hash
                    w c m v r g o ow st) as [[e|[wn mn]] s1] eqn:Hreg; [done|]
      end;
      rewrite bind_run;
      match goal with |- context [WaveManager.register_single_channels_from _ _ _ ?i ?l ?w ?m ?v ?r ?g ?o ?ow ?st] =>
        destruct (WaveManager.register_single_channels_from get_sample_times float_bytes
                    py_hash i l w m v r g o ow st) as [[e|more] s2] eqn:Hrest; [done|]
      end;
      intros [= <- <-];
      destruct (IH _ _ _ _ Hrest) as [Hslots Hregs];
      split;
      [ apply register_sides in Hreg as [Hw Hk]; simpl in Hw, Hk;
        constructor; [by rewrite ?orb_false_r in *|done]
      | econstructor; [exact Hf|exact Hreg|exact Hregs] ]).
    apply IH.
Qed.

Lemma playwave_operands_map names slots :
  Forall2 entry_of_slot slots names →
  Forall (λ slot, is_not_None slot.1.2 || is_not_None slot.2 = true) slots →
  ProgramManager.playwave_operands names = map operand names.
Proof.
  induction 1 as [|[[idx channel] marker] [[[wn mn] ci] cname] slots names Hentry _ IH];
    intros Hall; [done|].
  apply Forall_cons in Hall as [Hslot Hall]. simpl in Hslot.
  destruct Hentry as (_ & _ & Hw & Hk).
  cbn [ProgramManager.playwave_operands map]. rewrite (IH Hall).
  destruct wn as [wf|], mn as [mk|]; simpl; try done.
  simpl in Hw, Hk. rewrite <- Hw, <- Hk in Hslot. done.
Qed.

Lemma active_slots_active idx channels markers :
  Forall (λ slot, is_not_None slot.1.2 || is_not_None slot.2 = true)
         (active_slots idx channels markers).
Proof.
  revert idx. induction channels as [|channel rest IH]; intros idx; simpl; [done|].
  destruct (is_not_None channel || is_not_None (default None (markers !! idx))) eqn:E;
    [|apply IH].
  constructor; [done|apply IH].
Qed.

(** C8. A leaf is translated to one play command. Its operands are built
    from the references that [register_single_channels] returned: one entry
    per hardware slot that has a channel or a marker, in slot order, each
    holding what [register] returned for that slot alone. An entry with a
    wave and a marker reference gives [add(wave, marker)], an entry with one
    reference gives that reference, a slot with neither has no entry, and
    without any operand the command is the empty string. *)
Theorem waveform_to_seqc_play self waveform s text s' :
  waveform_to_seqc self waveform s = (inr text, s') →
  ∃ names,
    WaveManager.register_single_channels get_sample_times float_bytes py_hash
      waveform (_channels self) (_markers self) (_voltage_transformation self)
      (_sample_rate self) (_output_range self) (_output_offset self) (_overwrite self) s
      = (inr names, s') ∧
    registers_slots get_sample_times float_bytes py_hash waveform
      (_voltage_transformation self) (_sample_rate self) (_output_range self)
      (_output_offset self) (_overwrite self)
      (active_slots 0 (_channels self) (_markers self)) s names s' ∧
    Forall2 entry_of_slot (active_slots 0 (_channels self) (_markers self)) names ∧
    ProgramManager.playwave_operands names = map operand names ∧
    text = match names with
           | [] => EmptyString
           | _ => "playWave(" +:+ str_join ", " (map operand names) +:+ ");"
           end.
Proof.
  unfold ProgramManager.waveform_to_seqc. rewrite bind_run.
  destruct (WaveManager.register_single_channels _ _ _ _ _ _ _ _ _ _ _ s)
    as [[e|names] s1] eqn:Hreg; [done|].
  intros [= <- <-]. exists names. split; [done|].
  unfold WaveManager.register_single_channels in Hreg.
  apply register_single_channels_from_slots in Hreg as [Hslots Hregs].
  pose proof (playwave_operands_map names _ Hslots (active_slots_active _ _ _)) as Hops.
  split; [done|]. split; [done|]. split; [done|].
  rewrite Hops. unfold ProgramManager.playwave_command. by destruct names.
Qed.

End TranslatorFacts.

(** ** Text *)

Lemma append_cons x (a b : string) : String x a +:+ b = String x (a +:+ b).
Proof. reflexivity. Qed.

Lemma append_nil_l (b : string) : EmptyString +:+ b = b.
Proof. reflexivity. Qed.

Lemma append_assoc (a b c : string) : (a +:+ b) +:+ c = a +:+ b +:+ c.
Proof.
  induction a as [|x a IH]; [done|].
  rewrite !append_cons. f_equal. exact IH.
Qed.

Lemma append_nil_r (a : string) : a +:+ EmptyString = a.
Proof.
  induction a as [|x a IH]; [done|].
  rewrite append_cons. f_equal. exact IH.
Qed.

Lemma str_all_append P a b : str_all P (a +:+ b) = str_all P a && str_all P b.
Proof.
  induction a as [|x a IH]; [done|].
  rewrite append_cons. cbn [str_all].
  rewrite <- andb_assoc. f_equal. exact IH.
Qed.






Lemma pretty_N_go_all (P : ascii → bool) x s :
  (∀ d, P (pretty_N_char d) = true) → str_all P s = true →
  str_all P (pretty_N_go x s) = true.
Proof.
  intros Hdigit. revert s.
  induction (N.lt_wf_0 x) as [x _ IH]; intros s Hs.
  destruct (decide (x = 0)%N) as [->|Hx]; [by rewrite pretty_N_go_0|].
  rewrite pretty_N_go_step by lia. apply IH.
  - apply N.div_lt; lia.
  - cbn [str_all]. by rewrite Hdigit, Hs.
Qed.

Lemma pretty_Z_all (P : ascii → bool) (z : Z) :
  (∀ d, P (pretty_N_char d) = true) → P "-"%char = true →
  str_all P (pretty z) = true.
Proof.
  intros Hdigit Hdash.
  assert (∀ p : positive, str_all P (pretty p) = true) as Hpos.
  { intros p. unfold pretty, pretty_positive, pretty, pretty_N.
    destruct (decide (N.pos p = 0)%N); [done|]. by apply pretty_N_go_all. }
  destruct z as [|p|p]; unfold pretty, pretty_Z.
  - pose proof (Hdigit 0%N) as H0. cbn [str_all]. by rewrite andb_true_r.
  - apply Hpos.
  - rewrite append_cons, append_nil_l. cbn [str_all]. by rewrite Hdash, Hpos.
Qed.

Lemma pretty_Z_no_linebreak (z : Z) : no_linebreak (pretty z) = true.
Proof.
  apply pretty_Z_all; [|done].
  intros d. unfold pretty_N_char. by repeat case_match.
Qed.

Lemma splitlines_glue (a b : string) :
  no_linebreak a = true → splitlines (a +:+ b) = glue a (splitlines b).
Proof.
  induction a as [|x a IH]; intros Ha.
  - rewrite append_nil_l. by destruct (splitlines b).
  - unfold no_linebreak in Ha. cbn [str_all] in Ha.
    apply andb_true_iff in Ha as [Hx Ha]. apply negb_true_iff in Hx.
    rewrite append_cons. cbn [splitlines]. rewrite Hx, (IH Ha).
    destruct (splitlines b) as [|line lines]; [by destruct a|done].
Qed.

Lemma has_text_append (a b : string) : has_text a = true → has_text (a +:+ b) = true.
Proof.
  induction a as [|x a IH]; [done|].
  rewrite append_cons. cbn [has_text]. intros H.
  apply orb_true_iff in H as [H|H]; [by rewrite H|].
  rewrite (IH H). by destruct (negb _).
Qed.

Lemma textwrap_indent_first_line (a b prefix : string) :
  no_linebreak a = true → has_text a = true →
  ∃ rest, textwrap_indent (a +:+ b) prefix = prefix +:+ a +:+ rest.
Proof.
  intros Hbreak Htext. unfold textwrap_indent. rewrite splitlines_glue by done.
  destruct (splitlines b) as [|line lines]; cbn [glue].
  - destruct a as [|x a]; [done|]. cbn [map]. rewrite Htext.
    exists EmptyString. unfold str_join. cbn [String.concat].
    by rewrite append_nil_r.
  - cbn [map]. rewrite has_text_append by done. unfold str_join.
    destruct lines as [|l2 lines]; cbn [map String.concat].
    + exists line. by rewrite ?append_assoc.
    + eexists. rewrite ?append_assoc. reflexivity.
Qed.

(** Each dispatch arm opens with its case label: the index of the program. *)
Lemma case_wrap_program_label (prog : ProgramEntry) (prog_name : string) :
  ∃ rest,
    ProgramManager.case_wrap_program prog prog_name 8 =
    "        case " +:+ pretty (index prog) +:+ ": // Program name: " +:+ rest.
Proof.
  unfold ProgramManager.case_wrap_program.
  set (body := textwrap_indent _ (str_repeat " " 4)).
  destruct (textwrap_indent_first_line
              ("case " +:+ pretty (index prog) +:+ ": // Program name: ")
              (prog_name +:+ nl +:+ body) (str_repeat " " 8)) as [rest Hrest].
  - unfold no_linebreak. rewrite !str_all_append.
    fold (no_linebreak (pretty (index prog))). by rewrite pretty_Z_no_linebreak.
  - done.
  - exists rest. rewrite !append_assoc in Hrest. rewrite Hrest. reflexivity.
Qed.

(** ** The registry and the assembled document *)


(** *** Program indices *)

Section RegistryFacts.

Variable get_sample_times : Waveform → Q → Call (list float * nat).
Variable float_bytes : float → list Byte.byte.
Variable py_hash : list Byte.byte → Z.

Abbreviation apply_op := (Spec.apply_op get_sample_times float_bytes py_hash).
Abbreviation run := (Spec.run get_sample_times float_bytes py_hash).
Abbreviation succeeds := (Spec.succeeds get_sample_times float_bytes py_hash).
Abbreviation fresh_names := (Spec.fresh_names get_sample_times float_bytes py_hash).

Lemma od_setitem_fresh {V} name (v : V) d :
  od_get name d = None → od_setitem name v d = d ++ [(name, v)].
Proof.
  induction d as [|[k w] d IH]; simpl; [done|].
  destruct (String.eqb k name); [done|]. intros H. by rewrite IH.
Qed.

Lemma od_setitem_Forall {V} (P : string * V → Prop) name (v : V) d :
  (∀ k, P (k, v)) → Forall P d → Forall P (od_setitem name v d).
Proof.
  intros Hv. induction 1 as [|[k w] d Hk Hd IH]; simpl.
  - by constructor.
  - destruct (String.eqb k name); constructor; auto.
Qed.

Lemma od_get_None {V} name (d : list (string * V)) :
  od_get name d = None ↔ name ∉ map fst d.
Proof.
  induction d as [|[k w] d IH]; simpl.
  - split; [|done]. intros _ H. inversion H.
  - destruct (String.eqb k name) eqn:E.
    + apply String.eqb_eq in E as ->. split; [done|].
      intros H. destruct H. apply list_elem_of_here.
    + apply String.eqb_neq in E. rewrite IH. split.
      * intros H Hin. apply elem_of_cons in Hin as [->|Hin]; done.
      * intros H Hin. apply H. by apply list_elem_of_further.
Qed.

(** What a call of [register] does to the registry. *)
Lemma register_known r st :
  (∃ text,
     (apply_op (OpRegister r) st).1 = inr tt ∧
     known (apply_op (OpRegister r) st).2 =
       od_setitem (reg_name r)
         (MkProgramEntry (reg_program r) (ProgramManager.generate_program_index st.1) text)
         (known st)) ∨
  (∃ e, (apply_op (OpRegister r) st).1 = inl e ∧
        known (apply_op (OpRegister r) st).2 = known st).
Proof.
  unfold apply_op, ProgramManager.register, known. cbv zeta.
  destruct (ProgramManager.program_to_seqc _ _ _ _ _ _) as [[e|lines] wm'].
  - right. by exists e.
  - left. by eexists.
Qed.

Lemma remove_known name st :
  known (apply_op (OpRemove name) st).2 = known st ∨
  known (apply_op (OpRemove name) st).2 = od_delete name (known st).
Proof.
  unfold apply_op, ProgramManager.remove, known.
  destruct (od_get name (_known_programs st.1)); simpl; auto.
Qed.

Lemma run_snoc ops op st : run (ops ++ [op]) st = (apply_op op (run ops st)).2.
Proof. unfold run. by rewrite fold_left_app. Qed.

Lemma succeeds_snoc ops op st :
  succeeds (ops ++ [op]) st ↔ succeeds ops st ∧ (apply_op op (run ops st)).1 = inr tt.
Proof.
  revert st. induction ops as [|o ops IH]; intros st; simpl.
  - tauto.
  - rewrite IH. unfold run. simpl. tauto.
Qed.

Lemma fresh_names_snoc ops op st :
  fresh_names (ops ++ [op]) st ↔
  fresh_names ops st ∧
  match op with
  | OpRegister r => od_get (reg_name r) (known (run ops st)) = None
  | _ => True
  end.
Proof.
  revert st. induction ops as [|o ops IH]; intros st; simpl.
  - unfold known. tauto.
  - rewrite IH. unfold run. simpl. tauto.
Qed.

Lemma generate_program_index_last self :
  ProgramManager.generate_program_index self =
  match last (indices (_known_programs self)) with
  | Some i => i + 1
  | None => 1
  end.
Proof.
  unfold ProgramManager.generate_program_index, indices.
  rewrite fmap_last. by destruct (last (_known_programs self)) as [[name entry]|].
Qed.

Lemma positive_step op st :
  Forall (λ kv, 1 ≤ index kv.2) (known st) →
  Forall (λ kv, 1 ≤ index kv.2) (known (apply_op op st).2).
Proof.
  intros Hpos. destruct op as [r|name|].
  - destruct (register_known r st) as [(text & _ & ->)|(e & _ & ->)]; [|done].
    apply od_setitem_Forall; [|done]. intros k. simpl.
    rewrite generate_program_index_last.
    destruct (last (indices (_known_programs st.1))) as [i|] eqn:Hlast; [|lia].
    apply last_Some in Hlast as [l' Hl'].
    assert (Forall (λ i, 1 ≤ i) (indices (known st))) as Hall.
    { unfold indices. by apply Forall_fmap. }
    unfold known in Hall. rewrite Hl' in Hall.
    apply Forall_app in Hall as [_ Hi]. apply Forall_inv in Hi. lia.
  - destruct (remove_known name st) as [->| ->]; [done|].
    unfold od_delete. apply Forall_forall. intros kv Hin.
    apply list_elem_of_filter in Hin as [_ Hin].
    by eapply Forall_forall in Hpos.
  - constructor.
Qed.

(** C9. From a new registry, any sequence of calls leaves every registered
    program with an index of at least one, so zero is never assigned; and
    [N] successful registrations of distinct names, with no other call in
    between, hold the indices [1, ..., N] in the order of registration. *)
Theorem indices_count_from_one (number_of_channels : nat) (wm : HDAWGWaveManager) :
  (∀ ops, Forall (λ i, 1 ≤ i)
            (indices (known (run ops (ProgramManager.init number_of_channels, wm))))) ∧
  (∀ regs,
     NoDup (map reg_name regs) →
     succeeds (map OpRegister regs) (ProgramManager.init number_of_channels, wm) →
     let st := run (map OpRegister regs) (ProgramManager.init number_of_channels, wm) in
     map fst (known st) = map reg_name regs ∧
     indices (known st) = map Z.of_nat (seq 1 (length regs))).
Proof.
  split.
  - intros ops. unfold indices. apply Forall_fmap.
    induction ops as [|op ops IH] using rev_ind; [constructor|].
    rewrite run_snoc. by apply positive_step.
  - induction regs as [|r regs IH] using rev_ind; [done|].
    cbv zeta in *. rewrite !map_app. simpl map. intros Hnodup Hok.
    apply NoDup_app in Hnodup as (Hnodup & Hfresh & _).
    apply succeeds_snoc in Hok as [Hok Hlast].
    destruct (IH Hnodup Hok) as [Hnames Hidx]. clear IH.
    rewrite run_snoc.
    set (st := run (map OpRegister regs) (ProgramManager.init number_of_channels, wm)) in *.
    destruct (register_known r st) as [(text & _ & Hk)|(e & He & _)]; [|congruence].
    rewrite Hk, od_setitem_fresh.
    + rewrite map_app, Hnames. split; [done|].
      unfold indices in *. rewrite fmap_app, Hidx. simpl.
      rewrite generate_program_index_last. fold (known st). unfold indices. rewrite Hidx.
      rewrite length_app. simpl. rewrite Nat.add_1_r, seq_S, map_app. f_equal. simpl.
      f_equal. destruct regs as [|r0 regs] using rev_ind; [done|].
      rewrite length_app. simpl. rewrite Nat.add_1_r, seq_S, map_app. simpl.
      rewrite last_snoc. lia.
    + apply od_get_None. rewrite Hnames. intros Hin.
      apply (Hfresh (reg_name r)); [done|]. apply list_elem_of_here.
Qed.

Lemma increasing_filter (P : string * ProgramEntry → Prop) `{∀ x, Decision (P x)} d :
  increasing d → increasing (filter P d).
Proof.
  unfold increasing. induction 1 as [|kv d Hd IH Hall]; [constructor|].
  rewrite filter_cons. destruct (decide (P kv)); [|done].
  constructor; [done|]. apply Forall_forall. intros x Hx.
  apply list_elem_of_filter in Hx as [_ Hx]. by eapply Forall_forall in Hall.
Qed.

Lemma increasing_snoc d name entry :
  increasing d →
  index entry = match last (indices d) with Some i => i + 1 | None => 1 end →
  increasing (d ++ [(name, entry)]).
Proof.
  intros Hd Hidx. unfold increasing. apply StronglySorted_app_2; [|done|].
  - intros x1 x2 Hx1 Hx2. apply list_elem_of_singleton in Hx2 as ->. simpl.
    destruct (last d) as [kv|] eqn:Hlast.
    + unfold indices in Hidx. rewrite fmap_last, Hlast in Hidx. simpl in Hidx.
      apply last_Some in Hlast as [d' ->].
      apply elem_of_app in Hx1 as [Hx1|Hx1].
      * pose proof (StronglySorted_app_1_elem_of _ _ _ x1 kv Hd Hx1) as Hlt.
        simpl in Hlt. specialize (Hlt ltac:(apply list_elem_of_here)). lia.
      * apply list_elem_of_singleton in Hx1 as ->. lia.
    + apply last_None in Hlast as ->. inversion Hx1.
  - repeat constructor.
Qed.

(** C2, as the code has it. When every registration uses a name that is not
    registered at that moment, the indices of the registered programs grow
    strictly along the insertion order after any sequence of calls, and each
    new index is one more than the index of the newest registered program
    (one for an empty registry). *)
Theorem live_indices_increasing (number_of_channels : nat) (wm : HDAWGWaveManager) ops :
  fresh_names ops (ProgramManager.init number_of_channels, wm) →
  increasing (known (run ops (ProgramManager.init number_of_channels, wm))) ∧
  ∀ r, let st := run ops (ProgramManager.init number_of_channels, wm) in
       (apply_op (OpRegister r) st).1 = inr tt →
       ProgramManager.name_to_index (reg_name r) (apply_op (OpRegister r) st).2.1 =
       inr (match last (indices (known st)) with Some i => i + 1 | None => 1 end).
Proof.
  intros Hfresh. split.
  - induction ops as [|op ops IH] using rev_ind; [constructor|].
    apply fresh_names_snoc in Hfresh as [Hfresh Hop]. specialize (IH Hfresh).
    rewrite run_snoc.
    set (st := run ops (ProgramManager.init number_of_channels, wm)) in *.
    destruct op as [r|name|].
    + destruct (register_known r st) as [(text & _ & ->)|(e & _ & ->)]; [|done].
      rewrite od_setitem_fresh by done.
      apply increasing_snoc; [done|]. simpl. apply generate_program_index_last.
    + destruct (remove_known name st) as [->| ->]; [done|].
      by apply increasing_filter.
    + constructor.
  - intros r st Hok. unfold ProgramManager.name_to_index.
    destruct (register_known r st) as [(text & _ & Hk)|(e & He & _)]; [|congruence].
    unfold known in Hk. rewrite Hk.
    assert (∀ (d : list (string * ProgramEntry)) name v,
              od_get name (od_setitem name v d) = Some v) as Hget.
    { intros d name v. induction d as [|[k w] d IHd]; simpl.
      - by rewrite String.eqb_refl.
      - destruct (String.eqb k name) eqn:E; simpl; by rewrite E. }
    rewrite Hget. simpl. by rewrite generate_program_index_last.
Qed.

End RegistryFacts.

(** ** Artifact names *)

(** C10. The artifact names are built from the absolute value of the hash:
    a hash and its negation give the same wave name and the same marker
    name, so two cache entries whose keys differ only in sign share one
    file name. *)
Theorem generate_names_ignore_sign (awg_prefix : string) (h : Z) :
  WaveManager.generate_wave_name awg_prefix h = WaveManager.generate_wave_name awg_prefix (- h) ∧
  WaveManager.generate_marker_name awg_prefix h
    = WaveManager.generate_marker_name awg_prefix (- h) ∧
  ∀ s, h ≠ 0 → _wave_by_data s !! h = None → _wave_by_data s !! (- h) = None →
       let s' := (cache_wave (- h) (cache_wave h s).2).2 in
       h ≠ - h ∧
       _wave_by_data s' !! h = Some (WaveManager.generate_wave_name (_awg_prefix s) h) ∧
       _wave_by_data s' !! (- h) = Some (WaveManager.generate_wave_name (_awg_prefix s) h).
Proof.
  unfold WaveManager.generate_wave_name, WaveManager.generate_marker_name.
  rewrite Z.abs_opp. split; [done|]. split; [done|].
  intros s Hh Hmiss Hmiss'. assert (h ≠ - h) as Hne by lia.
  unfold cache_wave. rewrite Hmiss. simpl.
  rewrite lookup_insert_ne, Hmiss' by done. simpl.
  unfold WaveManager.generate_wave_name. rewrite Z.abs_opp.
  split; [done|]. split.
  - rewrite lookup_insert_ne by lia. apply lookup_insert_eq.
  - apply lookup_insert_eq.
Qed.

(** C1 on the per-channel path. The second slot has range 1 V and a sample of
    1 V, so its normalised value should be 1; the file written for it holds
    1/2, the sample divided by the range of the first slot. *)
Theorem per_channel_path_uses_first_range :
  Run.two_ranges.1 =
    inr [(Some "awg_6759", None, 1, Some "A"); (Some "awg_6760", None, 2, Some "B")]%string ∧
  wave_dir Run.two_ranges.2 !! "awg_6760"%string =
    Some (FloatText (NDArray (1%nat, 1%nat) [[((1 - 0) / 2)%float]])) ∧
  ((1 - 0) / 2)%float ≠ ((1 - 0) / 1)%float.
Proof.
  split; [by vm_compute|]. split; [by vm_compute|].
  intros H. apply (f_equal Prim2SF) in H. vm_compute in H. discriminate.
Qed.

(** On the per-channel path every slot is registered as a one-slot call that
    still receives the whole range and offset tuples, so slot zero of both is
    what the inner call reads. *)
Lemma single_slot_reads_slot_zero
    get_sample_times waveform chan f rate rng off r0 o0 times n voltage :
  get_sample_times waveform rate = inr (times, n) →
  slot_voltage waveform times [f] 0 chan = Some voltage →
  rng !! 0%nat = Some r0 → off !! 0%nat = Some o0 →
  sampled_amplitude get_sample_times waveform [Some chan] [f] rate rng off =
  Some (amp ← WaveManager.volt_to_amp voltage r0 o0;
        set_column (np_zeros 0%float n 1) 0 amp).
Proof.
  intros Htimes Hv Hr Ho. unfold sampled_amplitude. rewrite Htimes.
  cbn [existsb is_not_None orb length].
  rewrite (fill_amplitude_step _ _ _ _ _ _ _ _ _ _ _ _ Hv Hr Ho).
  destruct (WaveManager.volt_to_amp _ r0 o0) as [e|amp]; simpl; [done|].
  by destruct (set_column _ 0 amp).
Qed.


(** C2 as stated fails: after the newest program is removed, the next
    registration receives the index the removed program had. *)
Lemma removed_index_is_assigned_again :
  let st := Run.run [OpRegister (Run.leaf_on_A "a"); OpRegister (Run.leaf_on_A "b")]
                    Run.start in
  let st' := Run.run [OpRemove "b"; OpRegister (Run.leaf_on_A "c")] st in
  ProgramManager.name_to_index "b" st.1 = inr 2 ∧
  ProgramManager.programs st'.1 = ["a"; "c"]%string ∧
  ProgramManager.name_to_index "c" st'.1 = inr 2.
Proof. by vm_compute. Qed.

(** ** The theorems at concrete inputs *)


(** A wave on A and a marker on B, registered twice on an empty disk. *)
Lemma register_twice_witness :
  Run.register Example.wf [Some "A"]%string [Some "B"]%string [Example.identity] 1
    [2%float] [0%float] false Run.wave_and_marker.2
    = (inr (Some "awg_6759", Some "awg_M_218")%string, Run.wave_and_marker.2) ∧
  ∀ name, (Some "awg_6759", Some "awg_M_218")%string.1 = Some name ∨
          (Some "awg_6759", Some "awg_M_218")%string.2 = Some name →
          wave_dir (Example.fresh "awg") !! name = None →
          writes_to name Run.wave_and_marker.2 = S (writes_to name (Example.fresh "awg")).
Proof.
  apply (register_twice Example.sample_times Example.float_bytes Example.hash
           Example.wf [Some "A"]%string [Some "B"]%string [Example.identity] 1
           [2%float] [0%float] (Example.fresh "awg")).
  by vm_compute.
Defined.


(** Two registrations of distinct names on a new registry. *)
Lemma indices_count_from_one_witness :
  map fst (known (Run.run (map OpRegister [Run.leaf_on_A "a"; Run.leaf_on_A "b"]) Run.start))
    = map reg_name [Run.leaf_on_A "a"; Run.leaf_on_A "b"] ∧
  indices (known (Run.run (map OpRegister [Run.leaf_on_A "a"; Run.leaf_on_A "b"]) Run.start))
    = map Z.of_nat (seq 1 (length [Run.leaf_on_A "a"; Run.leaf_on_A "b"])).
Proof.
  apply (proj2 (indices_count_from_one Example.sample_times Example.float_bytes Example.hash
                  2 (Example.fresh "awg"))
           [Run.leaf_on_A "a"; Run.leaf_on_A "b"]).
  - apply (bool_decide_unpack _). by vm_compute.
  - simpl. split; [by vm_compute|]. split; [by vm_compute|]. exact I.
Defined.

(** Register a and b, remove b, register c: every name is new when it is
    registered. *)
Lemma live_indices_increasing_witness :
  increasing (known (Run.run [OpRegister (Run.leaf_on_A "a"); OpRegister (Run.leaf_on_A "b");
                              OpRemove "b"; OpRegister (Run.leaf_on_A "c")] Run.start)) ∧
  ∀ r, let st := Run.run [OpRegister (Run.leaf_on_A "a"); OpRegister (Run.leaf_on_A "b");
                          OpRemove "b"; OpRegister (Run.leaf_on_A "c")] Run.start in
       (Run.apply_op (OpRegister r) st).1 = inr tt →
       ProgramManager.name_to_index (reg_name r) (Run.apply_op (OpRegister r) st).2.1 =
       inr (match last (indices (known st)) with Some i => i + 1 | None => 1 end).
Proof.
  apply (live_indices_increasing Example.sample_times Example.float_bytes Example.hash
           2 (Example.fresh "awg")).
  simpl. repeat split; by vm_compute.
Defined.


(** A leaf with a wave on slot one and a wave with a marker on slot two. *)
Lemma waveform_to_seqc_play_witness :
  let self := MkProgramManager [] 2 [Some "A"; Some "B"]%string [None; Some "B"]%string
                [Example.identity; Example.identity] 1 false
                [2%float; 2%float] [0%float; 0%float] in
  let s' := (ProgramManager.waveform_to_seqc Example.sample_times Example.float_bytes
               Example.hash self Example.wf (Example.fresh "awg")).2 in
  ∃ names,
    WaveManager.register_single_channels Example.sample_times Example.float_bytes Example.hash
      Example.wf (_channels self) (_markers self) (_voltage_transformation self)
      (_sample_rate self) (_output_range self) (_output_offset self) (_overwrite self)
      (Example.fresh "awg") = (inr names, s') ∧
    registers_slots Example.sample_times Example.float_bytes Example.hash Example.wf
      (_voltage_transformation self) (_sample_rate self) (_output_range self)
      (_output_offset self) (_overwrite self)
      (active_slots 0 (_channels self) (_markers self)) (Example.fresh "awg") names s' ∧
    Forall2 entry_of_slot (active_slots 0 (_channels self) (_markers self)) names ∧
    ProgramManager.playwave_operands names = map operand names ∧
    "playWave(1," +:+ dq +:+ "awg_6759" +:+ dq +:+ ", 2,add(" +:+ dq +:+ "awg_6760" +:+ dq
      +:+ ", " +:+ dq +:+ "awg_M_218" +:+ dq +:+ "));" =
    match names with
    | [] => EmptyString
    | _ => "playWave(" +:+ str_join ", " (map operand names) +:+ ");"
    end.
Proof.
  intros self s'.
  apply (waveform_to_seqc_play Example.sample_times Example.float_bytes Example.hash
           self Example.wf (Example.fresh "awg")).
  by vm_compute.
Defined.

(** The hashes 5 and -5 on an empty cache. *)
Lemma generate_names_ignore_sign_witness :
  let s' := (cache_wave (- 5) (cache_wave 5 (Example.fresh "awg")).2).2 in
  5 ≠ - 5 ∧
  _wave_by_data s' !! 5 = Some (WaveManager.generate_wave_name "awg" 5) ∧
  _wave_by_data s' !! (- 5) = Some (WaveManager.generate_wave_name "awg" 5).
Proof.
  apply (proj2 (proj2 (generate_names_ignore_sign "awg" 5)) (Example.fresh "awg"));
    by vm_compute.
Defined.

(** * Further properties of the code *)

(** ** Normalisation *)



(** ** Artifact names, continued *)

Lemma generate_wave_name_eq awg_prefix h :
  WaveManager.generate_wave_name awg_prefix h = awg_prefix +:+ "_" +:+ pretty (Z.abs h).
Proof. reflexivity. Qed.

Lemma generate_marker_name_eq awg_prefix h :
  WaveManager.generate_marker_name awg_prefix h =
  awg_prefix +:+ "_" +:+ "M_" +:+ pretty (Z.abs h).
Proof. reflexivity. Qed.

Lemma pretty_Z_not_M (z : Z) (rest : string) : pretty z ≠ "M_" +:+ rest.
Proof.
  intros H.
  assert (str_all (λ c, negb (Ascii.eqb c "M")) (pretty z) = true) as Hall.
  { apply pretty_Z_all; [|done]. intros d. unfold pretty_N_char. by repeat case_match. }
  rewrite H in Hall. done.
Qed.

Lemma wave_name_not_marker_name awg_prefix h h' :
  WaveManager.generate_wave_name awg_prefix h ≠ WaveManager.generate_marker_name awg_prefix h'.
Proof.
  rewrite generate_wave_name_eq, generate_marker_name_eq.
  intros H. apply String.app_inj in H. apply (String.app_inj "_") in H.
  by apply pretty_Z_not_M in H.
Qed.

(** X3. Wave names and marker names never coincide, and two hashes share a name
    of one kind exactly when they are equal up to sign. *)
Theorem artifact_names_separate (awg_prefix : string) (h h' : Z) :
  WaveManager.generate_wave_name awg_prefix h ≠ WaveManager.generate_marker_name awg_prefix h' ∧
  (WaveManager.generate_wave_name awg_prefix h = WaveManager.generate_wave_name awg_prefix h'
   ↔ Z.abs h = Z.abs h') ∧
  (WaveManager.generate_marker_name awg_prefix h = WaveManager.generate_marker_name awg_prefix h'
   ↔ Z.abs h = Z.abs h').
Proof.
  split; [apply wave_name_not_marker_name|].
  rewrite !generate_wave_name_eq, !generate_marker_name_eq. split.
  - split; [|by intros ->].
    intros H. apply String.app_inj in H. apply (String.app_inj "_") in H.
    by apply (inj pretty) in H.
  - split; [|by intros ->].
    intros H. apply String.app_inj in H. apply (String.app_inj "_") in H.
    apply (String.app_inj "M_") in H. by apply (inj pretty) in H.
Qed.

(** ** The registry as a dictionary *)

Lemma od_get_setitem_eq {V} name (v : V) d : od_get name (od_setitem name v d) = Some v.
Proof.
  induction d as [|[k w] d IH]; simpl.
  - by rewrite String.eqb_refl.
  - destruct (String.eqb k name) eqn:E; simpl; by rewrite E.
Qed.

Lemma od_get_setitem_ne {V} name other (v : V) d :
  other ≠ name → od_get other (od_setitem name v d) = od_get other d.
Proof.
  intros Hne. induction d as [|[k w] d IH]; simpl.
  - apply String.eqb_neq in Hne. by rewrite String.eqb_sym, Hne.
  - destruct (String.eqb k name) eqn:E; simpl.
    + apply String.eqb_eq in E as ->.
      apply String.eqb_neq in Hne. by rewrite String.eqb_sym, Hne.
    + by rewrite IH.
Qed.

Lemma od_get_delete_eq {V} name (d : list (string * V)) : od_get name (od_delete name d) = None.
Proof.
  unfold od_delete. induction d as [|[k w] d IH]; [done|].
  rewrite filter_cons. simpl. destruct (String.eqb k name) eqn:E; simpl.
  - exact IH.
  - by rewrite E.
Qed.

Lemma od_get_delete_ne {V} name other (d : list (string * V)) :
  other ≠ name → od_get other (od_delete name d) = od_get other d.
Proof.
  intros Hne. unfold od_delete. induction d as [|[k w] d IH]; [done|].
  rewrite filter_cons. simpl. destruct (String.eqb k name) eqn:E; simpl.
  - apply String.eqb_eq in E as ->.
    apply String.eqb_neq in Hne. by rewrite String.eqb_sym, Hne.
  - by rewrite IH.
Qed.

Lemma od_setitem_names {V} name (v : V) d :
  map fst (od_setitem name v d) =
  if is_not_None (od_get name d) then map fst d else map fst d ++ [name].
Proof.
  induction d as [|[k w] d IH]; simpl; [done|].
  destruct (String.eqb k name) eqn:E; simpl; [done|].
  rewrite IH. by destruct (od_get name d).
Qed.

Lemma od_setitem_last {V} name (v : V) d n_last e_last :
  is_Some (od_get name d) → last d = Some (n_last, e_last) → name ≠ n_last →
  last (od_setitem name v d) = Some (n_last, e_last).
Proof.
  intros Hin Hlast Hne. induction d as [|[k w] d IH]; [done|]. simpl in *.
  destruct (String.eqb k name) eqn:E.
  - apply String.eqb_eq in E as ->. destruct d as [|kv d]; [|done].
    simpl in Hlast. by injection Hlast as -> _.
  - destruct d as [|kv d].
    + by destruct Hin.
    + specialize (IH Hin Hlast). destruct kv as [k' w']. simpl in *.
      destruct (String.eqb k' name); simpl in *; done.
Qed.

(** ** What a registration leaves behind *)

#[local] Instance grows_preorder : PreOrder grows.
Proof.
  split.
  - intros s. unfold grows. done.
  - intros s1 s2 s3 (Hp & Hw & Hm & Hd & Hl) (Hp' & Hw' & Hm' & Hd' & Hl').
    unfold grows. split; [congruence|].
    split; [by etrans|]. split; [by etrans|]. split; [by etrans|by etrans].
Qed.

#[local] Instance keeps_files_preorder : PreOrder keeps_files.
Proof.
  split.
  - intros s. unfold keeps_files. done.
  - intros s1 s2 s3 H1 H2. unfold keeps_files in *. by etrans.
Qed.

Lemma cache_wave_grows h s : grows s (cache_wave h s).2 ∧ keeps_files s (cache_wave h s).2.
Proof.
  unfold cache_wave, grows, keeps_files.
  destruct (_wave_by_data s !! h) eqn:E; simpl; [done|].
  repeat split; try done. by apply insert_subseteq.
Qed.

Lemma cache_marker_grows h s :
  grows s (cache_marker h s).2 ∧ keeps_files s (cache_marker h s).2.
Proof.
  unfold cache_marker, grows, keeps_files.
  destruct (_marker_by_data s !! h) eqn:E; simpl; [done|].
  repeat split; try done. by apply insert_subseteq.
Qed.

Lemma persist_grows name c overwrite s : grows s (persist name c overwrite s).
Proof.
  unfold persist, grows. destruct (_ || _); [|done]. simpl.
  repeat split; try done.
  - rewrite dom_insert_L. set_solver.
  - by apply prefix_app_r.
Qed.

Lemma persist_keeps name c s : keeps_files s (persist name c false s).
Proof.
  unfold keeps_files. destruct (wave_dir s !! name) as [old|] eqn:E.
  - by rewrite persist_present by congruence.
  - rewrite persist_missing by done. simpl. by apply insert_subseteq.
Qed.

Lemma wave_side_grows float_bytes py_hash amplitude overwrite s r s' :
  wave_side float_bytes py_hash amplitude overwrite s = (r, s') →
  grows s s' ∧ (overwrite = false → keeps_files s s').
Proof.
  unfold wave_side. destruct amplitude as [[e|amp]|].
  - intros [= _ <-]. done.
  - cbv zeta. intros [= _ <-].
    destruct (cache_wave_grows (WaveManager.calc_hash py_hash float_bytes amp) s)
      as [Hg Hk].
    split.
    + etrans; [exact Hg|apply persist_grows].
    + intros ->. etrans; [exact Hk|apply persist_keeps].
  - intros [= _ <-]. done.
Qed.

Lemma marker_side_grows py_hash marker_output overwrite s r s' :
  marker_side py_hash marker_output overwrite s = (r, s') →
  grows s s' ∧ (overwrite = false → keeps_files s s').
Proof.
  unfold marker_side. destruct marker_output as [[e|mk]|].
  - intros [= _ <-]. done.
  - cbv zeta. intros [= _ <-].
    destruct (cache_marker_grows (WaveManager.calc_hash py_hash uint8_bytes mk) s)
      as [Hg Hk].
    split.
    + etrans; [exact Hg|apply persist_grows].
    + intros ->. etrans; [exact Hk|apply persist_keeps].
  - intros [= _ <-]. done.
Qed.

Lemma outcome_grows float_bytes py_hash amplitude marker_output overwrite s r s' :
  register_outcome float_bytes py_hash amplitude marker_output overwrite s = (r, s') →
  grows s s' ∧ (overwrite = false → keeps_files s s').
Proof.
  unfold register_outcome.
  destruct (wave_side float_bytes py_hash amplitude overwrite s) as [[e|wn] s1] eqn:Hw;
    apply wave_side_grows in Hw as [Hg1 Hk1].
  - intros [= _ <-]. done.
  - destruct (marker_side py_hash marker_output overwrite s1) as [[e|mn] s2] eqn:Hm;
      apply marker_side_grows in Hm as [Hg2 Hk2]; intros [= _ <-].
    + split; [by etrans|]. intros H. etrans; [by apply Hk1|by apply Hk2].
    + split; [by etrans|]. intros H. etrans; [by apply Hk1|by apply Hk2].
Qed.

Lemma fill_amplitude_error waveform times vt rng off chans :
  ∀ idx amp e,
  WaveManager.fill_amplitude waveform times vt rng off idx chans amp = inl e →
  ¬ is_io_error e.
Proof.
  induction chans as [|c chans IH]; intros idx amp e; simpl; [done|].
  destruct c as [chan|]; [|apply IH].
  unfold getitem.
  destruct (vt !! idx) as [f|]; simpl; [|by intros [= <-] [? ?]].
  destruct (get_sampled waveform chan times) as [x|sampled]; simpl;
    [by intros [= <-] [? ?]|].
  destruct (f sampled) as [x|voltage]; simpl; [by intros [= <-] [? ?]|].
  destruct (rng !! idx) as [r|]; simpl; [|by intros [= <-] [? ?]].
  destruct (off !! idx) as [o|]; simpl; [|by intros [= <-] [? ?]].
  rewrite volt_to_amp_cases. destruct (out_of_range r o _); simpl.
  { by intros [= <-] [? ?]. }
  destruct (set_column amp idx _) as [e'|amp'] eqn:Hset; simpl.
  - intros [= <-] [? ->]. by destruct (set_column_error _ _ _ _ Hset).
  - apply IH.
Qed.

(** ** From one registration to a whole program *)

Lemma Loop_nested_ind (P : Loop → Prop) :
  (∀ count waveform, P (Leaf count waveform)) →
  (∀ count child children, P child → Forall P children → P (Node count child children)) →
  ∀ prog, P prog.
Proof.
  intros Hleaf Hnode. fix IH 1. intros [count waveform|count child children].
  - apply Hleaf.
  - apply Hnode; [apply IH|].
    induction children as [|c cs IHcs]; constructor; [apply IH|exact IHcs].
Qed.

Section Lifting.

Variable get_sample_times : Waveform → Q → Call (list float * nat).
Variable float_bytes : float → list Byte.byte.
Variable py_hash : list Byte.byte → Z.

(** A relation between the states before and after, and a set of admitted
    errors, that every one-slot registration respects. *)
Variable R : relation HDAWGWaveManager.
Context `{!PreOrder R}.
Variable E : HDAWGError → Prop.
Variable self : HDAWGProgramManager.

(** Every slot that [register_single_channels] registers respects them. *)
Hypothesis one_slot : ∀ idx c m f,
  _channels self !! idx = Some c → _markers self !! idx = Some m →
  _voltage_transformation self !! idx = Some f →
  is_not_None c || is_not_None m = true →
  ∀ waveform s r s',
  WaveManager.register get_sample_times float_bytes py_hash waveform [c] [m] [f]
    (_sample_rate self) (_output_range self) (_output_offset self) (_overwrite self) s
    = (r, s') →
  R s s' ∧ ∀ e, r = inl e → E e.

(** Either index errors are admitted, or the marker tuple covers every
    channel slot and the transformation tuple every slot in use. *)
Hypothesis indexable :
  E IndexError ∨
  ((length (_channels self) ≤ length (_markers self))%nat ∧
   ∀ idx c m, _channels self !! idx = Some c → _markers self !! idx = Some m →
              is_not_None c || is_not_None m = true →
              is_Some (_voltage_transformation self !! idx)).

Lemma register_single_channels_from_lifts waveform rest :
  ∀ idx s r s',
  drop idx (_channels self) = rest →
  WaveManager.register_single_channels_from get_sample_times float_bytes py_hash
    idx rest waveform (_markers self) (_voltage_transformation self)
    (_sample_rate self) (_output_range self) (_output_offset self) (_overwrite self) s
    = (r, s') →
  R s s' ∧ ∀ e, r = inl e → E e.
Proof.
  induction rest as [|channel rest IH]; intros idx s r s' Hdrop; simpl.
  - intros [= <- <-]. split; [done|]. by intros e.
  - assert (_channels self !! idx = Some channel) as Hc.
    { rewrite <- (Nat.add_0_r idx), <- lookup_drop, Hdrop. done. }
    assert (drop (S idx) (_channels self) = rest) as Hdrop'.
    { rewrite (drop_S _ _ _ Hc) in Hdrop. by injection Hdrop. }
    rewrite bind_run. unfold lift at 1, getitem at 1.
    destruct (_markers self !! idx) as [marker|] eqn:Hm.
    2:{ intros [= <- <-]. split; [done|]. intros e [= <-].
        destruct indexable as [?|[Hlen _]]; [done|].
        apply lookup_lt_Some in Hc. apply lookup_ge_None in Hm. lia. }
    destruct (negb (is_not_None channel) && negb (is_not_None marker)) eqn:Hskip.
    { by apply IH. }
    assert (is_not_None channel || is_not_None marker = true) as Hactive.
    { by destruct (is_not_None channel), (is_not_None marker). }
    rewrite bind_run. unfold lift at 1, getitem at 1. rewrite Hm.
    rewrite bind_run. unfold lift at 1, getitem at 1.
    destruct (_voltage_transformation self !! idx) as [f|] eqn:Hf.
    2:{ intros [= <- <-]. split; [done|]. intros e [= <-].
        destruct indexable as [?|[_ Hvt]]; [done|].
        destruct (Hvt idx channel marker Hc Hm Hactive) as [f Hf']. congruence. }
    rewrite bind_run.
    destruct (WaveManager.register _ _ _ waveform [channel] [marker] [f] _ _ _ _ s)
      as [[e|[wn mn]] s1] eqn:Hreg;
      apply (one_slot idx channel marker f Hc Hm Hf Hactive) in Hreg as [HR HE].
    { intros [= <- <-]. split; [done|]. intros e' [= <-]. by apply HE. }
    rewrite bind_run.
    destruct (WaveManager.register_single_channels_from _ _ _ (S idx) rest _ _ _ _ _ _ _ s1)
      as [[e|more] s2] eqn:Hrest; apply IH in Hrest as [HR' HE']; try done.
    + intros [= <- <-]. split; [by etrans|]. intros e' [= <-]. by apply HE'.
    + intros [= <- <-]. split; [by etrans|]. by intros e'.
Qed.

Lemma waveform_to_seqc_lifts waveform s r s' :
  ProgramManager.waveform_to_seqc get_sample_times float_bytes py_hash self waveform s
    = (r, s') →
  R s s' ∧ ∀ e, r = inl e → E e.
Proof.
  unfold ProgramManager.waveform_to_seqc, WaveManager.register_single_channels.
  rewrite bind_run.
  destruct (WaveManager.register_single_channels_from _ _ _ _ _ _ _ _ _ _ _ _ s)
    as [[e|names] s1] eqn:Hreg;
    apply register_single_channels_from_lifts in Hreg as [HR HE]; try done.
  - intros [= <- <-]. split; [done|]. intros e' [= <-]. by apply HE.
  - intros [= <- <-]. split; [done|]. by intros e'.
Qed.

Lemma children_lines_lifts children :
  Forall (λ prog, ∀ s r s',
            ProgramManager.program_to_seqc get_sample_times float_bytes py_hash self prog s
              = (r, s') → R s s' ∧ ∀ e, r = inl e → E e) children →
  ∀ s r s',
  Spec.children_lines get_sample_times float_bytes py_hash self children s = (r, s') →
  R s s' ∧ ∀ e, r = inl e → E e.
Proof.
  induction 1 as [|c cs Hc _ IH]; intros s r s'.
  - intros [= <- <-]. split; [done|]. by intros e.
  - cbn [Spec.children_lines]. rewrite bind_run.
    destruct (ProgramManager.program_to_seqc _ _ _ self c s) as [[e|lines] s1] eqn:Hp;
      apply Hc in Hp as [HR HE].
    { intros [= <- <-]. split; [done|]. intros e' [= <-]. by apply HE. }
    rewrite bind_run.
    destruct (Spec.children_lines _ _ _ self cs s1) as [[e|more] s2] eqn:Hcs;
      apply IH in Hcs as [HR' HE'].
    + intros [= <- <-]. split; [by etrans|]. intros e' [= <-]. by apply HE'.
    + intros [= <- <-]. split; [by etrans|]. by intros e'.
Qed.

Lemma program_to_seqc_lifts prog :
  ∀ s r s',
  ProgramManager.program_to_seqc get_sample_times float_bytes py_hash self prog s = (r, s') →
  R s s' ∧ ∀ e, r = inl e → E e.
Proof.
  induction prog as [count waveform|count child children IHchild IHchildren]
    using Loop_nested_ind; intros s r s';
    cbn [ProgramManager.program_to_seqc].
  - rewrite !bind_run.
    destruct (ProgramManager.waveform_to_seqc _ _ _ self waveform s)
      as [[e|command] s1] eqn:Hw; apply waveform_to_seqc_lifts in Hw as [HR HE].
    + intros [= <- <-]. split; [done|]. intros e' [= <-]. by apply HE.
    + intros [= <- <-]. split; [done|]. by intros e'.
  - rewrite !bind_run.
    destruct (ProgramManager.program_to_seqc _ _ _ self child s)
      as [[e|first] s1] eqn:Hc; apply IHchild in Hc as [HR HE].
    { intros [= <- <-]. split; [done|]. intros e' [= <-]. by apply HE. }
    rewrite !bind_run, each_child_templated.
    destruct (Spec.children_lines _ _ _ self children s1) as [[e|others] s2] eqn:Hcs;
      apply (children_lines_lifts _ IHchildren) in Hcs as [HR' HE'].
    + intros [= <- <-]. split; [by etrans|]. intros e' [= <-]. by apply HE'.
    + intros [= <- <-]. split; [by etrans|]. by intros e'.
Qed.

End Lifting.

Section RegistrationFacts.

Variable get_sample_times : Waveform → Q → Call (list float * nat).
Variable float_bytes : float → list Byte.byte.
Variable py_hash : list Byte.byte → Z.

Abbreviation wm_register := (WaveManager.register get_sample_times float_bytes py_hash).
Abbreviation pm_register := (ProgramManager.register get_sample_times float_bytes py_hash).

Lemma register_grows waveform channels markers vt rate rng off overwrite s r s' :
  wm_register waveform channels markers vt rate rng off overwrite s = (r, s') →
  grows s s' ∧ (overwrite = false → keeps_files s s').
Proof. rewrite register_eq. apply outcome_grows. Qed.

Lemma register_error waveform channels markers vt rate rng off overwrite s e s' :
  wm_register waveform channels markers vt rate rng off overwrite s = (inl e, s') →
  ¬ is_io_error e.
Proof.
  rewrite register_eq.
  assert (∀ e0, sampled_markers get_sample_times waveform channels markers rate
                  = Some (inl e0) → ¬ is_io_error e0) as Hmarker.
  { intros e0 Hm [x ->].
    by destruct (markers_of_error _ _ _ _ _ _ Hm) as [?|[?|[? ?]]]. }
  assert (∀ e0, sampled_amplitude get_sample_times waveform channels vt rate rng off
                  = Some (inl e0) → ¬ is_io_error e0) as Hwave.
  { intros e0. unfold sampled_amplitude.
    destruct (get_sample_times waveform rate) as [x|[times n]]; [by intros [= <-] [? ?]|].
    destruct (existsb is_not_None channels); [|done].
    intros [= H]. by eapply fill_amplitude_error. }
  unfold register_outcome, wave_side, marker_side.
  destruct (sampled_amplitude _ _ _ _ _ _ _) as [[e'|amp]|] eqn:Ha.
  - intros [= <- _]. by apply Hwave.
  - cbv zeta.
    destruct (sampled_markers _ _ _ _ _) as [[e'|mk]|] eqn:Hm; [|done|done].
    intros [= <- _]. by apply Hmarker.
  - destruct (sampled_markers _ _ _ _ _) as [[e'|mk]|] eqn:Hm; [|done|done].
    intros [= <- _]. by apply Hmarker.
Qed.

Lemma pm_register_error
    name program channels markers vt rate rng off overwrite self wm e self' wm' :
  pm_register name program channels markers vt rate rng off overwrite self wm
    = (inl e, self', wm') →
  ¬ is_io_error e ∧ _known_programs self' = _known_programs self.
Proof.
  unfold ProgramManager.register. cbv zeta.
  destruct (ProgramManager.program_to_seqc _ _ _ _ program wm) as [[e'|lines] wm1] eqn:Hp;
    [|done].
  intros [= <- <- _]. split; [|done].
  assert (PreOrder (λ _ _ : HDAWGWaveManager, True)) as Hpre by (by split).
  eapply (@program_to_seqc_lifts get_sample_times float_bytes py_hash
            (λ _ _, True) Hpre (λ e, ¬ is_io_error e)) in Hp.
  - by apply Hp.
  - intros idx c m f _ _ _ _ waveform s r s' Hreg. split; [done|]. intros e ->.
    by eapply register_error.
  - left. by intros [? ?].
Qed.

(** X4. No call of [register], on the cache or on the registry, raises the
    [HDAWGIOError] of [to_file]: [register] calls [to_file] only with
    [overwrite] or for a file that is not there, so the guard never fires. *)
Theorem register_never_finds_file_in_the_way :
  (∀ waveform channels markers vt rate rng off overwrite s e s',
     wm_register waveform channels markers vt rate rng off overwrite s = (inl e, s') →
     ¬ is_io_error e) ∧
  (∀ name program channels markers vt rate rng off overwrite self wm e self' wm',
     pm_register name program channels markers vt rate rng off overwrite self wm
       = (inl e, self', wm') →
     ¬ is_io_error e).
Proof.
  split; [intros *; apply register_error|].
  intros name prog channels markers vt rate rng off overwrite self wm e self' wm' H.
  by apply pm_register_error in H as [? _].
Qed.

Lemma pm_register_grows
    name program channels markers vt rate rng off overwrite self wm r self' wm' :
  pm_register name program channels markers vt rate rng off overwrite self wm
    = (r, self', wm') →
  grows wm wm' ∧ (overwrite = false → keeps_files wm wm').
Proof.
  unfold ProgramManager.register. cbv zeta.
  destruct (ProgramManager.program_to_seqc _ _ _ _ program wm) as [res wm1] eqn:Hp.
  intros Hres. assert (wm' = wm1) as -> by (destruct res; by injection Hres).
  assert (PreOrder (λ s s', grows s s' ∧ (overwrite = false → keeps_files s s')))
    as Hpre.
  { split.
    - intros s. split; [done|]. by intros _.
    - intros s1 s2 s3 [Hg Hk] [Hg' Hk']. split; [by etrans|].
      intros H. etrans; [by apply Hk|by apply Hk']. }
  eapply (@program_to_seqc_lifts get_sample_times float_bytes py_hash _ Hpre
            (λ _, True)) in Hp.
  - by apply Hp.
  - intros idx c m f _ _ _ _ waveform s r' s' Hreg. split; [|done].
    by apply register_grows in Hreg.
  - by left.
Qed.

(** X5. A call of [register], whatever its outcome, only adds: the prefix, every
    cache entry and every file name stay, the write log is extended, and
    without [overwrite] every file keeps the content it had. *)
Theorem register_only_adds :
  (∀ waveform channels markers vt rate rng off overwrite s r s',
     wm_register waveform channels markers vt rate rng off overwrite s = (r, s') →
     grows s s' ∧ (overwrite = false → keeps_files s s')) ∧
  (∀ name program channels markers vt rate rng off overwrite self wm r self' wm',
     pm_register name program channels markers vt rate rng off overwrite self wm
       = (r, self', wm') →
     grows wm wm' ∧ (overwrite = false → keeps_files wm wm')).
Proof.
  split; [intros *; apply register_grows|].
  intros name prog channels markers vt rate rng off overwrite self wm r self' wm'.
  apply pm_register_grows.
Qed.

Lemma grows_path_exists s s' name :
  grows s s' → WaveManager.path_exists name s = true → WaveManager.path_exists name s' = true.
Proof.
  intros (_ & _ & _ & Hdom & _). unfold WaveManager.path_exists.
  destruct (wave_dir s !! name) as [c|] eqn:E; [|done]. intros _.
  assert (name ∈ dom (wave_dir s')) as Hin.
  { apply Hdom. apply elem_of_dom. by eexists. }
  apply elem_of_dom in Hin as [c' ->]. done.
Qed.

Lemma register_on_disk waveform channels markers vt rate rng off overwrite s wn mn s' name :
  wm_register waveform channels markers vt rate rng off overwrite s = (inr (wn, mn), s') →
  wn = Some name ∨ mn = Some name →
  WaveManager.path_exists name s' = true.
Proof.
  rewrite register_eq. unfold register_outcome.
  destruct (wave_side _ _ _ _ s) as [[e|wn'] s1] eqn:Hw; [done|].
  destruct (marker_side _ _ _ s1) as [[e|mn'] s2] eqn:Hm; [done|].
  intros [= <- <- <-] [->| ->].
  - apply marker_side_grows in Hm as [Hg _]. apply (grows_path_exists _ _ _ Hg).
    unfold wave_side in Hw. destruct (sampled_amplitude _ _ _ _ _ _ _) as [[e|amp]|]; try done.
    cbv zeta in Hw. injection Hw as <- <-. apply persist_exists.
  - unfold marker_side in Hm. destruct (sampled_markers _ _ _ _ _) as [[e|mk]|]; try done.
    cbv zeta in Hm. injection Hm as <- <-. apply persist_exists.
Qed.

Lemma register_single_channels_from_grows idx rest waveform markers vt rate rng off overwrite
    s r s' :
  WaveManager.register_single_channels_from get_sample_times float_bytes py_hash
    idx rest waveform markers vt rate rng off overwrite s = (r, s') →
  grows s s'.
Proof.
  intros H.
  apply (@register_single_channels_from_lifts get_sample_times float_bytes py_hash
           grows _ (λ _, True)
           (MkProgramManager [] 0 (replicate idx None ++ rest) markers vt rate overwrite rng off))
    in H.
  - by apply H.
  - intros i c m f _ _ _ _ w s0 r0 s0' Hreg. split; [|done].
    by apply register_grows in Hreg as [Hg _].
  - by left.
  - simpl. rewrite drop_app_length'; [done|]. by rewrite length_replicate.
Qed.

(** X6. Every reference that a successful registration returns names a file that
    is on disk when the call ends; this holds for each entry of the
    per-channel list as well. *)
Theorem returned_references_on_disk :
  (∀ waveform channels markers vt rate rng off overwrite s wn mn s' name,
     wm_register waveform channels markers vt rate rng off overwrite s = (inr (wn, mn), s') →
     wn = Some name ∨ mn = Some name →
     WaveManager.path_exists name s' = true) ∧
  (∀ waveform channels markers vt rate rng off overwrite s names s' wn mn idx chan name,
     WaveManager.register_single_channels get_sample_times float_bytes py_hash
       waveform channels markers vt rate rng off overwrite s = (inr names, s') →
     (wn, mn, idx, chan) ∈ names →
     wn = Some name ∨ mn = Some name →
     WaveManager.path_exists name s' = true).
Proof.
  split; [intros *; apply register_on_disk|].
  intros waveform channels markers vt rate rng off overwrite s names s' wn mn i chan name.
  unfold WaveManager.register_single_channels. generalize 0%nat as idx.
  revert s names. induction channels as [|channel rest IH]; intros s names idx; simpl.
  - intros [= <- _] Hin. inversion Hin.
  - rewrite bind_run. unfold lift at 1.
    destruct (getitem markers idx) as [e|marker]; [done|].
    destruct (negb (is_not_None channel) && negb (is_not_None marker)); [apply IH|].
    rewrite bind_run. unfold lift at 1. cbv beta iota.
    rewrite bind_run. unfold lift at 1.
    destruct (getitem vt idx) as [e|f]; [done|].
    rewrite bind_run.
    destruct (wm_register waveform [channel] [marker] [f] rate rng off overwrite s)
      as [[e|[wn1 mn1]] s1] eqn:Hreg; [done|].
    rewrite bind_run.
    destruct (WaveManager.register_single_channels_from _ _ _ (S idx) rest _ _ _ _ _ _ _ s1)
      as [[e|more] s2] eqn:Hrest; [done|].
    intros [= <- <-] Hin Hname. apply elem_of_cons in Hin as [[= -> -> -> ->]|Hin].
    + apply register_single_channels_from_grows in Hrest.
      apply (grows_path_exists _ _ _ Hrest). by eapply register_on_disk.
    + by eapply IH.
Qed.

Lemma cache_wave_name h s :
  cache_consistent s →
  (cache_wave h s).1 = WaveManager.generate_wave_name (_awg_prefix s) h ∧
  cache_consistent (cache_wave h s).2.
Proof.
  intros [Hw Hm]. unfold cache_wave.
  destruct (_wave_by_data s !! h) as [name|] eqn:E; simpl.
  - split; [by apply Hw|done].
  - split; [done|]. split; [|done]. simpl. intros h' name.
    destruct (decide (h = h')) as [<-|Hne].
    + rewrite lookup_insert_eq. by intros [= <-].
    + rewrite lookup_insert_ne by done. apply Hw.
Qed.

Lemma cache_marker_name h s :
  cache_consistent s →
  (cache_marker h s).1 = WaveManager.generate_marker_name (_awg_prefix s) h ∧
  cache_consistent (cache_marker h s).2.
Proof.
  intros [Hw Hm]. unfold cache_marker.
  destruct (_marker_by_data s !! h) as [name|] eqn:E; simpl.
  - split; [by apply Hm|done].
  - split; [done|]. split; [done|]. simpl. intros h' name.
    destruct (decide (h = h')) as [<-|Hne].
    + rewrite lookup_insert_eq. by intros [= <-].
    + rewrite lookup_insert_ne by done. apply Hm.
Qed.

Lemma persist_consistent name c overwrite s :
  cache_consistent s → cache_consistent (persist name c overwrite s).
Proof. unfold persist. by destruct (_ || _). Qed.

Lemma persist_prefix name c overwrite s :
  _awg_prefix (persist name c overwrite s) = _awg_prefix s.
Proof. unfold persist. by destruct (_ || _). Qed.

Lemma cache_wave_prefix h s : _awg_prefix (cache_wave h s).2 = _awg_prefix s.
Proof. unfold cache_wave. by destruct (_wave_by_data s !! h). Qed.

Lemma register_consistent waveform channels markers vt rate rng off overwrite s r s' :
  cache_consistent s →
  wm_register waveform channels markers vt rate rng off overwrite s = (r, s') →
  cache_consistent s' ∧
  ∀ wn mn, r = inr (wn, mn) →
    (∀ name, wn = Some name →
       ∃ amp, sampled_amplitude get_sample_times waveform channels vt rate rng off
                = Some (inr amp) ∧
              name = WaveManager.generate_wave_name (_awg_prefix s)
                       (WaveManager.calc_hash py_hash float_bytes amp)) ∧
    (∀ name, mn = Some name →
       ∃ mk, sampled_markers get_sample_times waveform channels markers rate
               = Some (inr mk) ∧
             name = WaveManager.generate_marker_name (_awg_prefix s)
                      (WaveManager.calc_hash py_hash uint8_bytes mk)).
Proof.
  intros Hcons. rewrite register_eq. unfold register_outcome, wave_side, marker_side.
  destruct (sampled_amplitude _ _ _ _ _ _ _) as [[e|amp]|].
  - intros [= <- <-]. done.
  - cbv zeta.
    destruct (cache_wave_name (WaveManager.calc_hash py_hash float_bytes amp) s Hcons)
      as [Hname Hcons1].
    pose proof (persist_consistent (cache_wave (WaveManager.calc_hash py_hash float_bytes amp) s).1
                  (FloatText amp) overwrite _ Hcons1) as Hcons2.
    destruct (sampled_markers _ _ _ _ _) as [[e|mk]|].
    + intros [= <- <-]. done.
    + cbv zeta.
      destruct (cache_marker_name (WaveManager.calc_hash py_hash uint8_bytes mk) _ Hcons2)
        as [Hname' Hcons3].
      rewrite persist_prefix, cache_wave_prefix in Hname'.
      intros [= <- <-]. split; [by apply persist_consistent|].
      intros wn mn [= <- <-]. split.
      * intros name [= <-]. by exists amp.
      * intros name [= <-]. by exists mk.
    + intros [= <- <-]. split; [done|].
      intros wn mn [= <- <-]. split; [|done].
      intros name [= <-]. by exists amp.
  - destruct (sampled_markers _ _ _ _ _) as [[e|mk]|].
    + intros [= <- <-]. done.
    + cbv zeta.
      destruct (cache_marker_name (WaveManager.calc_hash py_hash uint8_bytes mk) _ Hcons)
        as [Hname' Hcons3].
      intros [= <- <-]. split; [by apply persist_consistent|].
      intros wn mn [= <- <-]. split; [done|].
      intros name [= <-]. by exists mk.
    + intros [= <- <-]. split; [done|].
      intros wn mn [= <- <-]. done.
Qed.

(** X7. When every cache entry carries the name minted from its key, this is
    still so after any call of [register], on the cache or on the registry,
    and the references a successful cache registration returns are the names
    minted from the hashes of the matrices it sampled. *)
Theorem cache_stays_consistent :
  (∀ waveform channels markers vt rate rng off overwrite s r s',
     cache_consistent s →
     wm_register waveform channels markers vt rate rng off overwrite s = (r, s') →
     cache_consistent s' ∧
     ∀ wn mn, r = inr (wn, mn) →
       (∀ name, wn = Some name →
          ∃ amp, sampled_amplitude get_sample_times waveform channels vt rate rng off
                   = Some (inr amp) ∧
                 name = WaveManager.generate_wave_name (_awg_prefix s)
                          (WaveManager.calc_hash py_hash float_bytes amp)) ∧
       (∀ name, mn = Some name →
          ∃ mk, sampled_markers get_sample_times waveform channels markers rate
                  = Some (inr mk) ∧
                name = WaveManager.generate_marker_name (_awg_prefix s)
                         (WaveManager.calc_hash py_hash uint8_bytes mk))) ∧
  (∀ name program channels markers vt rate rng off overwrite self wm r self' wm',
     cache_consistent wm →
     pm_register name program channels markers vt rate rng off overwrite self wm
       = (r, self', wm') →
     cache_consistent wm').
Proof.
  split; [intros *; apply register_consistent|].
  intros name program channels markers vt rate rng off overwrite self wm r self' wm' Hcons.
  unfold ProgramManager.register. cbv zeta.
  destruct (ProgramManager.program_to_seqc _ _ _ _ program wm) as [res wm1] eqn:Hp.
  intros Hres. assert (wm' = wm1) as -> by (destruct res; by injection Hres).
  assert (PreOrder (λ s s', cache_consistent s → cache_consistent s')) as Hpre.
  { split; [by intros s|]. intros s1 s2 s3 H1 H2 H. by apply H2, H1. }
  eapply (@program_to_seqc_lifts get_sample_times float_bytes py_hash _ Hpre
            (λ _, True)) in Hp.
  - by apply Hp.
  - intros idx c m f _ _ _ _ waveform s r' s' Hreg. split; [|done].
    intros Hs. by eapply register_consistent in Hreg as [? _].
  - by left.
Qed.

Lemma persist_overwrite name c s :
  persist name c true s = savetxt name c s.
Proof. reflexivity. Qed.

(** X8. With [overwrite], a successful registration writes every artifact it
    returns, the wave before the marker, and the files then hold the matrices
    this call sampled. *)
Theorem overwrite_writes_again waveform channels markers vt rate rng off s wn mn s' :
  wm_register waveform channels markers vt rate rng off true s = (inr (wn, mn), s') →
  map fst (drop (length (savetxt_log s)) (savetxt_log s')) = omap id [wn; mn] ∧
  savetxt_log s `prefix_of` savetxt_log s' ∧
  (∀ name, mn = Some name →
     ∃ mk, sampled_markers get_sample_times waveform channels markers rate = Some (inr mk) ∧
           wave_dir s' !! name = Some (IntText mk)) ∧
  (∀ name, wn = Some name → mn ≠ Some name →
     ∃ amp, sampled_amplitude get_sample_times waveform channels vt rate rng off
              = Some (inr amp) ∧
            wave_dir s' !! name = Some (FloatText amp)).
Proof.
  rewrite register_eq. unfold register_outcome, wave_side, marker_side.
  destruct (sampled_amplitude _ _ _ _ _ _ _) as [[e|amp]|]; [done| |].
  - cbv zeta. rewrite persist_overwrite.
    set (h := WaveManager.calc_hash py_hash float_bytes amp).
    destruct (cache_wave_disk h s) as (Hd & Hl & _).
    destruct (sampled_markers _ _ _ _ _) as [[e|mk]|]; [done| |].
    + cbv zeta. rewrite persist_overwrite.
      set (sA := savetxt (cache_wave h s).1 (FloatText amp) (cache_wave h s).2).
      set (h' := WaveManager.calc_hash py_hash uint8_bytes mk).
      destruct (cache_marker_disk h' sA) as (Hd' & Hl' & _).
      intros [= <- <- <-]. simpl. rewrite Hl', Hd'. simpl. rewrite Hl, Hd.
      rewrite <- app_assoc. split; [by rewrite drop_app_length|].
      split; [by apply prefix_app_r|]. split.
      * intros name [= <-]. exists mk. split; [done|]. apply lookup_insert_eq.
      * intros name [= <-] Hne. exists amp. split; [done|].
        rewrite lookup_insert_ne by congruence. apply lookup_insert_eq.
    + intros [= <- <- <-]. simpl. rewrite Hl, Hd.
      split; [by rewrite drop_app_length|].
      split; [by apply prefix_app_r|]. split; [done|].
      intros name [= <-] _. exists amp. split; [done|]. apply lookup_insert_eq.
  - destruct (sampled_markers _ _ _ _ _) as [[e|mk]|]; [done| |].
    + cbv zeta. rewrite persist_overwrite.
      set (h' := WaveManager.calc_hash py_hash uint8_bytes mk).
      destruct (cache_marker_disk h' s) as (Hd' & Hl' & _).
      intros [= <- <- <-]. simpl. rewrite Hl', Hd'.
      split; [by rewrite drop_app_length|].
      split; [by apply prefix_app_r|]. split; [|done].
      intros name [= <-]. exists mk. split; [done|]. apply lookup_insert_eq.
    + intros [= <- <- <-]. simpl. rewrite drop_ge by done. done.
Qed.


(** X10. When no slot has a channel or a marker and the marker tuple is as long as
    the channel tuple, registering any program succeeds and leaves the wave
    manager and the disk exactly as they were. *)
Theorem unassigned_slots_touch_nothing
    name program channels markers vt rate rng off overwrite self wm :
  Forall (λ c, c = None) channels → Forall (λ m, m = None) markers →
  (length channels ≤ length markers)%nat →
  ∃ self',
    pm_register name program channels markers vt rate rng off overwrite self wm
      = (inr tt, self', wm) ∧
    ProgramManager.name_to_index name self'
      = inr (ProgramManager.generate_program_index self).
Proof.
  intros Hc Hm Hlen. unfold ProgramManager.register. cbv zeta.
  destruct (ProgramManager.program_to_seqc _ _ _ _ program wm) as [res wm1] eqn:Hp.
  assert (PreOrder (@eq HDAWGWaveManager)) as Hpre by apply _.
  eapply (@program_to_seqc_lifts get_sample_times float_bytes py_hash
            eq Hpre (λ _, False)) in Hp.
  - destruct Hp as [<- Herr]. destruct res as [e|lines]; [by destruct (Herr e)|].
    eexists. split; [reflexivity|].
    unfold ProgramManager.name_to_index. simpl. by rewrite od_get_setitem_eq.
  - simpl. intros idx c m f Hci Hmi _ Hactive.
    apply list_elem_of_lookup_2 in Hci, Hmi.
    rewrite Forall_forall in Hc, Hm. rewrite (Hc _ Hci), (Hm _ Hmi) in Hactive. done.
  - right. simpl. split; [done|]. intros idx c m Hci Hmi Hactive.
    apply list_elem_of_lookup_2 in Hci, Hmi.
    rewrite Forall_forall in Hc, Hm. rewrite (Hc _ Hci), (Hm _ Hmi) in Hactive. done.
Qed.

End RegistrationFacts.

(** ** The registry, continued *)

Section RegistryDictionary.

Variable get_sample_times : Waveform → Q → Call (list float * nat).
Variable float_bytes : float → list Byte.byte.
Variable py_hash : list Byte.byte → Z.

Abbreviation pm_register := (ProgramManager.register get_sample_times float_bytes py_hash).
Abbreviation apply_op := (Spec.apply_op get_sample_times float_bytes py_hash).
Abbreviation run := (Spec.run get_sample_times float_bytes py_hash).

Lemma pm_register_known name program channels markers vt rate rng off overwrite self wm
    r self' wm' :
  pm_register name program channels markers vt rate rng off overwrite self wm
    = (r, self', wm') →
  (∃ text, r = inr tt ∧
     _known_programs self' =
       od_setitem name
         (MkProgramEntry program (ProgramManager.generate_program_index self) text)
         (_known_programs self)) ∨
  (∃ e, r = inl e ∧ _known_programs self' = _known_programs self).
Proof.
  unfold ProgramManager.register. cbv zeta.
  destruct (ProgramManager.program_to_seqc _ _ _ _ _ _) as [[e|lines] wm1].
  - intros [= <- <- _]. right. by exists e.
  - intros [= <- <- _]. left. by eexists.
Qed.

(** X11. After a successful registration the name looks up the index that was
    generated for it, every other name looks up what it did before, and the
    name list gains the name at its end unless it was already in it; after a
    failed one every lookup is as before. *)
Theorem register_then_lookup name program channels markers vt rate rng off overwrite
    self wm r self' wm' :
  pm_register name program channels markers vt rate rng off overwrite self wm
    = (r, self', wm') →
  (∀ other, other ≠ name →
     ProgramManager.name_to_index other self' = ProgramManager.name_to_index other self) ∧
  match r with
  | inr _ =>
      ProgramManager.name_to_index name self'
        = inr (ProgramManager.generate_program_index self) ∧
      ProgramManager.programs self' =
        if is_not_None (od_get name (_known_programs self))
        then ProgramManager.programs self
        else ProgramManager.programs self ++ [name]
  | inl _ =>
      ProgramManager.name_to_index name self' = ProgramManager.name_to_index name self ∧
      ProgramManager.programs self' = ProgramManager.programs self
  end.
Proof.
  intros H. unfold ProgramManager.name_to_index, ProgramManager.programs.
  apply pm_register_known in H as [(text & -> & ->)|(e & -> & ->)].
  - split.
    + intros other Hne. by rewrite od_get_setitem_ne.
    + rewrite od_get_setitem_eq, od_setitem_names. done.
  - done.
Qed.

(** X12. Removing an unknown name fails with a key error and changes nothing;
    removing a known name makes its lookup and a second removal fail, and
    leaves the other names, their indices and their order as they were. *)
Theorem remove_then_lookup name self :
  (od_get name (_known_programs self) = None →
   ProgramManager.remove name self = (inl (KeyError name), self)) ∧
  (∀ self', ProgramManager.remove name self = (inr tt, self') →
     ProgramManager.name_to_index name self' = inl (KeyError name) ∧
     ProgramManager.remove name self' = (inl (KeyError name), self') ∧
     (∀ other, other ≠ name →
        ProgramManager.name_to_index other self'
          = ProgramManager.name_to_index other self) ∧
     ProgramManager.programs self' = filter (λ n, n ≠ name) (ProgramManager.programs self)).
Proof.
  unfold ProgramManager.remove, ProgramManager.name_to_index, ProgramManager.programs.
  split; [by intros ->|].
  intros self'. destruct (od_get name (_known_programs self)) as [entry|]; [|done].
  intros [= <-]. simpl. rewrite od_get_delete_eq.
  split; [done|]. split; [done|]. split.
  - intros other Hne. by rewrite od_get_delete_ne.
  - unfold od_delete. induction (_known_programs self) as [|[k w] d IH]; [done|].
    rewrite filter_cons. simpl. rewrite filter_cons.
    destruct (String.eqb k name) eqn:E; simpl.
    + apply String.eqb_eq in E as ->. rewrite decide_False by (by intros H; apply H).
      exact IH.
    + apply String.eqb_neq in E. rewrite decide_True by done. simpl. by rewrite IH.
Qed.

Lemma od_setitem_NoDup {V} name (v : V) d :
  NoDup (map fst d) → NoDup (map fst (od_setitem name v d)).
Proof.
  intros Hd. rewrite od_setitem_names.
  destruct (od_get name d) eqn:E; simpl; [done|].
  apply NoDup_app. split; [done|]. split; [|apply NoDup_singleton].
  intros x Hx Hx'. apply list_elem_of_singleton in Hx' as ->.
  by apply od_get_None in E.
Qed.

Lemma od_delete_NoDup {V} name (d : list (string * V)) :
  NoDup (map fst d) → NoDup (map fst (od_delete name d)).
Proof.
  unfold od_delete. induction d as [|[k w] d IH]; [done|].
  simpl. intros Hd. apply NoDup_cons in Hd as [Hk Hd].
  rewrite filter_cons. destruct (decide _); simpl; [|by apply IH].
  apply NoDup_cons. split; [|by apply IH].
  intros Hin. apply Hk. apply list_elem_of_fmap in Hin as ([k' w'] & -> & Hin).
  apply list_elem_of_filter in Hin as [_ Hin].
  apply list_elem_of_fmap. by exists (k', w').
Qed.

(** However programs are registered, registered again, removed and cleared,
    no name is listed twice: the association list stays a dictionary. *)
Lemma program_names_unique (number_of_channels : nat) (wm : HDAWGWaveManager) ops :
  NoDup (ProgramManager.programs (run ops (ProgramManager.init number_of_channels, wm)).1).
Proof.
  unfold ProgramManager.programs.
  induction ops as [|op ops IH] using rev_ind; [constructor|].
  rewrite run_snoc.
  set (st := run ops (ProgramManager.init number_of_channels, wm)) in *.
  destruct op as [r|name|].
  - destruct (register_known get_sample_times float_bytes py_hash r st)
      as [(text & _ & Hk)|(e & _ & Hk)]; unfold known in Hk; rewrite Hk; [|done].
    by apply od_setitem_NoDup.
  - destruct (remove_known get_sample_times float_bytes py_hash name st) as [Hk|Hk];
      unfold known in Hk; rewrite Hk; [done|].
    by apply od_delete_NoDup.
  - constructor.
Qed.

(** X13. Registering again a name that is registered but is not the newest gives
    it the newest index plus one and leaves it where it was; the next new
    name then receives that same index, so two registered programs share it. *)
Theorem registering_again_shares_index st r r' entry n_last e_last :
  od_get (reg_name r) (known st) = Some entry →
  last (known st) = Some (n_last, e_last) → reg_name r ≠ n_last →
  od_get (reg_name r') (known st) = None →
  (apply_op (OpRegister r) st).1 = inr tt →
  (apply_op (OpRegister r') (apply_op (OpRegister r) st).2).1 = inr tt →
  let st' := (apply_op (OpRegister r') (apply_op (OpRegister r) st).2).2 in
  reg_name r ≠ reg_name r' ∧
  ProgramManager.name_to_index (reg_name r) st'.1 = inr (index e_last + 1) ∧
  ProgramManager.name_to_index (reg_name r') st'.1 = inr (index e_last + 1).
Proof.
  intros Hin Hlast Hne Hnew Hok Hok'.
  assert (reg_name r ≠ reg_name r') as Hdiff by (intros Heq; congruence).
  destruct (register_known get_sample_times float_bytes py_hash r st)
    as [(text & _ & Hk)|(e & He & _)]; [|congruence].
  set (st1 := (apply_op (OpRegister r) st).2) in *.
  destruct (register_known get_sample_times float_bytes py_hash r' st1)
    as [(text' & _ & Hk')|(e & He & _)]; [|congruence].
  cbv zeta. split; [done|].
  unfold ProgramManager.name_to_index. unfold known in Hk'. rewrite Hk'.
  assert (last (indices (known st)) = Some (index e_last)) as Hlast0.
  { unfold indices. by rewrite fmap_last, Hlast. }
  assert (ProgramManager.generate_program_index st.1 = index e_last + 1) as Hgen.
  { rewrite generate_program_index_last. fold (known st). by rewrite Hlast0. }
  assert (ProgramManager.generate_program_index st1.1 = index e_last + 1) as Hgen1.
  { rewrite generate_program_index_last. fold (known st1). unfold indices.
    rewrite fmap_last, Hk, (od_setitem_last _ _ _ n_last e_last); [done| |done|done].
    by rewrite Hin. }
  split.
  - rewrite od_get_setitem_ne by done. fold (known st1). rewrite Hk.
    rewrite od_get_setitem_eq. simpl. by rewrite Hgen.
  - rewrite od_get_setitem_eq. simpl. by rewrite Hgen1.
Qed.

(** X14. After [clear] no program is registered and numbering starts over: the
    next successful registration is the only program and has index one. *)
Theorem clear_restarts_numbering st r :
  ProgramManager.programs (apply_op OpClear st).2.1 = [] ∧
  ((apply_op (OpRegister r) (apply_op OpClear st).2).1 = inr tt →
   let st' := (apply_op (OpRegister r) (apply_op OpClear st).2).2 in
   ProgramManager.programs st'.1 = [reg_name r] ∧
   ProgramManager.name_to_index (reg_name r) st'.1 = inr 1).
Proof.
  split; [done|]. intros Hok.
  destruct (register_known get_sample_times float_bytes py_hash r (apply_op OpClear st).2)
    as [(text & _ & Hk)|(e & He & _)]; [|congruence].
  cbv zeta. unfold ProgramManager.programs, ProgramManager.name_to_index.
  unfold known in Hk. rewrite Hk. simpl. by rewrite String.eqb_refl.
Qed.

End RegistryDictionary.

(** ** Clearing the cache *)

Section ClearFacts.

Variable get_sample_times : Waveform → Q → Call (list float * nat).
Variable float_bytes : float → list Byte.byte.
Variable py_hash : list Byte.byte → Z.
Variable glob_match : string → string → bool.

Abbreviation clear := (WaveManagerFiles.clear glob_match).

Lemma clear_removes_minted s rest :
  glob_covers glob_match (_awg_prefix s) →
  wave_dir (clear s) !! (_awg_prefix s +:+ "_" +:+ rest) = None.
Proof.
  intros Hglob. unfold WaveManagerFiles.clear. simpl.
  apply map_lookup_filter_None. right. intros c _. simpl. by rewrite Hglob.
Qed.

Lemma register_after_clear s :
  glob_covers glob_match (_awg_prefix s) →
  ∀ waveform channels markers vt rate rng off wn mn s' name,
    WaveManager.register get_sample_times float_bytes py_hash
      waveform channels markers vt rate rng off false (clear s) = (inr (wn, mn), s') →
    wn = Some name ∨ mn = Some name →
    writes_to name s' = S (writes_to name s).
Proof.
  intros Hglob waveform channels markers vt rate rng off wn mn s' name Hreg Hname.
  assert (cache_consistent (clear s)) as Hcons by (by split).
  destruct (register_consistent get_sample_times float_bytes py_hash _ _ _ _ _ _ _ _ _ _ _
              Hcons Hreg) as [_ Hnames].
  destruct (Hnames wn mn eq_refl) as [Hw Hm].
  assert (wave_dir (clear s) !! name = None) as Hmiss.
  { destruct Hname as [Hname|Hname].
    - destruct (Hw name Hname) as (amp & _ & ->).
      rewrite generate_wave_name_eq. exact (clear_removes_minted s _ Hglob).
    - destruct (Hm name Hname) as (mk & _ & ->).
      rewrite generate_marker_name_eq. exact (clear_removes_minted s _ Hglob). }
  rewrite register_eq in Hreg.
  by rewrite (outcome_writes float_bytes py_hash _ _ _ _ _ name Hreg Hname Hmiss).
Qed.

(** X15. [clear] empties both caches, deletes files only, and keeps every file
    that the pattern does not match. When the pattern matches every name
    that starts with the prefix and an underscore, the next registration
    without [overwrite] writes each artifact it returns. *)
Theorem clear_then_register s :
  glob_covers glob_match (_awg_prefix s) →
  _wave_by_data (clear s) = ∅ ∧ _marker_by_data (clear s) = ∅ ∧
  wave_dir (clear s) ⊆ wave_dir s ∧
  (∀ name c, wave_dir s !! name = Some c →
     glob_match (_awg_prefix s +:+ "_*." +:+ WaveManagerFiles._file_type)
                (WaveManagerFiles.file_name name) = false →
     wave_dir (clear s) !! name = Some c) ∧
  ∀ waveform channels markers vt rate rng off wn mn s' name,
    WaveManager.register get_sample_times float_bytes py_hash
      waveform channels markers vt rate rng off false (clear s) = (inr (wn, mn), s') →
    wn = Some name ∨ mn = Some name →
    writes_to name s' = S (writes_to name s).
Proof.
  intros Hglob. split; [done|]. split; [done|]. split; [apply map_filter_subseteq|].
  split; [|by apply register_after_clear].
  intros name c Hc Hno. unfold WaveManagerFiles.clear. simpl.
  by apply map_lookup_filter_Some.
Qed.

(** X23. Constructing a wave manager fails exactly when the wave directory is
    missing. Otherwise it starts with the given prefix, empty caches and none
    of the files added; and when the pattern matches every name that starts
    with the prefix and an underscore, nothing of an earlier session is
    reused: the first registration writes each artifact it returns, once. *)
Theorem new_wave_manager_starts_clean wave_dir_path is_dir awg_identifier files :
  (is_dir = false →
   WaveManagerFiles.init glob_match wave_dir_path is_dir awg_identifier files
     = inl (HDAWGIOError wave_dir_path)) ∧
  ∀ s, WaveManagerFiles.init glob_match wave_dir_path is_dir awg_identifier files = inr s →
    is_dir = true ∧ _awg_prefix s = awg_identifier ∧
    _wave_by_data s = ∅ ∧ _marker_by_data s = ∅ ∧ wave_dir s ⊆ files ∧
    (glob_covers glob_match awg_identifier →
     ∀ waveform channels markers vt rate rng off wn mn s' name,
       WaveManager.register get_sample_times float_bytes py_hash
         waveform channels markers vt rate rng off false s = (inr (wn, mn), s') →
       wn = Some name ∨ mn = Some name →
       writes_to name s' = 1%nat).
Proof.
  unfold WaveManagerFiles.init. split; [by intros ->|].
  intros s. destruct is_dir; [|done]. intros [= <-].
  split; [done|]. split; [done|]. split; [done|]. split; [done|].
  split; [apply map_filter_subseteq|].
  intros Hglob waveform channels markers vt rate rng off wn mn s' name Hreg Hname.
  by rewrite (register_after_clear (MkWaveManager ∅ ∅ awg_identifier files []) Hglob
                _ _ _ _ _ _ _ _ _ _ _ Hreg Hname).
Qed.

End ClearFacts.

(** ** Channel groups *)

Lemma is_4x2_pair_spec channels :
  ChannelGroup.is_4x2_pair channels = true ↔ channels ∈ channel_groups_of CHAN_GROUP_4x2.
Proof.
  split.
  - destruct channels as [l|l|a b]; [|done|done]. simpl.
    repeat (case_bool_decide; [subst; set_solver|]). done.
  - intros H. simpl in H. repeat (apply elem_of_cons in H as [->|H]; [done|]).
    inversion H.
Qed.

(** X16. A channel sequence is accepted exactly when the grouping is 4x2 and it is
    one of the four pairs as a tuple, or the grouping is 1x8 and it is a
    range with the items 1 to 8; the grouping 2x4 accepts nothing. An accepted
    sequence has a group index between 0 and 3, and two accepted sequences of
    one grouping with the same index have the same channels. Of the groups
    that [HDAWGRepresentation] creates for the grouping 4x2 or 1x8, each is
    accepted and has its position as group index. *)
Theorem accepted_channel_groups channel_grouping channels :
  (ChannelGroup.check_channels channel_grouping channels = inr tt ↔
   (channel_grouping = CHAN_GROUP_4x2 ∧ channels ∈ channel_groups_of CHAN_GROUP_4x2) ∨
   (channel_grouping = CHAN_GROUP_1x8 ∧
    ∃ start stop, channels = ChannelRange start stop ∧
                  ChannelGroup.items channels = [1; 2; 3; 4; 5; 6; 7; 8])) ∧
  (ChannelGroup.check_channels channel_grouping channels = inr tt →
   ∃ k, ChannelGroup.awg_group_index channels = inr k ∧ 0 ≤ k ≤ 3 ∧
        ∀ channels',
          ChannelGroup.check_channels channel_grouping channels' = inr tt →
          ChannelGroup.awg_group_index channels' = inr k →
          ChannelGroup.items channels' = ChannelGroup.items channels) ∧
  (∀ i : nat, channel_groups_of channel_grouping !! i = Some channels →
      channel_grouping ≠ CHAN_GROUP_2x4 →
      ChannelGroup.check_channels channel_grouping channels = inr tt ∧
      ChannelGroup.awg_group_index channels = inr (Z.of_nat i)).
Proof.
  assert (∀ i : nat, channel_groups_of channel_grouping !! i = Some channels →
            channel_grouping ≠ CHAN_GROUP_2x4 →
            ChannelGroup.check_channels channel_grouping channels = inr tt ∧
            ChannelGroup.awg_group_index channels = inr (Z.of_nat i)) as Hbuilt.
  { intros i Hi Hne. destruct channel_grouping; [|done|]; simpl in Hi;
      repeat (destruct i as [|i]; [injection Hi as <-; by vm_compute|]); done. }
  rewrite (and_assoc _ _ _). split; [|exact Hbuilt]. clear Hbuilt.
  assert (∀ c, ChannelGroup.check_channels channel_grouping c = inr tt ↔
          (channel_grouping = CHAN_GROUP_4x2 ∧ c ∈ channel_groups_of CHAN_GROUP_4x2) ∨
          (channel_grouping = CHAN_GROUP_1x8 ∧
           ∃ start stop, c = ChannelRange start stop ∧
                         ChannelGroup.items c = [1; 2; 3; 4; 5; 6; 7; 8])) as Hiff.
  { intros c. destruct channel_grouping; simpl.
    - destruct (ChannelGroup.is_4x2_pair c) eqn:E; simpl.
      + apply is_4x2_pair_spec in E. split; [by left|done].
      + split; [done|]. intros [[_ H]|[? _]]; [|done].
        apply is_4x2_pair_spec in H. congruence.
    - split; [done|]. by intros [[? _]|[? _]].
    - destruct (ChannelGroup.is_range_1_9 c) eqn:E; simpl.
      + split; [|done]. intros _. right. split; [done|].
        destruct c as [l|l|a b]; [done|done|]. simpl in E.
        apply bool_decide_eq_true in E. by exists a, b.
      + split; [done|]. intros [[? _]|[_ (a & b & -> & H)]]; [done|].
        simpl in E. apply bool_decide_eq_false in E. by destruct E. }
  split; [apply Hiff|]. intros Hok.
  assert (∀ c, ChannelGroup.check_channels channel_grouping c = inr tt →
               ∃ k, ChannelGroup.awg_group_index c = inr k ∧ 0 ≤ k ≤ 3 ∧
                    (channel_grouping = CHAN_GROUP_4x2 →
                     ChannelGroup.items c = [2 * k + 1; 2 * k + 2]) ∧
                    (channel_grouping = CHAN_GROUP_1x8 →
                     ChannelGroup.items c = [1; 2; 3; 4; 5; 6; 7; 8]))
    as Hindex.
  { intros c Hc. apply Hiff in Hc as [[-> H]|[-> (a & b & -> & H)]].
    - simpl in H. repeat (apply elem_of_cons in H as [->|H]; [eexists; by vm_compute|]).
      inversion H.
    - unfold ChannelGroup.awg_group_index, ChannelGroup.num_channels. rewrite H.
      exists 0. by vm_compute. }
  destruct (Hindex _ Hok) as (k & Hk & Hrange & H42 & H18).
  exists k. split; [done|]. split; [done|].
  intros channels' Hok' Hk'.
  destruct (Hindex _ Hok') as (k' & Hk2 & _ & H42' & H18').
  assert (k' = k) as -> by congruence.
  destruct channel_grouping.
  - by rewrite H42, H42'.
  - done.
  - by rewrite H18, H18'.
Qed.

(** ** From the monad's operations to a whole program *)

Section Compositional.

Variable get_sample_times : Waveform → Q → Call (list float * nat).
Variable float_bytes : float → list Byte.byte.
Variable py_hash : list Byte.byte → Z.

(** A property of computations that return, lifting and sequencing preserve
    and that every one-slot registration of [self] has. *)
Variable P : ∀ A, M A → Prop.
Variable self : HDAWGProgramManager.

Hypothesis P_ret : ∀ A (x : A), P A (mret x).
Hypothesis P_lift : ∀ A (r : Result A), P A (lift r).
Hypothesis P_bind : ∀ A B (m : M A) (f : A → M B),
  P A m → (∀ x, P B (f x)) → P B (m ≫= f).
Hypothesis P_register : ∀ waveform c m f,
  P _ (WaveManager.register get_sample_times float_bytes py_hash waveform [c] [m] [f]
         (_sample_rate self) (_output_range self) (_output_offset self) (_overwrite self)).

Lemma register_single_channels_from_composed waveform rest :
  ∀ idx,
  P _ (WaveManager.register_single_channels_from get_sample_times float_bytes py_hash
         idx rest waveform (_markers self) (_voltage_transformation self)
         (_sample_rate self) (_output_range self) (_output_offset self) (_overwrite self)).
Proof.
  induction rest as [|channel rest IH]; intros idx;
    cbn [WaveManager.register_single_channels_from].
  - apply P_ret.
  - apply P_bind; [apply P_lift|]. intros marker.
    destruct (negb _ && negb _); [apply IH|].
    apply P_bind; [apply P_lift|]. intros marker'.
    apply P_bind; [apply P_lift|]. intros f.
    apply P_bind; [apply P_register|]. intros [wave_name marker_name].
    apply P_bind; [apply IH|]. intros names. apply P_ret.
Qed.

Lemma waveform_to_seqc_composed waveform :
  P _ (ProgramManager.waveform_to_seqc get_sample_times float_bytes py_hash self waveform).
Proof.
  unfold ProgramManager.waveform_to_seqc, WaveManager.register_single_channels.
  apply P_bind; [apply register_single_channels_from_composed|].
  intros names. apply P_ret.
Qed.

Lemma program_to_seqc_composed prog :
  P _ (ProgramManager.program_to_seqc get_sample_times float_bytes py_hash self prog).
Proof.
  induction prog as [count waveform|count child children IHchild IHchildren]
    using Loop_nested_ind; cbn [ProgramManager.program_to_seqc].
  - apply P_bind; [|intros; apply P_ret].
    apply P_bind; [apply waveform_to_seqc_composed|intros; apply P_ret].
  - apply P_bind; [|intros; apply P_ret].
    apply P_bind; [done|]. intros first.
    apply P_bind; [|intros; apply P_ret].
    induction IHchildren as [|c cs Hc _ IH]; [apply P_ret|].
    apply P_bind; [done|]. intros lines.
    apply P_bind; [apply IH|intros; apply P_ret].
Qed.

End Compositional.

Lemma program_to_seqc_configuration get_sample_times float_bytes py_hash
    known n known' n' channels markers vt rate overwrite rng off prog :
  ∀ s,
  ProgramManager.program_to_seqc get_sample_times float_bytes py_hash
    (MkProgramManager known' n' channels markers vt rate overwrite rng off) prog s =
  ProgramManager.program_to_seqc get_sample_times float_bytes py_hash
    (MkProgramManager known n channels markers vt rate overwrite rng off) prog s.
Proof.
  induction prog as [count waveform|count child children IHchild IHchildren]
    using Loop_nested_ind; intros s.
  - done.
  - cbn [ProgramManager.program_to_seqc]. rewrite !bind_run, IHchild.
    destruct (ProgramManager.program_to_seqc _ _ _ _ child s) as [[e|first] s1]; [done|].
    rewrite !bind_run, !each_child_templated.
    assert (Spec.children_lines get_sample_times float_bytes py_hash
              (MkProgramManager known' n' channels markers vt rate overwrite rng off)
              children s1 =
            Spec.children_lines get_sample_times float_bytes py_hash
              (MkProgramManager known n channels markers vt rate overwrite rng off)
              children s1) as ->; [|done].
    clear IHchild. revert s1.
    induction IHchildren as [|c cs Hc _ IH]; intros s1; [done|].
    cbn [Spec.children_lines]. rewrite !bind_run, Hc.
    destruct (ProgramManager.program_to_seqc _ _ _ _ c s1) as [[e|lines] s2]; [done|].
    by rewrite !bind_run, IH.
Qed.

(** ** Registering again *)

Section Replay.

Variable get_sample_times : Waveform → Q → Call (list float * nat).
Variable float_bytes : float → list Byte.byte.
Variable py_hash : list Byte.byte → Z.

Lemma replays_ret {A} (x : A) : replays (mret x : M A).
Proof. intros s r s' [= <- <-]. split; [done|]. by intros s'' _. Qed.

Lemma replays_lift {A} (r : Result A) : replays (lift r).
Proof. intros s r' s' [= <- <-]. split; [done|]. by intros s'' _. Qed.

Lemma replays_bind {A B} (m : M A) (f : A → M B) :
  replays m → (∀ x, replays (f x)) → replays (m ≫= f).
Proof.
  intros Hm Hf s r s'. rewrite bind_run.
  destruct (m s) as [[e|x] s1] eqn:H1; destruct (Hm _ _ _ H1) as [Hg1 Hr1].
  - intros [= <- <-]. split; [done|]. intros s'' Hs. by rewrite bind_run, (Hr1 _ Hs).
  - intros H2. destruct (Hf x _ _ _ H2) as [Hg2 Hr2]. split; [by etrans|].
    intros s'' Hs. rewrite bind_run, (Hr1 s''); [by apply Hr2|by etrans].
Qed.

Lemma wave_side_replays amplitude : replays (wave_side float_bytes py_hash amplitude false).
Proof.
  intros s r s' H. split; [by apply wave_side_grows in H as [? _]|].
  intros s'' Hs. destruct amplitude as [[e|amp]|].
  - by injection H as <- <-.
  - unfold wave_side in H. cbv zeta in H. injection H as <- <-.
    destruct (wave_side_done float_bytes py_hash amp false s) as (Hc & Hf & _).
    apply wave_side_again.
    + destruct Hs as (_ & Hw & _). by eapply lookup_weaken.
    + by eapply grows_path_exists.
  - by injection H as <- <-.
Qed.

Lemma marker_side_replays marker_output : replays (marker_side py_hash marker_output false).
Proof.
  intros s r s' H. split; [by apply marker_side_grows in H as [? _]|].
  intros s'' Hs. destruct marker_output as [[e|mk]|].
  - by injection H as <- <-.
  - unfold marker_side in H. cbv zeta in H. injection H as <- <-.
    destruct (marker_side_done py_hash mk false s) as (Hc & Hf & _).
    apply marker_side_again.
    + destruct Hs as (_ & _ & Hm & _). by eapply lookup_weaken.
    + by eapply grows_path_exists.
  - by injection H as <- <-.
Qed.

Lemma outcome_replays amplitude marker_output :
  replays (register_outcome float_bytes py_hash amplitude marker_output false).
Proof.
  change (replays (wave_side float_bytes py_hash amplitude false ≫= λ wave_name,
                   marker_side py_hash marker_output false ≫= λ marker_name,
                   mret (wave_name, marker_name))).
  apply replays_bind; [apply wave_side_replays|]. intros wave_name.
  apply replays_bind; [apply marker_side_replays|]. intros marker_name.
  apply replays_ret.
Qed.

Lemma register_replays waveform channels markers vt rate rng off :
  replays (WaveManager.register get_sample_times float_bytes py_hash
             waveform channels markers vt rate rng off false).
Proof.
  intros s r s' H. rewrite register_eq in H.
  apply outcome_replays in H as [Hg Hr]. split; [done|].
  intros s'' Hs. rewrite register_eq. by apply Hr.
Qed.

Lemma program_to_seqc_replays self prog :
  _overwrite self = false →
  replays (ProgramManager.program_to_seqc get_sample_times float_bytes py_hash self prog).
Proof.
  intros Hov.
  apply (program_to_seqc_composed get_sample_times float_bytes py_hash (@replays) self).
  - intros A x. apply replays_ret.
  - intros A r. apply replays_lift.
  - intros A B m f. apply replays_bind.
  - intros waveform c m f. rewrite Hov. apply register_replays.
Qed.

(** X17. Without [overwrite], registering a program again, under any name, in any
    registry and on any state of the cache that continues the one the first
    registration left, has the outcome of the first registration, changes no
    cache entry, writes no file, and stores the seqc text that was stored. *)
Theorem registering_again_changes_nothing
    name program channels markers vt rate rng off self wm r self' wm' :
  ProgramManager.register get_sample_times float_bytes py_hash
    name program channels markers vt rate rng off false self wm = (r, self', wm') →
  ∀ name2 self2 wm2, grows wm' wm2 →
    ∃ self2',
      ProgramManager.register get_sample_times float_bytes py_hash
        name2 program channels markers vt rate rng off false self2 wm2 = (r, self2', wm2) ∧
      (r = inr tt →
       seqc_rep <$> od_get name2 (_known_programs self2') =
       seqc_rep <$> od_get name (_known_programs self')).
Proof.
  unfold ProgramManager.register. cbv zeta. intros H name2 self2 wm2 Hs.
  rewrite (program_to_seqc_configuration get_sample_times float_bytes py_hash
             (_known_programs self) (_number_of_channels self)
             (_known_programs self2) (_number_of_channels self2)).
  destruct (ProgramManager.program_to_seqc _ _ _ _ program wm) as [res wm1] eqn:Hp.
  assert (wm' = wm1) as <- by (destruct res; by injection H).
  apply program_to_seqc_replays in Hp as [_ Hagain]; [|done].
  rewrite (Hagain _ Hs).
  destruct res as [e|lines]; injection H as <- <-.
  - eexists. split; [done|]. done.
  - eexists. split; [done|]. intros _. simpl. by rewrite !od_get_setitem_eq.
Qed.

End Replay.

(** ** What the references depend on *)

Section Steady.

Variable get_sample_times : Waveform → Q → Call (list float * nat).
Variable float_bytes : float → list Byte.byte.
Variable py_hash : list Byte.byte → Z.

Lemma steady_ret {A} (x : A) : steady (mret x : M A).
Proof. intros s Hs. split; [done|]. split; [done|]. by intros s' _ _. Qed.

Lemma steady_lift {A} (r : Result A) : steady (lift r).
Proof. intros s Hs. split; [done|]. split; [done|]. by intros s' _ _. Qed.

Lemma steady_bind {A B} (m : M A) (f : A → M B) :
  steady m → (∀ x, steady (f x)) → steady (m ≫= f).
Proof.
  intros Hm Hf s Hs. destruct (Hm s Hs) as (Hc1 & Hp1 & He1).
  assert (∀ s', cache_consistent s' → _awg_prefix s' = _awg_prefix s →
                ((m ≫= f) s').1 = ((m ≫= f) s).1) as Hsame.
  { intros s' Hs' Hp'. rewrite !bind_run.
    specialize (He1 s' Hs' Hp'). destruct (Hm s' Hs') as (Hc1' & Hp1' & _).
    destruct (m s) as [[e|x] s1], (m s') as [[e'|x'] s1']; simpl in *;
      try discriminate; [by injection He1 as ->|].
    injection He1 as Hx. subst x'. destruct (Hf x s1 Hc1) as (_ & _ & He2).
    apply He2; [done|congruence]. }
  split; [|split; [|exact Hsame]].
  - rewrite bind_run. destruct (m s) as [[e|x] s1]; [done|]. by apply Hf.
  - rewrite bind_run. destruct (m s) as [[e|x] s1]; [done|]. simpl in *.
    destruct (Hf x s1 Hc1) as (_ & -> & _). done.
Qed.

Lemma wave_side_steady amplitude overwrite :
  steady (wave_side float_bytes py_hash amplitude overwrite).
Proof.
  intros s Hs. unfold wave_side. destruct amplitude as [[e|amp]|]; simpl.
  - split; [done|]. split; [done|]. by intros s' _ _.
  - set (h := WaveManager.calc_hash py_hash float_bytes amp).
    destruct (cache_wave_name h s Hs) as [Hname Hcons].
    split; [by apply persist_consistent|].
    split; [by rewrite persist_prefix, cache_wave_prefix|].
    intros s' Hs' Hp'. destruct (cache_wave_name h s' Hs') as [-> _].
    by rewrite Hname, Hp'.
  - split; [done|]. split; [done|]. by intros s' _ _.
Qed.

Lemma cache_marker_prefix h s : _awg_prefix (cache_marker h s).2 = _awg_prefix s.
Proof. unfold cache_marker. by destruct (_marker_by_data s !! h). Qed.

Lemma marker_side_steady marker_output overwrite :
  steady (marker_side py_hash marker_output overwrite).
Proof.
  intros s Hs. unfold marker_side. destruct marker_output as [[e|mk]|]; simpl.
  - split; [done|]. split; [done|]. by intros s' _ _.
  - set (h := WaveManager.calc_hash py_hash uint8_bytes mk).
    destruct (cache_marker_name h s Hs) as [Hname Hcons].
    split; [by apply persist_consistent|].
    split; [by rewrite persist_prefix, cache_marker_prefix|].
    intros s' Hs' Hp'. destruct (cache_marker_name h s' Hs') as [-> _].
    by rewrite Hname, Hp'.
  - split; [done|]. split; [done|]. by intros s' _ _.
Qed.

Lemma register_steady waveform channels markers vt rate rng off overwrite :
  steady (WaveManager.register get_sample_times float_bytes py_hash
            waveform channels markers vt rate rng off overwrite).
Proof.
  assert (steady (register_outcome float_bytes py_hash
                    (sampled_amplitude get_sample_times waveform channels vt rate rng off)
                    (sampled_markers get_sample_times waveform channels markers rate)
                    overwrite)) as H.
  { set (amplitude := sampled_amplitude _ _ _ _ _ _ _).
    set (marker_output := sampled_markers _ _ _ _ _).
    change (steady (wave_side float_bytes py_hash amplitude overwrite ≫= λ wave_name,
                    marker_side py_hash marker_output overwrite ≫= λ marker_name,
                    mret (wave_name, marker_name))).
    apply steady_bind; [apply wave_side_steady|]. intros wave_name.
    apply steady_bind; [apply marker_side_steady|]. intros marker_name.
    apply steady_ret. }
  intros s Hs. rewrite register_eq. destruct (H s Hs) as (Hc & Hp & He).
  split; [done|]. split; [done|]. intros s' Hs' Hp'. rewrite register_eq. by apply He.
Qed.

Lemma program_to_seqc_steady self prog :
  steady (ProgramManager.program_to_seqc get_sample_times float_bytes py_hash self prog).
Proof.
  apply (program_to_seqc_composed get_sample_times float_bytes py_hash (@steady) self).
  - intros A x. apply steady_ret.
  - intros A r. apply steady_lift.
  - intros A B m f. apply steady_bind.
  - intros waveform c m f. apply register_steady.
Qed.

(** X18. On caches whose entries carry the names minted from their keys, what a
    registration returns depends on the prefix and the call only, not on
    what is cached or on disk: two such caches with one prefix give the same
    references, the same error, and the same registry with the same seqc
    text. *)
Theorem outcome_independent_of_cache s s' :
  cache_consistent s → cache_consistent s' → _awg_prefix s' = _awg_prefix s →
  (∀ waveform channels markers vt rate rng off overwrite,
     (WaveManager.register get_sample_times float_bytes py_hash
        waveform channels markers vt rate rng off overwrite s').1 =
     (WaveManager.register get_sample_times float_bytes py_hash
        waveform channels markers vt rate rng off overwrite s).1) ∧
  (∀ name program channels markers vt rate rng off overwrite self,
     (ProgramManager.register get_sample_times float_bytes py_hash
        name program channels markers vt rate rng off overwrite self s').1 =
     (ProgramManager.register get_sample_times float_bytes py_hash
        name program channels markers vt rate rng off overwrite self s).1).
Proof.
  intros Hs Hs' Hp. split.
  - intros *. by apply register_steady.
  - intros name prog channels markers vt rate rng off overwrite self.
    unfold ProgramManager.register. cbv zeta.
    match goal with
    | |- context [ProgramManager.program_to_seqc _ _ _ ?c prog s] =>
        destruct (program_to_seqc_steady c prog s Hs) as (_ & _ & He)
    end.
    specialize (He s' Hs' Hp).
    destruct (ProgramManager.program_to_seqc _ _ _ _ prog s) as [[e|lines] s1],
             (ProgramManager.program_to_seqc _ _ _ _ prog s') as [[e'|lines'] s1'];
      simpl in *; congruence.
Qed.

End Steady.

(** ** Removing an artifact *)

Section RemoveFacts.

Variable get_sample_times : Waveform → Q → Call (list float * nat).
Variable float_bytes : float → list Byte.byte.
Variable py_hash : list Byte.byte → Z.
Variable dict_items : gmap Z string → list (Z * string).

Hypothesis dict_items_entries : lists_entries dict_items.

Abbreviation wm_remove := (WaveManagerFiles.remove dict_items).

Lemma find_name_spec (m : gmap Z string) name :
  match find (λ kv, String.eqb kv.2 name) (dict_items m) with
  | Some (h, n) => m !! h = Some name
  | None => ∀ h, m !! h ≠ Some name
  end.
Proof.
  destruct (find _ _) as [[h n]|] eqn:E.
  - apply find_some in E as [Hin Heq]. simpl in Heq. apply String.eqb_eq in Heq as ->.
    apply dict_items_entries. by apply list_elem_of_In.
  - intros h Hh. apply dict_items_entries, list_elem_of_In in Hh.
    apply (find_none _ _ E) in Hh. simpl in Hh. by rewrite String.eqb_refl in Hh.
Qed.

Lemma remove_frame name s r s' :
  wm_remove name s = (r, s') →
  _awg_prefix s' = _awg_prefix s ∧ savetxt_log s' = savetxt_log s ∧
  _wave_by_data s' ⊆ _wave_by_data s ∧ _marker_by_data s' ⊆ _marker_by_data s ∧
  wave_dir s' ⊆ wave_dir s ∧
  (∀ x, x ≠ name → wave_dir s' !! x = wave_dir s !! x) ∧
  (∀ h n, n ≠ name → _wave_by_data s !! h = Some n → _wave_by_data s' !! h = Some n) ∧
  (∀ h n, n ≠ name → _marker_by_data s !! h = Some n → _marker_by_data s' !! h = Some n).
Proof.
  unfold WaveManagerFiles.remove, WaveManagerFiles.unlink. cbv zeta.
  pose proof (find_name_spec (_wave_by_data s) name) as Hw.
  pose proof (find_name_spec (_marker_by_data s) name) as Hm.
  assert (∀ (m : gmap Z string) h0 h n,
            m !! h0 = Some name → n ≠ name → m !! h = Some n →
            delete h0 m !! h = Some n) as Hkeep.
  { intros m h0 h n H0 Hne Hh. rewrite lookup_delete_ne; [done|]. congruence. }
  destruct (find _ (dict_items (_wave_by_data s))) as [[h n]|];
    [destruct (WaveManager.path_exists name s) eqn:Hex|]; cbn -[String.eqb find].
  - unfold WaveManager.path_exists at 1. cbn -[String.eqb find].
    destruct (find _ (dict_items (_marker_by_data s))) as [[h' n']|].
    + destruct (delete name (wave_dir s) !! name) eqn:Hdel; cbn; intros [= <- <-]; cbn.
      * by rewrite lookup_delete_eq in Hdel.
      * repeat split; try done; try apply delete_subseteq; eauto.
        intros x Hx. by rewrite lookup_delete_ne.
    + intros [= <- <-]; cbn.
      repeat split; try done; try apply delete_subseteq; eauto.
      intros x Hx. by rewrite lookup_delete_ne.
  - intros [= <- <-]. done.
  - destruct (find _ (dict_items (_marker_by_data s))) as [[h' n']|];
      [destruct (WaveManager.path_exists name s) eqn:Hex|]; cbn; intros [= <- <-]; cbn.
    + repeat split; try done; try apply delete_subseteq; eauto.
      intros x Hx. by rewrite lookup_delete_ne.
    + done.
    + done.
Qed.

(** X19. [remove] changes nothing that does not carry the name: the prefix and
    the write log stay, no entry and no file is added, every other file and
    every entry under another name is kept; and when no entry carries the
    name it returns normally and leaves everything, the file of that name
    included, as it was. *)
Theorem remove_only_that_name name s r s' :
  wm_remove name s = (r, s') →
  (_awg_prefix s' = _awg_prefix s ∧ savetxt_log s' = savetxt_log s ∧
   _wave_by_data s' ⊆ _wave_by_data s ∧ _marker_by_data s' ⊆ _marker_by_data s ∧
   wave_dir s' ⊆ wave_dir s ∧
   (∀ x, x ≠ name → wave_dir s' !! x = wave_dir s !! x) ∧
   (∀ h n, n ≠ name → _wave_by_data s !! h = Some n → _wave_by_data s' !! h = Some n) ∧
   (∀ h n, n ≠ name → _marker_by_data s !! h = Some n →
           _marker_by_data s' !! h = Some n)) ∧
  ((∀ h, _wave_by_data s !! h ≠ Some name) → (∀ h, _marker_by_data s !! h ≠ Some name) →
   r = inr tt ∧ s' = s).
Proof.
  intros H. split; [by eapply remove_frame|]. intros Hw Hm. revert H.
  unfold WaveManagerFiles.remove. cbv zeta.
  pose proof (find_name_spec (_wave_by_data s) name) as Hw'.
  pose proof (find_name_spec (_marker_by_data s) name) as Hm'.
  destruct (find _ (dict_items (_wave_by_data s))) as [[h n]|]; [by destruct (Hw h)|].
  destruct (find _ (dict_items (_marker_by_data s))) as [[h n]|]; [by destruct (Hm h)|].
  by intros [= <- <-].
Qed.

Lemma remove_cached name s :
  cache_consistent s →
  (∃ h, _wave_by_data s !! h = Some name) ∨ (∃ h, _marker_by_data s !! h = Some name) →
  WaveManager.path_exists name s = true →
  ∃ s', wm_remove name s = (inr tt, s') ∧ wave_dir s' = delete name (wave_dir s).
Proof.
  intros [Hcw Hcm] Hin Hex.
  unfold WaveManagerFiles.remove, WaveManagerFiles.unlink. cbv zeta.
  pose proof (find_name_spec (_wave_by_data s) name) as Hw.
  pose proof (find_name_spec (_marker_by_data s) name) as Hm.
  assert (∀ h h', _wave_by_data s !! h = Some name → _marker_by_data s !! h' = Some name →
                  False) as Hsep.
  { intros h h' H1 H2. apply Hcw in H1. apply Hcm in H2.
    eapply wave_name_not_marker_name. by rewrite <- H1, <- H2. }
  rewrite Hex.
  destruct (find _ (dict_items (_wave_by_data s))) as [[h n]|]; cbn -[String.eqb find].
  - destruct (find _ (dict_items (_marker_by_data s))) as [[h' n']|];
      [by destruct (Hsep h h')|].
    by eexists.
  - destruct Hin as [[h Hh]|[h Hh]]; [by destruct (Hw h)|].
    destruct (find _ (dict_items (_marker_by_data s))) as [[h' n']|]; [|by destruct (Hm h)].
    rewrite Hex. by eexists.
Qed.

Lemma register_cached waveform channels markers vt rate rng off overwrite s wn mn s' name :
  WaveManager.register get_sample_times float_bytes py_hash
    waveform channels markers vt rate rng off overwrite s = (inr (wn, mn), s') →
  wn = Some name ∨ mn = Some name →
  (∃ h, _wave_by_data s' !! h = Some name) ∨ (∃ h, _marker_by_data s' !! h = Some name).
Proof.
  rewrite register_eq. unfold register_outcome, wave_side, marker_side.
  destruct (sampled_amplitude _ _ _ _ _ _ _) as [[e|amp]|]; [done| |].
  - cbv zeta.
    destruct (wave_side_done float_bytes py_hash amp overwrite s) as (Hc & _ & _).
    cbv zeta in Hc.
    destruct (sampled_markers _ _ _ _ _) as [[e|mk]|]; [done| |].
    + cbv zeta.
      match goal with
      | |- context [persist _ (IntText mk) overwrite (cache_marker ?h ?sA).2] =>
          destruct (marker_side_done py_hash mk overwrite sA) as (Hc' & _ & Hw & _)
      end.
      cbv zeta in Hc', Hw.
      intros [= <- <- <-] [[= <-]|[= <-]].
      * left. eexists. rewrite Hw. exact Hc.
      * right. eexists. exact Hc'.
    + intros [= <- <- <-] [[= <-]|[=]]. left. eexists. exact Hc.
  - destruct (sampled_markers _ _ _ _ _) as [[e|mk]|]; [done| |].
    + cbv zeta.
      destruct (marker_side_done py_hash mk overwrite s) as (Hc' & _ & _).
      cbv zeta in Hc'.
      intros [= <- <- <-] [[=]|[= <-]]. right. eexists. exact Hc'.
    + intros [= <- <- <-] [[=]|[=]].
Qed.

(** X20. After a registration on a consistent cache, removing an artifact it
    returned succeeds and deletes the file; registering the same waveform
    again then returns the same references and writes that file once more. *)
Theorem remove_then_register waveform channels markers vt rate rng off s wn mn s1 name :
  cache_consistent s →
  WaveManager.register get_sample_times float_bytes py_hash
    waveform channels markers vt rate rng off false s = (inr (wn, mn), s1) →
  wn = Some name ∨ mn = Some name →
  ∃ s2 s3,
    wm_remove name s1 = (inr tt, s2) ∧
    wave_dir s2 = delete name (wave_dir s1) ∧
    WaveManager.register get_sample_times float_bytes py_hash
      waveform channels markers vt rate rng off false s2 = (inr (wn, mn), s3) ∧
    WaveManager.path_exists name s3 = true ∧
    writes_to name s3 = S (writes_to name s1).
Proof.
  intros Hcons Hreg Hname.
  destruct (register_consistent get_sample_times float_bytes py_hash _ _ _ _ _ _ _ _ _ _ _
              Hcons Hreg) as [Hcons1 _].
  pose proof (register_on_disk get_sample_times float_bytes py_hash _ _ _ _ _ _ _ _ _ _ _ _ _
                Hreg Hname) as Hex.
  pose proof (register_cached _ _ _ _ _ _ _ _ _ _ _ _ _ Hreg Hname) as Hin.
  destruct (remove_cached name s1 Hcons1 Hin Hex) as (s2 & Hrem & Hdir).
  destruct (remove_frame _ _ _ _ Hrem) as (Hp & Hlog & Hw & Hm & _).
  assert (cache_consistent s2) as Hcons2.
  { destruct Hcons1 as [Hcw Hcm]. split; intros h n Hh; rewrite Hp.
    - apply Hcw. by eapply lookup_weaken.
    - apply Hcm. by eapply lookup_weaken. }
  assert (_awg_prefix s2 = _awg_prefix s) as Hp2.
  { rewrite Hp. apply (register_grows get_sample_times float_bytes py_hash) in Hreg
      as [(Hp1 & _) _]. exact Hp1. }
  destruct (register_steady get_sample_times float_bytes py_hash
              waveform channels markers vt rate rng off false s Hcons) as (_ & _ & Hsame).
  specialize (Hsame s2 Hcons2 Hp2). rewrite Hreg in Hsame. simpl in Hsame.
  destruct (WaveManager.register _ _ _ _ _ _ _ _ _ _ _ s2) as [r2 s3] eqn:Hreg2.
  simpl in Hsame. subst r2.
  exists s2, s3. split; [done|]. split; [done|]. split; [done|].
  split; [by eapply register_on_disk|].
  rewrite register_eq in Hreg2.
  rewrite (outcome_writes float_bytes py_hash _ _ _ _ _ name Hreg2 Hname).
  - unfold writes_to. by rewrite Hlog.
  - rewrite Hdir. apply lookup_delete_eq.
Qed.

End RemoveFacts.

(** ** Uploading a program *)

Section UploadFacts.

Variable get_sample_times : Waveform → Q → Call (list float * nat).
Variable float_bytes : float → list Byte.byte.
Variable py_hash : list Byte.byte → Z.
Variable q_sample_rate : Q.
Variable device_range : Z → float.
Variable make_compatible : Loop → Q → option Loop.
Variable upload_time : string.

Abbreviation group_upload :=
  (ChannelGroup.upload get_sample_times float_bytes py_hash q_sample_rate device_range
     make_compatible upload_time).




End UploadFacts.

(** ** Arming a program *)

Section ArmFacts.

Variable get_sample_times : Waveform → Q → Call (list float * nat).
Variable float_bytes : float → list Byte.byte.
Variable py_hash : list Byte.byte → Z.

Abbreviation run := (Spec.run get_sample_times float_bytes py_hash).
Abbreviation fresh_names := (Spec.fresh_names get_sample_times float_bytes py_hash).

Lemma od_get_elem_of {V} name (v : V) d : od_get name d = Some v → (name, v) ∈ d.
Proof.
  induction d as [|[k w] d IH]; simpl; [done|].
  destruct (String.eqb k name) eqn:E.
  - apply String.eqb_eq in E as ->. intros [= ->]. apply list_elem_of_here.
  - intros H. apply list_elem_of_further. by apply IH.
Qed.

Lemma increasing_same_index d kv kv' :
  increasing d → kv ∈ d → kv' ∈ d → index kv.2 = index kv'.2 → kv = kv'.
Proof.
  unfold increasing. induction 1 as [|a d Hd IH Hall]; intros Hin Hin' Heq.
  - inversion Hin.
  - rewrite Forall_forall in Hall.
    apply elem_of_cons in Hin as [->|Hin], Hin' as [->|Hin'].
    + done.
    + specialize (Hall _ Hin'). lia.
    + specialize (Hall _ Hin). lia.
    + by apply IH.
Qed.

Lemma fresh_names_invariant number_of_channels wm ops :
  fresh_names ops (ProgramManager.init number_of_channels, wm) →
  increasing (known (run ops (ProgramManager.init number_of_channels, wm))) ∧
  Forall (λ kv, 1 ≤ index kv.2)
    (known (run ops (ProgramManager.init number_of_channels, wm))).
Proof.
  induction ops as [|op ops IH] using rev_ind; intros Hfresh.
  - split; constructor.
  - apply fresh_names_snoc in Hfresh as [Hfresh Hop].
    destruct (IH Hfresh) as [Hinc Hpos]. rewrite run_snoc.
    split; [|by apply positive_step].
    set (st := run ops (ProgramManager.init number_of_channels, wm)) in *.
    destruct op as [r|name|].
    + destruct (register_known get_sample_times float_bytes py_hash r st)
        as [(text & _ & ->)|(e & _ & ->)]; [|done].
      rewrite od_setitem_fresh by done.
      apply increasing_snoc; [done|]. simpl. apply generate_program_index_last.
    + destruct (remove_known get_sample_times float_bytes py_hash name st) as [->| ->];
        [done|].
      by apply increasing_filter.
    + constructor.
Qed.

(** X22. In a registry that was built by registering only names that were not
    registered at that moment, arming a registered program writes its index
    to user register zero and records the name; the index is not the idle
    value, no other registered program has it, and the program's dispatch arm
    in the assembled document carries that index in its case label. Arming
    no name writes the idle value. *)
Theorem arm_selects_own_case (number_of_channels : nat) (wm : HDAWGWaveManager) ops
    name current :
  fresh_names ops (ProgramManager.init number_of_channels, wm) →
  name ≠ EmptyString →
  name ∈ ProgramManager.programs (run ops (ProgramManager.init number_of_channels, wm)).1 →
  let self := (run ops (ProgramManager.init number_of_channels, wm)).1 in
  ChannelGroup.arm None self current = (inr (0, PROG_IDLE), None) ∧
  ∃ entry,
    od_get name (_known_programs self) = Some entry ∧
    ChannelGroup.arm (Some name) self current = (inr (0, index entry), Some name) ∧
    index entry ≠ PROG_IDLE ∧
    (∀ name' entry', od_get name' (_known_programs self) = Some entry' →
                     index entry' = index entry → name' = name) ∧
    ProgramManager.case_wrap_program entry name 8 ∈ dispatch_arms self ∧
    ∃ rest, ProgramManager.case_wrap_program entry name 8 =
            "        case " +:+ pretty (index entry) +:+ ": // Program name: " +:+ rest.
Proof.
  intros Hfresh Hname Hin self. split; [done|].
  destruct (fresh_names_invariant _ _ _ Hfresh) as [Hinc Hpos].
  fold self in Hin. unfold known in Hinc, Hpos. fold self in Hinc, Hpos.
  destruct (od_get name (_known_programs self)) as [entry|] eqn:Hget.
  2:{ apply od_get_None in Hget. by destruct Hget. }
  exists entry. split; [done|].
  pose proof (od_get_elem_of _ _ _ Hget) as Helem.
  assert (1 ≤ index entry) as Hidx.
  { rewrite Forall_forall in Hpos. exact (Hpos _ Helem). }
  split; [|split; [|split; [|split]]].
  - unfold ChannelGroup.arm. cbv zeta. destruct name as [|c name]; [done|].
    rewrite bool_decide_eq_true_2 by done. simpl.
    unfold ProgramManager.name_to_index. by rewrite Hget.
  - unfold PROG_IDLE. lia.
  - intros name' entry' Hget' Heq.
    apply od_get_elem_of in Hget'.
    by pose proof (increasing_same_index _ _ _ Hinc Hget' Helem Heq) as [= -> _].
  - unfold dispatch_arms. apply list_elem_of_fmap. by exists (name, entry).
  - apply case_wrap_program_label.
Qed.

End ArmFacts.

(** * The further properties on examples *)

Lemma glob_covers_awg : glob_covers ExampleFiles.glob "awg".
Proof.
  intros rest. unfold WaveManagerFiles.file_name, WaveManagerFiles._file_type.
  change (ExampleFiles.glob "awg_*.csv" ("awg_" +:+ rest +:+ ".csv") = true).
  change ((fix star (file : string) : bool :=
             ExampleFiles.glob ".csv" file ||
             match file with
             | EmptyString => false
             | String _ file' => star file'
             end) (rest +:+ ".csv") = true).
  induction rest as [|c rest IH]; [done|].
  rewrite append_cons. rewrite IH. apply orb_true_r.
Qed.

Lemma dict_items_lists_entries : lists_entries ExampleFiles.dict_items.
Proof. intros m h name. apply elem_of_map_to_list. Qed.


(** A sample of 2 V against a range of 1 V. *)
Lemma register_never_finds_file_in_the_way_witness :
  Scenario.out_of_range.1 = inl (HDAWGValueError 2 1) ∧
  ¬ is_io_error (HDAWGValueError 2 1).
Proof.
  split; [by vm_compute|].
  apply (proj1 (register_never_finds_file_in_the_way
                  Example.sample_times Example.float_bytes Example.hash)
           Example.wf [Some "A"]%string [None] [Example.identity] 1%Q [1%float] [0%float] false
           (Example.fresh "awg") (HDAWGValueError 2 1) Scenario.out_of_range.2).
  by vm_compute.
Defined.

(** The first registration of a wave and a marker. *)
Lemma register_only_adds_witness :
  grows (Example.fresh "awg") Run.wave_and_marker.2 ∧
  (false = false → keeps_files (Example.fresh "awg") Run.wave_and_marker.2).
Proof.
  apply (proj1 (register_only_adds Example.sample_times Example.float_bytes Example.hash)
           Example.wf [Some "A"]%string [Some "B"]%string [Example.identity] 1%Q [2%float] [0%float]
           false (Example.fresh "awg") Run.wave_and_marker.1).
  by vm_compute.
Defined.

(** The second entry of a per-channel registration. *)
Lemma returned_references_on_disk_witness :
  WaveManager.path_exists "awg_6760" Run.two_ranges.2 = true.
Proof.
  apply (proj2 (returned_references_on_disk Example.sample_times Example.float_bytes
                  Example.hash)
           Example.wf [Some "A"; Some "B"]%string [None; None]
           [Example.identity; Example.identity] 1%Q [2%float; 1%float] [0%float; 0%float] false
           (Example.fresh "awg")
           [(Some "awg_6759", None, 1, Some "A"); (Some "awg_6760", None, 2, Some "B")]%string
           Run.two_ranges.2 (Some "awg_6760"%string) None 2 (Some "B"%string)).
  - by vm_compute.
  - apply list_elem_of_further, list_elem_of_here.
  - by left.
Defined.

(** The cache after one registration on an empty one. *)
Lemma cache_stays_consistent_witness :
  cache_consistent Run.wave_and_marker.2 ∧
  ∀ wn mn, Run.wave_and_marker.1 = inr (wn, mn) →
    (∀ name, wn = Some name →
       ∃ amp, sampled_amplitude Example.sample_times Example.wf [Some "A"]%string
                [Example.identity] 1%Q [2%float] [0%float] = Some (inr amp) ∧
              name = WaveManager.generate_wave_name "awg"
                       (WaveManager.calc_hash Example.hash Example.float_bytes amp)) ∧
    (∀ name, mn = Some name →
       ∃ mk, sampled_markers Example.sample_times Example.wf [Some "A"]%string
               [Some "B"]%string 1 = Some (inr mk) ∧
             name = WaveManager.generate_marker_name "awg"
                      (WaveManager.calc_hash Example.hash uint8_bytes mk)).
Proof.
  apply (proj1 (cache_stays_consistent Example.sample_times Example.float_bytes Example.hash)
           Example.wf [Some "A"]%string [Some "B"]%string [Example.identity] 1%Q [2%float] [0%float]
           false (Example.fresh "awg")).
  - by split.
  - by vm_compute.
Defined.

(** The same wave and marker, registered again with [overwrite]. *)
Lemma overwrite_writes_again_witness :
  map fst (drop (length (savetxt_log Run.wave_and_marker.2))
             (savetxt_log Scenario.overwritten.2)) =
    omap id [Some "awg_6759"; Some "awg_M_218"]%string ∧
  savetxt_log Run.wave_and_marker.2 `prefix_of` savetxt_log Scenario.overwritten.2 ∧
  (∀ name, Some "awg_M_218"%string = Some name →
     ∃ mk, sampled_markers Example.sample_times Example.wf [Some "A"]%string
             [Some "B"]%string 1 = Some (inr mk) ∧
           wave_dir Scenario.overwritten.2 !! name = Some (IntText mk)) ∧
  (∀ name, Some "awg_6759"%string = Some name → Some "awg_M_218"%string ≠ Some name →
     ∃ amp, sampled_amplitude Example.sample_times Example.wf [Some "A"]%string
              [Example.identity] 1%Q [2%float] [0%float] = Some (inr amp) ∧
            wave_dir Scenario.overwritten.2 !! name = Some (FloatText amp)).
Proof.
  apply (overwrite_writes_again Example.sample_times Example.float_bytes Example.hash
           Example.wf [Some "A"]%string [Some "B"]%string [Example.identity] 1%Q [2%float] [0%float]
           Run.wave_and_marker.2).
  by vm_compute.
Defined.


(** Two slots, neither with a channel or a marker. *)
Lemma unassigned_slots_touch_nothing_witness :
  ∃ self',
    Scenario.pm_register "a" Scenario.two_leaves [None; None] [None; None]
      [Example.identity; Example.identity] 1%Q [2%float; 1%float] [0%float; 0%float] false
      Run.start.1 Run.start.2 = (inr tt, self', Run.start.2) ∧
    ProgramManager.name_to_index "a" self'
      = inr (ProgramManager.generate_program_index Run.start.1).
Proof.
  apply (unassigned_slots_touch_nothing Example.sample_times Example.float_bytes Example.hash).
  - by repeat constructor.
  - by repeat constructor.
  - simpl. lia.
Defined.

(** The first program of a new registry. *)
Lemma register_then_lookup_witness :
  (∀ other, other ≠ "a"%string →
     ProgramManager.name_to_index other Scenario.registered.1.2
       = ProgramManager.name_to_index other Run.start.1) ∧
  ProgramManager.name_to_index "a" Scenario.registered.1.2
    = inr (ProgramManager.generate_program_index Run.start.1) ∧
  ProgramManager.programs Scenario.registered.1.2 =
    if is_not_None (od_get "a" (_known_programs Run.start.1))
    then ProgramManager.programs Run.start.1
    else ProgramManager.programs Run.start.1 ++ ["a"%string].
Proof.
  apply (register_then_lookup Example.sample_times Example.float_bytes Example.hash
           "a" Scenario.two_leaves [Some "A"; None]%string [None; Some "B"]%string
           [Example.identity; Example.identity] 1%Q [2%float; 1%float] [0%float; 0%float] false
           Run.start.1 Run.start.2 (inr tt) Scenario.registered.1.2 Scenario.registered.2).
  by vm_compute.
Defined.

(** Removing a from the registry that holds a and b. *)
Lemma remove_then_lookup_witness :
  let self' := (ProgramManager.remove "a" Scenario.a_then_b.1).2 in
  ProgramManager.name_to_index "a" self' = inl (KeyError "a") ∧
  ProgramManager.remove "a" self' = (inl (KeyError "a"), self') ∧
  (∀ other, other ≠ "a"%string →
     ProgramManager.name_to_index other self'
       = ProgramManager.name_to_index other Scenario.a_then_b.1) ∧
  ProgramManager.programs self'
    = filter (λ n, n ≠ "a"%string) (ProgramManager.programs Scenario.a_then_b.1).
Proof.
  intros self'.
  apply (proj2 (remove_then_lookup "a" Scenario.a_then_b.1) self').
  by vm_compute.
Defined.

(** With a and b registered, a is registered again and then c. *)
Lemma registering_again_shares_index_witness :
  let st' := (Run.apply_op (OpRegister (Run.leaf_on_A "c"))
                (Run.apply_op (OpRegister (Run.leaf_on_A "a")) Scenario.a_then_b).2).2 in
  reg_name (Run.leaf_on_A "a") ≠ reg_name (Run.leaf_on_A "c") ∧
  ProgramManager.name_to_index (reg_name (Run.leaf_on_A "a")) st'.1
    = inr (index (Scenario.newest Scenario.a_then_b).2 + 1) ∧
  ProgramManager.name_to_index (reg_name (Run.leaf_on_A "c")) st'.1
    = inr (index (Scenario.newest Scenario.a_then_b).2 + 1).
Proof.
  apply (registering_again_shares_index Example.sample_times Example.float_bytes Example.hash
           Scenario.a_then_b (Run.leaf_on_A "a") (Run.leaf_on_A "c")
           (Scenario.entry_of "a" Scenario.a_then_b)
           (Scenario.newest Scenario.a_then_b).1 (Scenario.newest Scenario.a_then_b).2);
    by vm_compute.
Defined.

(** With a and b registered, the registry is cleared and c registered. *)
Lemma clear_restarts_numbering_witness :
  let st' := (Run.apply_op (OpRegister (Run.leaf_on_A "c"))
                (Run.apply_op OpClear Scenario.a_then_b).2).2 in
  ProgramManager.programs st'.1 = [reg_name (Run.leaf_on_A "c")] ∧
  ProgramManager.name_to_index (reg_name (Run.leaf_on_A "c")) st'.1 = inr 1.
Proof.
  apply (proj2 (clear_restarts_numbering Example.sample_times Example.float_bytes
                  Example.hash Scenario.a_then_b (Run.leaf_on_A "c"))).
  by vm_compute.
Defined.

(** A directory with an artifact of the prefix and a file of another prefix. *)
Lemma clear_then_register_witness :
  let cleared := WaveManagerFiles.clear ExampleFiles.glob Scenario.used_directory in
  _wave_by_data cleared = ∅ ∧ _marker_by_data cleared = ∅ ∧
  wave_dir cleared ⊆ wave_dir Scenario.used_directory ∧
  (∀ name c, wave_dir Scenario.used_directory !! name = Some c →
     ExampleFiles.glob ("awg" +:+ "_*." +:+ WaveManagerFiles._file_type)
       (WaveManagerFiles.file_name name) = false →
     wave_dir cleared !! name = Some c) ∧
  ∀ waveform channels markers vt rate rng off wn mn s' name,
    Run.register waveform channels markers vt rate rng off false cleared
      = (inr (wn, mn), s') →
    wn = Some name ∨ mn = Some name →
    writes_to name s' = S (writes_to name Scenario.used_directory).
Proof.
  apply (clear_then_register Example.sample_times Example.float_bytes Example.hash
           ExampleFiles.glob Scenario.used_directory).
  exact glob_covers_awg.
Defined.

(** The pair (3, 4) in the grouping 4x2. *)
Lemma accepted_channel_groups_witness :
  ∃ k, ChannelGroup.awg_group_index (ChannelTuple [3; 4]) = inr k ∧ 0 ≤ k ≤ 3 ∧
       ∀ channels',
         ChannelGroup.check_channels CHAN_GROUP_4x2 channels' = inr tt →
         ChannelGroup.awg_group_index channels' = inr k →
         ChannelGroup.items channels' = ChannelGroup.items (ChannelTuple [3; 4]).
Proof.
  apply (proj1 (proj2 (accepted_channel_groups CHAN_GROUP_4x2 (ChannelTuple [3; 4])))).
  by vm_compute.
Defined.

(** The program of a, registered again as b. *)
Lemma registering_again_changes_nothing_witness :
  ∃ self2',
    Scenario.pm_register "b" Scenario.two_leaves [Some "A"; None]%string
      [None; Some "B"]%string [Example.identity; Example.identity] 1%Q [2%float; 1%float] [0%float; 0%float]
      false Scenario.registered.1.2 Scenario.registered.2
      = (inr tt, self2', Scenario.registered.2) ∧
    (inr tt = inr tt :> Result unit →
     seqc_rep <$> od_get "b" (_known_programs self2') =
     seqc_rep <$> od_get "a" (_known_programs Scenario.registered.1.2)).
Proof.
  apply (registering_again_changes_nothing Example.sample_times Example.float_bytes
           Example.hash "a" Scenario.two_leaves [Some "A"; None]%string
           [None; Some "B"]%string [Example.identity; Example.identity] 1%Q [2%float; 1%float]
           [0%float; 0%float] Run.start.1 Run.start.2 (inr tt) Scenario.registered.1.2
           Scenario.registered.2).
  - by vm_compute.
  - reflexivity.
Defined.

Lemma wave_and_marker_consistent : cache_consistent Run.wave_and_marker.2.
Proof.
  eapply (register_consistent Example.sample_times Example.float_bytes Example.hash
            Example.wf [Some "A"]%string [Some "B"]%string [Example.identity] 1%Q [2%float] [0%float]
            false (Example.fresh "awg") Run.wave_and_marker.1); [by split|by vm_compute].
Qed.

(** An empty cache and the cache after one registration. *)
Lemma outcome_independent_of_cache_witness :
  (∀ waveform channels markers vt rate rng off overwrite,
     (Run.register waveform channels markers vt rate rng off overwrite
        Run.wave_and_marker.2).1 =
     (Run.register waveform channels markers vt rate rng off overwrite
        (Example.fresh "awg")).1) ∧
  (∀ name program channels markers vt rate rng off overwrite self,
     (Scenario.pm_register name program channels markers vt rate rng off overwrite self
        Run.wave_and_marker.2).1 =
     (Scenario.pm_register name program channels markers vt rate rng off overwrite self
        (Example.fresh "awg")).1).
Proof.
  apply (outcome_independent_of_cache Example.sample_times Example.float_bytes Example.hash
           (Example.fresh "awg") Run.wave_and_marker.2).
  - by split.
  - exact wave_and_marker_consistent.
  - by vm_compute.
Defined.

(** Removing the wave of a registered wave and marker. *)
Lemma remove_only_that_name_witness :
  let s := Run.wave_and_marker.2 in
  let s' := (Scenario.wm_remove "awg_6759" s).2 in
  (_awg_prefix s' = _awg_prefix s ∧ savetxt_log s' = savetxt_log s ∧
   _wave_by_data s' ⊆ _wave_by_data s ∧ _marker_by_data s' ⊆ _marker_by_data s ∧
   wave_dir s' ⊆ wave_dir s ∧
   (∀ x, x ≠ "awg_6759"%string → wave_dir s' !! x = wave_dir s !! x) ∧
   (∀ h n, n ≠ "awg_6759"%string → _wave_by_data s !! h = Some n →
           _wave_by_data s' !! h = Some n) ∧
   (∀ h n, n ≠ "awg_6759"%string → _marker_by_data s !! h = Some n →
           _marker_by_data s' !! h = Some n)) ∧
  ((∀ h, _wave_by_data s !! h ≠ Some "awg_6759"%string) →
   (∀ h, _marker_by_data s !! h ≠ Some "awg_6759"%string) →
   (Scenario.wm_remove "awg_6759" s).1 = inr tt ∧ s' = s).
Proof.
  intros s s'.
  apply (remove_only_that_name ExampleFiles.dict_items dict_items_lists_entries
           "awg_6759" s (Scenario.wm_remove "awg_6759" s).1 s').
  by vm_compute.
Defined.

(** Removing the marker of a registered wave and marker. *)
Lemma remove_then_register_witness :
  ∃ s2 s3,
    Scenario.wm_remove "awg_M_218" Run.wave_and_marker.2 = (inr tt, s2) ∧
    wave_dir s2 = delete "awg_M_218"%string (wave_dir Run.wave_and_marker.2) ∧
    Run.register Example.wf [Some "A"]%string [Some "B"]%string [Example.identity] 1
      [2%float] [0%float] false s2 = (inr (Some "awg_6759", Some "awg_M_218")%string, s3) ∧
    WaveManager.path_exists "awg_M_218" s3 = true ∧
    writes_to "awg_M_218" s3 = S (writes_to "awg_M_218" Run.wave_and_marker.2).
Proof.
  apply (remove_then_register Example.sample_times Example.float_bytes Example.hash
           ExampleFiles.dict_items dict_items_lists_entries
           Example.wf [Some "A"]%string [Some "B"]%string [Example.identity] 1%Q [2%float] [0%float]
           (Example.fresh "awg")).
  - by split.
  - by vm_compute.
  - by right.
Defined.


(** With a and b registered in this order, b is armed. *)
Lemma arm_selects_own_case_witness :
  let self := (Run.run [OpRegister (Run.leaf_on_A "a"); OpRegister (Run.leaf_on_A "b")]
                 (ProgramManager.init 2, Example.fresh "awg")).1 in
  ChannelGroup.arm None self None = (inr (0, PROG_IDLE), None) ∧
  ∃ entry,
    od_get "b" (_known_programs self) = Some entry ∧
    ChannelGroup.arm (Some "b"%string) self None = (inr (0, index entry), Some "b"%string) ∧
    index entry ≠ PROG_IDLE ∧
    (∀ name' entry', od_get name' (_known_programs self) = Some entry' →
                     index entry' = index entry → name' = "b"%string) ∧
    ProgramManager.case_wrap_program entry "b" 8 ∈ dispatch_arms self ∧
    ∃ rest, ProgramManager.case_wrap_program entry "b" 8 =
            "        case " +:+ pretty (index entry) +:+ ": // Program name: " +:+ rest.
Proof.
  apply (arm_selects_own_case Example.sample_times Example.float_bytes Example.hash
           2 (Example.fresh "awg")
           [OpRegister (Run.leaf_on_A "a"); OpRegister (Run.leaf_on_A "b")] "b" None).
  - simpl. repeat split; by vm_compute.
  - done.
  - apply (bool_decide_unpack _). by vm_compute.
Defined.

(** A wave manager constructed over the used directory. *)
Lemma new_wave_manager_starts_clean_witness :
  let s := WaveManagerFiles.clear ExampleFiles.glob Scenario.used_directory in
  true = true ∧ _awg_prefix s = "awg"%string ∧
  _wave_by_data s = ∅ ∧ _marker_by_data s = ∅ ∧
  wave_dir s ⊆ wave_dir Scenario.used_directory ∧
  (glob_covers ExampleFiles.glob "awg" →
   ∀ waveform channels markers vt rate rng off wn mn s' name,
     Run.register waveform channels markers vt rate rng off false s = (inr (wn, mn), s') →
     wn = Some name ∨ mn = Some name →
     writes_to name s' = 1%nat).
Proof.
  intros s.
  apply (proj2 (new_wave_manager_starts_clean Example.sample_times Example.float_bytes
                  Example.hash ExampleFiles.glob "user/awg/waves" true "awg"
                  (wave_dir Scenario.used_directory))).
  by vm_compute.
Defined.
